(** * OKProxy: a reverse-proxy handler pair over [httputil.NewSingleHostReverseProxy]

    Shallow embedding of [main.go] (package [okproxy]).  Go strings and byte
    slices are sequences of bytes and are modelled by [string] (a list of
    8-bit [ascii]).  The parts of Go's standard library that the package
    calls ([strings], [net/textproto], [net/url], [unicode/utf8],
    [encoding/json], [io/ioutil], [net/http]) are modelled in modules named
    after them.  The package itself is the module [okproxy]: a handler is a
    computation on a world made of the proxy, the request being served and
    the calls that leave the package; the interface [ProxyReverser] is a
    class, with [*reverseProxy] and the mock of [okproxy_test.go] as its
    instances. *)

From Stdlib Require Import String Ascii List ZArith Lia Bool.
From stdpp Require Import base option strings gmap.
Import ListNotations.
Local Open Scope string_scope.

(** ** Bytes *)

Definition byte_val (c : ascii) : nat := nat_of_ascii c.
Definition byte_of (n : nat) : ascii := ascii_of_nat n.

(** [lo <= c <= hi] on bytes, as in Go's ['a' <= c && c <= 'z']. *)
Definition between (lo hi c : ascii) : bool :=
  (byte_val lo <=? byte_val c)%nat && (byte_val c <=? byte_val hi)%nat.

Definition byte_eqb (a b : ascii) : bool := Ascii.eqb a b.

(** [c] is one of the bytes of [set] (a Go [switch c { case ...: }]). *)
Fixpoint one_of (set : string) (c : ascii) : bool :=
  match set with
  | EmptyString => false
  | String d set' => byte_eqb c d || one_of set' c
  end.

Definition dquote : ascii := "034"%char.
Definition newline : ascii := "010"%char.

(** ** Package [strings] *)

Module strings.

(** [len(s)] *)
Definition len (s : string) : nat := String.length s.

(** [s[n:]] for [n <= len(s)] *)
Fixpoint drop (n : nat) (s : string) : string :=
  match n, s with
  | O, _ => s
  | S n', String _ s' => drop n' s'
  | S _, EmptyString => EmptyString
  end.

(** [s[:n]] for [n <= len(s)] *)
Fixpoint take (n : nat) (s : string) : string :=
  match n, s with
  | O, _ => EmptyString
  | S n', String c s' => String c (take n' s')
  | S _, EmptyString => EmptyString
  end.

(** [HasPrefix(s, prefix)]:
    [len(s) >= len(prefix) && s[:len(prefix)] == prefix] *)
Fixpoint HasPrefix (s prefix : string) {struct prefix} : bool :=
  match prefix, s with
  | EmptyString, _ => true
  | String p prefix', String c s' => byte_eqb c p && HasPrefix s' prefix'
  | String _ _, EmptyString => false
  end.

(** [TrimPrefix(s, prefix)]: [s] without the leading [prefix]; [s] itself
    when it does not start with [prefix]. *)
Definition TrimPrefix (s prefix : string) : string :=
  if HasPrefix s prefix then drop (len prefix) s else s.

(** [HasSuffix(s, suffix)] *)
Definition HasSuffix (s suffix : string) : bool :=
  (len suffix <=? len s)%nat &&
  String.eqb (drop (len s - len suffix) s) suffix.

(** [Index(s, substr)]: offset of the first occurrence, [None] for Go's -1. *)
Fixpoint Index (s substr : string) : option nat :=
  if HasPrefix s substr then Some O
  else match s with
       | EmptyString => None
       | String _ s' => S <$> Index s' substr
       end.

(** [LastIndex(s, substr)]: offset of the last occurrence. *)
Fixpoint LastIndex (s substr : string) : option nat :=
  match s with
  | EmptyString => if HasPrefix s substr then Some O else None
  | String _ s' =>
      match LastIndex s' substr with
      | Some i => Some (S i)
      | None => if HasPrefix s substr then Some O else None
      end
  end.

Definition Contains (s substr : string) : bool :=
  match Index s substr with Some _ => true | None => false end.

(** [Count(s, substr)] for a one-byte [substr]. *)
Fixpoint CountByte (s : string) (c : ascii) : nat :=
  match s with
  | EmptyString => O
  | String d s' => (if byte_eqb d c then 1 else 0) + CountByte s' c
  end.

(** [Cut(s, sep)]: the text before and after the first [sep], and whether
    [sep] occurs; [(s, "", false)] when it does not. *)
Definition Cut (s sep : string) : string * string * bool :=
  match Index s sep with
  | Some i => (take i s, drop (i + len sep) s, true)
  | None => (s, EmptyString, false)
  end.

Definition lower (c : ascii) : ascii :=
  if between "A" "Z" c then byte_of (byte_val c + 32) else c.

Definition upper (c : ascii) : ascii :=
  if between "a" "z" c then byte_of (byte_val c - 32) else c.

Fixpoint map_bytes (f : ascii -> ascii) (s : string) : string :=
  match s with
  | EmptyString => EmptyString
  | String c s' => String (f c) (map_bytes f s')
  end.

End strings.

(** ** Errors

    Go's [error] values the package can meet: [errors.New] strings, the
    errors of [encoding/json] and [net/url], and whatever a request body's
    [Read] fails with.  [nil] is [None] in an [option error]. *)

Inductive syntax_msg :=
| UnexpectedEnd
    (* "unexpected end of JSON input" *)
| InvalidCharacter (c : ascii) (context : string).
    (* "invalid character " + quoteChar(c) + " " + context *)

Inductive error :=
| errorString (s : string)                          (* errors.New(s) *)
| SyntaxError (msg : syntax_msg) (Offset : nat)     (* *json.SyntaxError *)
| UnmarshalTypeError (Value : string) (Field : string)
    (* *json.UnmarshalTypeError; its Type, Offset and Struct are left out *)
| EscapeError (s : string)                          (* url.EscapeError *)
| InvalidHostError (s : string)                     (* url.InvalidHostError *)
| url_Error (Op URL : string) (Err : error).        (* *url.Error *)

(** A result with Go's [(value, err)] convention. *)
Inductive result (A : Type) :=
| Ok (a : A)
| Err (e : error).
Arguments Ok {A} a.
Arguments Err {A} e.

Definition rbind {A B} (x : result A) (f : A -> result B) : result B :=
  match x with
  | Ok a => f a
  | Err e => Err e
  end.

#[global] Instance result_ret : MRet result := fun _ a => Ok a.
#[global] Instance result_bind : MBind result := fun _ _ f x => rbind x f.

(** ** Package [net/textproto] *)

Module textproto.

(** [validHeaderFieldByte]: the token bytes of RFC 7230. *)
Definition validHeaderFieldByte (c : ascii) : bool :=
  between "a" "z" c || between "A" "Z" c || between "0" "9" c
  || one_of "!#$%&'*+-.^_`|~" c.

Fixpoint all_bytes (p : ascii -> bool) (s : string) : bool :=
  match s with
  | EmptyString => true
  | String c s' => p c && all_bytes p s'
  end.

(** The canonicalising loop: upper case for the first letter and for a
    letter after a dash, lower case for the others. *)
Fixpoint canon (upper : bool) (s : string) : string :=
  match s with
  | EmptyString => EmptyString
  | String c s' =>
      let c' := if upper then strings.upper c else strings.lower c in
      String c' (canon (byte_eqb c' "-") s')
  end.

(** [CanonicalMIMEHeaderKey(s)]: a key with a byte that is not a token
    byte is returned unchanged. *)
Definition CanonicalMIMEHeaderKey (s : string) : string :=
  if all_bytes validHeaderFieldByte s then canon true s else s.

End textproto.

(** ** Package [net/url] *)

Module url.

(** [url.Userinfo]: a user name and an optional password. *)
Record Userinfo := {
  username : string;
  password : option string
}.

(** [url.URL].  [RawPath] and [RawFragment], the encoding hints that
    nothing in the package reads, are left out. *)
Record URL := {
  Scheme : string;
  Opaque : string;
  User : option Userinfo;
  Host : string;
  Path : string;
  OmitHost : bool;
  ForceQuery : bool;
  RawQuery : string;
  Fragment : string
}.

(** [new(URL)] *)
Definition zero : URL :=
  {| Scheme := ""; Opaque := ""; User := None; Host := ""; Path := "";
     OmitHost := false; ForceQuery := false; RawQuery := ""; Fragment := "" |}.

Inductive encoding :=
| encodePath | encodePathSegment | encodeHost | encodeZone
| encodeUserPassword | encodeQueryComponent | encodeFragment.

Definition is_host_mode (mode : encoding) : bool :=
  match mode with encodeHost | encodeZone => true | _ => false end.

(** [shouldEscape(c, mode)] *)
Definition shouldEscape (c : ascii) (mode : encoding) : bool :=
  if between "a" "z" c || between "A" "Z" c || between "0" "9" c then false
  else if is_host_mode mode
          && (one_of "!$&'()*+,;=:[]<>" c || byte_eqb c dquote) then false
  else if one_of "-_.~" c then false
  else if one_of "$&+,/:;=?@" c then
    match mode with
    | encodePath => byte_eqb c "?"
    | encodePathSegment => one_of "/;,?" c
    | encodeUserPassword => one_of "@/?:" c
    | encodeQueryComponent => true
    | encodeFragment => false
    | encodeHost | encodeZone => true
    end
  else match mode with
       | encodeFragment => negb (one_of "!()*" c)
       | _ => true
       end.

Definition ishex (c : ascii) : bool :=
  between "0" "9" c || between "a" "f" c || between "A" "F" c.

Definition unhex (c : ascii) : nat :=
  if between "0" "9" c then byte_val c - byte_val "0"
  else if between "a" "f" c then byte_val c - byte_val "a" + 10
  else if between "A" "F" c then byte_val c - byte_val "A" + 10
  else 0.

(** The first pass of [unescape]: every [%] starts a well-formed escape
    that the mode allows, and a host holds no byte that would need one. *)
Fixpoint unescape_check (mode : encoding) (s : string) : option error :=
  match s with
  | EmptyString => None
  | String "%" rest =>
      match rest with
      | String h1 (String h2 rest') =>
          if negb (ishex h1 && ishex h2) then Some (EscapeError (strings.take 3 s))
          else
            let esc := strings.take 3 s in
            let v := byte_of (unhex h1 * 16 + unhex h2) in
            match mode with
            | encodeHost =>
                if (unhex h1 <? 8)%nat && negb (String.eqb esc "%25")
                then Some (EscapeError esc)
                else unescape_check mode rest'
            | encodeZone =>
                if negb (String.eqb esc "%25") && negb (byte_eqb v " ")
                   && shouldEscape v encodeHost
                then Some (EscapeError esc)
                else unescape_check mode rest'
            | _ => unescape_check mode rest'
            end
      | _ => Some (EscapeError (strings.take 3 s))
      end
  | String c rest =>
      if is_host_mode mode && (byte_val c <? 128)%nat && shouldEscape c encodeHost
      then Some (InvalidHostError (String c EmptyString))
      else unescape_check mode rest
  end.

(** The second pass of [unescape]: [%XX] becomes the byte, and [+] a space
    in a query component. *)
Fixpoint unescape_bytes (mode : encoding) (s : string) : string :=
  match s with
  | EmptyString => EmptyString
  | String "%" (String h1 (String h2 rest)) =>
      String (byte_of (unhex h1 * 16 + unhex h2)) (unescape_bytes mode rest)
  | String "+" rest =>
      String (match mode with encodeQueryComponent => " " | _ => "+" end)%char
             (unescape_bytes mode rest)
  | String c rest => String c (unescape_bytes mode rest)
  end.

(** [unescape(s, mode)] *)
Definition unescape (s : string) (mode : encoding) : result string :=
  match unescape_check mode s with
  | Some e => Err e
  | None => Ok (unescape_bytes mode s)
  end.


(** [stringContainsCTLByte(s)] *)
Fixpoint stringContainsCTLByte (s : string) : bool :=
  match s with
  | EmptyString => false
  | String c s' =>
      (byte_val c <? byte_val " ")%nat || byte_eqb c "127"
      || stringContainsCTLByte s'
  end.

(** The loop of [getScheme] from offset [i]: [s] is [rawURL[i:]].  The
    three outcomes are a scheme and the rest after its colon, no scheme
    ([None]), or the error of a leading colon. *)
Fixpoint getScheme_from (i : nat) (s : string) : result (option nat) :=
  match s with
  | EmptyString => Ok None
  | String c s' =>
      if between "a" "z" c || between "A" "Z" c then getScheme_from (S i) s'
      else if between "0" "9" c || one_of "+-." c then
        match i with O => Ok None | _ => getScheme_from (S i) s' end
      else if byte_eqb c ":" then
        match i with
        | O => Err (errorString "missing protocol scheme")
        | _ => Ok (Some i)
        end
      else Ok None
  end.

(** [getScheme(rawURL)]: [(scheme, path, err)] *)
Definition getScheme (rawURL : string) : result (string * string) :=
  i ← getScheme_from 0 rawURL;
  match i with
  | Some i => Ok (strings.take i rawURL, strings.drop (S i) rawURL)
  | None => Ok (EmptyString, rawURL)
  end.

(** [validOptionalPort(port)]: empty, or a colon and decimal digits. *)
Definition validOptionalPort (port : string) : bool :=
  match port with
  | EmptyString => true
  | String c digits =>
      byte_eqb c ":" && textproto.all_bytes (between "0" "9") digits
  end.

(** [fmt.Errorf("invalid port %q after host", colonPort)]; the quoting of
    [%q] is not modelled, the port is kept as it is. *)
Definition invalid_port (colonPort : string) : error :=
  errorString ("invalid port " ++ colonPort ++ " after host").

(** [parseHost(host)] *)
Definition parseHost (host : string) : result string :=
  if strings.HasPrefix host "[" then
    match strings.LastIndex host "]" with
    | None => Err (errorString "missing ']' in host")
    | Some i =>
        let colonPort := strings.drop (S i) host in
        if negb (validOptionalPort colonPort) then Err (invalid_port colonPort)
        else
          match strings.Index (strings.take i host) "%25" with
          | Some zone =>
              host1 ← unescape (strings.take zone host) encodeHost;
              host2 ← unescape (strings.drop zone (strings.take i host)) encodeZone;
              host3 ← unescape (strings.drop i host) encodeHost;
              Ok (host1 ++ host2 ++ host3)
          | None => unescape host encodeHost
          end
    end
  else
    match strings.LastIndex host ":" with
    | Some i =>
        let colonPort := strings.drop i host in
        if negb (validOptionalPort colonPort) then Err (invalid_port colonPort)
        else unescape host encodeHost
    | None => unescape host encodeHost
    end.

(** [validUserinfo(s)]: the loop ranges over runes, and every rune outside
    ASCII is refused, so it is a test on each byte. *)
Definition validUserinfo (s : string) : bool :=
  textproto.all_bytes
    (fun r => between "A" "Z" r || between "a" "z" r || between "0" "9" r
              || one_of "-._:~!$&'()*+,;=%@" r) s.

(** [parseAuthority(authority)]: [(user, host, err)] *)
Definition parseAuthority (authority : string)
  : result (option Userinfo * string) :=
  let i := strings.LastIndex authority "@" in
  host ← parseHost (match i with
                    | None => authority
                    | Some i => strings.drop (S i) authority
                    end);
  match i with
  | None => Ok (None, host)
  | Some i =>
      let userinfo := strings.take i authority in
      if negb (validUserinfo userinfo)
      then Err (errorString "net/url: invalid userinfo")
      else if negb (strings.Contains userinfo ":") then
        userinfo ← unescape userinfo encodeUserPassword;
        Ok (Some {| username := userinfo; password := None |}, host)
      else
        let '(username, password, _) := strings.Cut userinfo ":" in
        username ← unescape username encodeUserPassword;
        password ← unescape password encodeUserPassword;
        Ok (Some {| username := username; password := Some password |}, host)
  end.

(** [parse(rawURL, false)], the only way [Parse] calls it.  [Scheme] is
    made of ASCII letters, digits and [+-.], so [strings.ToLower] is the
    byte-wise [strings.lower]. *)
Definition parse (rawURL : string) : result URL :=
  if stringContainsCTLByte rawURL
  then Err (errorString "net/url: invalid control character in URL")
  else if String.eqb rawURL "*"
  then Ok {| Scheme := ""; Opaque := ""; User := None; Host := ""; Path := "*";
             OmitHost := false; ForceQuery := false; RawQuery := "";
             Fragment := "" |}
  else
    '(scheme, rest) ← getScheme rawURL;
    let scheme := strings.map_bytes strings.lower scheme in
    let '(rest, forceQuery, rawQuery) :=
      if strings.HasSuffix rest "?" && (strings.CountByte rest "?" =? 1)%nat
      then (strings.take (strings.len rest - 1) rest, true, EmptyString)
      else let '(before, after, _) := strings.Cut rest "?" in
           (before, false, after) in
    if negb (strings.HasPrefix rest "/") && negb (String.eqb scheme "")
    then Ok {| Scheme := scheme; Opaque := rest; User := None; Host := "";
               Path := ""; OmitHost := false; ForceQuery := forceQuery;
               RawQuery := rawQuery; Fragment := "" |}
    else if negb (strings.HasPrefix rest "/")
            && strings.Contains (strings.Cut rest "/").1.1 ":"
    then Err (errorString "first path segment in URL cannot contain colon")
    else
      '(user, host, omitHost, rest) ←
        (if (negb (String.eqb scheme "") || negb (strings.HasPrefix rest "///"))
            && strings.HasPrefix rest "//"
         then
           let authority := strings.drop 2 rest in
           let '(authority, rest) :=
             match strings.Index authority "/" with
             | Some i => (strings.take i authority, strings.drop i authority)
             | None => (authority, EmptyString)
             end in
           '(user, host) ← parseAuthority authority;
           Ok (user, host, false, rest)
         else if negb (String.eqb scheme "") && strings.HasPrefix rest "/"
         then Ok (None, EmptyString, true, rest)
         else Ok (None, EmptyString, false, rest));
      path ← unescape rest encodePath;
      Ok {| Scheme := scheme; Opaque := ""; User := user; Host := host;
            Path := path; OmitHost := omitHost; ForceQuery := forceQuery;
            RawQuery := rawQuery; Fragment := "" |}.

(** [u.setFragment(f)] *)
Definition setFragment (u : URL) (f : string) : result URL :=
  frag ← unescape f encodeFragment;
  Ok {| Scheme := Scheme u; Opaque := Opaque u; User := User u; Host := Host u;
        Path := Path u; OmitHost := OmitHost u; ForceQuery := ForceQuery u;
        RawQuery := RawQuery u; Fragment := frag |}.

(** [url.Parse(rawURL)]: the fragment is cut off first; an error is
    wrapped in a [*url.Error] with the operation and the text parsed. *)
Definition Parse (rawURL : string) : result URL :=
  let '(u, frag, _) := strings.Cut rawURL "#" in
  match parse u with
  | Err err => Err (url_Error "parse" u err)
  | Ok url =>
      if String.eqb frag "" then Ok url
      else match setFragment url frag with
           | Err err => Err (url_Error "parse" rawURL err)
           | Ok url => Ok url
           end
  end.

End url.

(** ** Packages [unicode/utf8] and [unicode/utf16] *)

Module utf8.

Local Open Scope N_scope.

(** A rune is a code point. *)
Definition rune := N.

Definition RuneError : rune := 65533.     (* U+FFFD *)
Definition MaxRune : rune := 1114111.     (* U+10FFFF *)

Definition code (c : ascii) : N := N_of_ascii c.
Definition byte (n : N) : ascii := ascii_of_N n.

Definition in_range (lo hi : N) (c : ascii) : bool :=
  (lo <=? code c) && (code c <=? hi).

(** The low six bits of a continuation byte. *)
Definition low6 (c : ascii) : N := N.land (code c) 63.

(** [DecodeRune(p)]: the first rune of [p] and its width in bytes;
    [(RuneError, 0)] for empty input and [(RuneError, 1)] for a byte that
    starts no well-formed encoding. *)
Definition DecodeRune (p : string) : rune * nat :=
  match p with
  | EmptyString => (RuneError, 0%nat)
  | String b0 rest =>
      let x := code b0 in
      if x <? 128 then (x, 1%nat)
      else if in_range 194 223 b0 then
        match rest with
        | String b1 _ =>
            if in_range 128 191 b1
            then (N.lor (N.shiftl (N.land x 31) 6) (low6 b1), 2%nat)
            else (RuneError, 1%nat)
        | _ => (RuneError, 1%nat)
        end
      else if in_range 224 239 b0 then
        let lo := if x =? 224 then 160 else 128 in
        let hi := if x =? 237 then 159 else 191 in
        match rest with
        | String b1 (String b2 _) =>
            if in_range lo hi b1 && in_range 128 191 b2
            then (N.lor (N.shiftl (N.land x 15) 12)
                    (N.lor (N.shiftl (low6 b1) 6) (low6 b2)), 3%nat)
            else (RuneError, 1%nat)
        | _ => (RuneError, 1%nat)
        end
      else if in_range 240 244 b0 then
        let lo := if x =? 240 then 144 else 128 in
        let hi := if x =? 244 then 143 else 191 in
        match rest with
        | String b1 (String b2 (String b3 _)) =>
            if in_range lo hi b1 && in_range 128 191 b2 && in_range 128 191 b3
            then (N.lor (N.shiftl (N.land x 7) 18)
                    (N.lor (N.shiftl (low6 b1) 12)
                       (N.lor (N.shiftl (low6 b2) 6) (low6 b3))), 4%nat)
            else (RuneError, 1%nat)
        | _ => (RuneError, 1%nat)
        end
      else (RuneError, 1%nat)
  end.

Definition cont (n : N) : ascii := byte (N.lor 128 (N.land n 63)).

Definition encode3 (r : rune) : string :=
  String (byte (N.lor 224 (N.shiftr r 12)))
    (String (cont (N.shiftr r 6)) (String (cont r) EmptyString)).

(** [EncodeRune(p, r)]: the bytes written; a surrogate or a value above
    [MaxRune] is written as [RuneError]. *)
Definition EncodeRune (r : rune) : string :=
  if r <=? 127 then String (byte r) EmptyString
  else if r <=? 2047 then
    String (byte (N.lor 192 (N.shiftr r 6))) (String (cont r) EmptyString)
  else if (MaxRune <? r) || ((55296 <=? r) && (r <=? 57343)) then
    encode3 RuneError
  else if r <=? 65535 then encode3 r
  else
    String (byte (N.lor 240 (N.shiftr r 18)))
      (String (cont (N.shiftr r 12))
         (String (cont (N.shiftr r 6)) (String (cont r) EmptyString))).

End utf8.

Module utf16.

Local Open Scope N_scope.

(** [IsSurrogate(r)] *)
Definition IsSurrogate (r : utf8.rune) : bool :=
  (55296 <=? r) && (r <? 57344).

(** [DecodeRune(r1, r2)]: the code point of a surrogate pair, U+FFFD when
    the pair is not valid. *)
Definition DecodeRune (r1 r2 : utf8.rune) : utf8.rune :=
  if (55296 <=? r1) && (r1 <? 56320) && (56320 <=? r2) && (r2 <? 57344)
  then N.lor (N.shiftl (r1 - 55296) 10) (r2 - 56320) + 65536
  else utf8.RuneError.

End utf16.

(** ** Package [encoding/json]: the scanner

    [scanner.go] is a state machine fed one byte at a time.  The field
    [step] of a scanner is one of the [state...] functions, named here by a
    constructor; [stepfn] dispatches on it. *)

Module json.

(** The values of [scanner.step]. *)
Inductive state :=
| stateBeginValueOrEmpty | stateBeginValue
| stateBeginStringOrEmpty | stateBeginString
| stateEndValue | stateEndTop
| stateInString | stateInStringEsc
| stateInStringEscU | stateInStringEscU1 | stateInStringEscU12
| stateInStringEscU123
| stateNeg | state1 | state0 | stateDot | stateDot0
| stateE | stateESign | stateE0
| stateT | stateTr | stateTru
| stateF | stateFa | stateFal | stateFals
| stateN | stateNu | stateNul
| stateError.

(** What the scanner is in the middle of, innermost first. *)
Inductive parseState := parseObjectKey | parseObjectValue | parseArrayValue.

(** The opcodes a step returns. *)
Inductive opcode :=
| scanContinue | scanBeginLiteral | scanBeginObject | scanObjectKey
| scanObjectValue | scanEndObject | scanBeginArray | scanArrayValue
| scanEndArray | scanSkipSpace | scanEnd | scanError.

(** [scanner]; the head of [parseStack] is the last element of Go's
    [parseState] slice. *)
Record scanner := {
  step : state;
  endTop : bool;
  parseStack : list parseState;
  err : option error;
  bytes : nat
}.

Definition maxNestingDepth : N := 10000.

(** [s.reset()] *)
Definition reset : scanner :=
  {| step := stateBeginValue; endTop := false; parseStack := [];
     err := None; bytes := 0 |}.

Definition set_step (s : scanner) (st : state) : scanner :=
  {| step := st; endTop := endTop s; parseStack := parseStack s;
     err := err s; bytes := bytes s |}.

Definition set_stack (s : scanner) (ps : list parseState) : scanner :=
  {| step := step s; endTop := endTop s; parseStack := ps;
     err := err s; bytes := bytes s |}.

(** [s.error(c, context)] *)
Definition error_at (s : scanner) (c : ascii) (context : string)
  : scanner * opcode :=
  ({| step := stateError; endTop := endTop s; parseStack := parseStack s;
      err := Some (SyntaxError (InvalidCharacter c context) (bytes s));
      bytes := bytes s |}, scanError).

(** [s.pushParseState(c, newParseState, successState)] *)
Definition pushParseState (s : scanner) (c : ascii) (newParseState : parseState)
    (successState : opcode) : scanner * opcode :=
  let s := set_stack s (newParseState :: parseStack s) in
  if (N.of_nat (length (parseStack s)) <=? maxNestingDepth)%N
  then (s, successState)
  else error_at s c "exceeded max depth".

(** [s.popParseState()] *)
Definition popParseState (s : scanner) : scanner :=
  match tail (parseStack s) with
  | [] => {| step := stateEndTop; endTop := true; parseStack := [];
             err := err s; bytes := bytes s |}
  | ps => {| step := stateEndValue; endTop := endTop s; parseStack := ps;
             err := err s; bytes := bytes s |}
  end.

Definition isSpace (c : ascii) : bool :=
  byte_eqb c " " || byte_eqb c "009" || byte_eqb c "013" || byte_eqb c "010".

Definition isDigit (c : ascii) : bool := between "0" "9" c.

Definition isHex (c : ascii) : bool :=
  between "0" "9" c || between "a" "f" c || between "A" "F" c.

(** [stateEndTop(s, c)]: a byte that is not a space is recorded as an
    error, and [scanEnd] is returned all the same. *)
Definition do_stateEndTop (s : scanner) (c : ascii) : scanner * opcode :=
  if negb (isSpace c)
  then ((error_at s c "after top-level value").1, scanEnd)
  else (s, scanEnd).

(** [stateEndValue(s, c)] *)
Definition do_stateEndValue (s : scanner) (c : ascii) : scanner * opcode :=
  match parseStack s with
  | [] =>
      do_stateEndTop
        {| step := stateEndTop; endTop := true; parseStack := [];
           err := err s; bytes := bytes s |} c
  | ps :: below =>
      if isSpace c then (set_step s stateEndValue, scanSkipSpace)
      else
        match ps with
        | parseObjectKey =>
            if byte_eqb c ":"
            then (set_step (set_stack s (parseObjectValue :: below))
                    stateBeginValue, scanObjectKey)
            else error_at s c "after object key"
        | parseObjectValue =>
            if byte_eqb c ","
            then (set_step (set_stack s (parseObjectKey :: below))
                    stateBeginString, scanObjectValue)
            else if byte_eqb c "}" then (popParseState s, scanEndObject)
            else error_at s c "after object key:value pair"
        | parseArrayValue =>
            if byte_eqb c ","
            then (set_step s stateBeginValue, scanArrayValue)
            else if byte_eqb c "]" then (popParseState s, scanEndArray)
            else error_at s c "after array element"
        end
  end.

(** [stateBeginValue(s, c)] *)
Definition do_stateBeginValue (s : scanner) (c : ascii) : scanner * opcode :=
  if isSpace c then (s, scanSkipSpace)
  else if byte_eqb c "{"
  then pushParseState (set_step s stateBeginStringOrEmpty) c
         parseObjectKey scanBeginObject
  else if byte_eqb c "["
  then pushParseState (set_step s stateBeginValueOrEmpty) c
         parseArrayValue scanBeginArray
  else if byte_eqb c dquote then (set_step s stateInString, scanBeginLiteral)
  else if byte_eqb c "-" then (set_step s stateNeg, scanBeginLiteral)
  else if byte_eqb c "0" then (set_step s state0, scanBeginLiteral)
  else if byte_eqb c "t" then (set_step s stateT, scanBeginLiteral)
  else if byte_eqb c "f" then (set_step s stateF, scanBeginLiteral)
  else if byte_eqb c "n" then (set_step s stateN, scanBeginLiteral)
  else if between "1" "9" c then (set_step s state1, scanBeginLiteral)
  else error_at s c "looking for beginning of value".

(** [stateBeginString(s, c)] *)
Definition do_stateBeginString (s : scanner) (c : ascii) : scanner * opcode :=
  if isSpace c then (s, scanSkipSpace)
  else if byte_eqb c dquote then (set_step s stateInString, scanBeginLiteral)
  else error_at s c "looking for beginning of object key string".

(** [state0(s, c)]: after a leading [0], or after the digits of [state1]. *)
Definition do_state0 (s : scanner) (c : ascii) : scanner * opcode :=
  if byte_eqb c "." then (set_step s stateDot, scanContinue)
  else if one_of "eE" c then (set_step s stateE, scanContinue)
  else do_stateEndValue s c.

(** [stateESign(s, c)] *)
Definition do_stateESign (s : scanner) (c : ascii) : scanner * opcode :=
  if isDigit c then (set_step s stateE0, scanContinue)
  else error_at s c "in exponent of numeric literal".

(** One letter of [true], [false] or [null]: [want] leads to [next]. *)
Definition expect (s : scanner) (c want : ascii) (next : state)
    (context : string) : scanner * opcode :=
  if byte_eqb c want then (set_step s next, scanContinue)
  else error_at s c context.

(** One digit of a [\u] escape. *)
Definition expect_hex (s : scanner) (c : ascii) (next : state)
  : scanner * opcode :=
  if isHex c then (set_step s next, scanContinue)
  else error_at s c "in \u hexadecimal character escape".

(** [s.step(s, c)] *)
Definition stepfn (s : scanner) (c : ascii) : scanner * opcode :=
  match step s with
  | stateBeginValueOrEmpty =>
      if isSpace c then (s, scanSkipSpace)
      else if byte_eqb c "]" then do_stateEndValue s c
      else do_stateBeginValue s c
  | stateBeginValue => do_stateBeginValue s c
  | stateBeginStringOrEmpty =>
      if isSpace c then (s, scanSkipSpace)
      else if byte_eqb c "}"
      then do_stateEndValue
             (set_stack s (parseObjectValue :: tail (parseStack s))) c
      else do_stateBeginString s c
  | stateBeginString => do_stateBeginString s c
  | stateEndValue => do_stateEndValue s c
  | stateEndTop => do_stateEndTop s c
  | stateInString =>
      if byte_eqb c dquote then (set_step s stateEndValue, scanContinue)
      else if byte_eqb c "\" then (set_step s stateInStringEsc, scanContinue)
      else if (byte_val c <? 32)%nat then error_at s c "in string literal"
      else (s, scanContinue)
  | stateInStringEsc =>
      if one_of "bfnrt\/" c || byte_eqb c dquote
      then (set_step s stateInString, scanContinue)
      else if byte_eqb c "u" then (set_step s stateInStringEscU, scanContinue)
      else error_at s c "in string escape code"
  | stateInStringEscU => expect_hex s c stateInStringEscU1
  | stateInStringEscU1 => expect_hex s c stateInStringEscU12
  | stateInStringEscU12 => expect_hex s c stateInStringEscU123
  | stateInStringEscU123 => expect_hex s c stateInString
  | stateNeg =>
      if byte_eqb c "0" then (set_step s state0, scanContinue)
      else if between "1" "9" c then (set_step s state1, scanContinue)
      else error_at s c "in numeric literal"
  | state1 =>
      if isDigit c then (set_step s state1, scanContinue) else do_state0 s c
  | state0 => do_state0 s c
  | stateDot =>
      if isDigit c then (set_step s stateDot0, scanContinue)
      else error_at s c "after decimal point in numeric literal"
  | stateDot0 =>
      if isDigit c then (s, scanContinue)
      else if one_of "eE" c then (set_step s stateE, scanContinue)
      else do_stateEndValue s c
  | stateE =>
      if one_of "+-" c then (set_step s stateESign, scanContinue)
      else do_stateESign s c
  | stateESign => do_stateESign s c
  | stateE0 =>
      if isDigit c then (s, scanContinue) else do_stateEndValue s c
  | stateT => expect s c "r" stateTr "in literal true (expecting 'r')"
  | stateTr => expect s c "u" stateTru "in literal true (expecting 'u')"
  | stateTru => expect s c "e" stateEndValue "in literal true (expecting 'e')"
  | stateF => expect s c "a" stateFa "in literal false (expecting 'a')"
  | stateFa => expect s c "l" stateFal "in literal false (expecting 'l')"
  | stateFal => expect s c "s" stateFals "in literal false (expecting 's')"
  | stateFals => expect s c "e" stateEndValue "in literal false (expecting 'e')"
  | stateN => expect s c "u" stateNu "in literal null (expecting 'u')"
  | stateNu => expect s c "l" stateNul "in literal null (expecting 'l')"
  | stateNul => expect s c "l" stateEndValue "in literal null (expecting 'l')"
  | stateError => (s, scanError)
  end.

Definition count (s : scanner) : scanner :=
  {| step := step s; endTop := endTop s; parseStack := parseStack s;
     err := err s; bytes := S (bytes s) |}.

(** [s.eof()]: the input has ended; [None] for [scanEnd], the error for
    [scanError]. *)
Definition eof (s : scanner) : option error :=
  match err s with
  | Some e => Some e
  | None =>
      if endTop s then None
      else
        let s' := (stepfn s " ").1 in
        if endTop s' then None
        else match err s' with
             | Some e => Some e
             | None => Some (SyntaxError UnexpectedEnd (bytes s'))
             end
  end.

(** The loop of [checkValid] over the bytes still to read. *)
Fixpoint checkValid_from (s : scanner) (data : string) : option error :=
  match data with
  | EmptyString => eof s
  | String c data' =>
      let '(s', op) := stepfn (count s) c in
      match op with
      | scanError => err s'
      | _ => checkValid_from s' data'
      end
  end.

(** [checkValid(data, scan)]: [nil] when [data] is one JSON value. *)
Definition checkValid (data : string) : option error :=
  checkValid_from reset data.

(** *** The decoder

    [decode.go] walks the text again with the scanner and stores what it
    reads through reflection.  Here the walk builds the value it reads, and
    the store is written once for a struct whose fields are strings.  Where
    Go panics with [phasePanicMsg] (the decoder meets what the scanner did
    not announce) the result is [None]. *)

#[local] Set Warnings "-register-all".

(** A JSON value as read; an object keeps its members in the order of the
    text, duplicates included. *)
Inductive value :=
| Null
| Bool (b : bool)
| Number (item : string)
| Str (s : string)
| Array (elems : list value)
| Object (members : list (string * value)).

(** The four digits of a [\u] escape as a number. *)
Definition hex4 (h1 h2 h3 h4 : ascii) : N :=
  (N.of_nat (url.unhex h1) * 4096 + N.of_nat (url.unhex h2) * 256
   + N.of_nat (url.unhex h3) * 16 + N.of_nat (url.unhex h4))%N.

(** [getu4(s)]: the rune of a leading [\uXXXX], [None] for Go's -1. *)
Definition getu4 (s : string) : option utf8.rune :=
  match s with
  | String b (String u (String h1 (String h2 (String h3 (String h4 _))))) =>
      if byte_eqb b "\" && byte_eqb u "u"
         && isHex h1 && isHex h2 && isHex h3 && isHex h4
      then Some (hex4 h1 h2 h3 h4)
      else None
  | _ => None
  end.

(** One turn of the second loop of [unquoteBytes] at [s = s[r:]]: the bytes
    written and how far [r] moves; [None] where Go returns [ok = false]. *)
Definition unquote_step (s : string) : option (string * nat) :=
  match s with
  | EmptyString => None
  | String c rest =>
      if byte_eqb c "\" then
        match rest with
        | EmptyString => None
        | String e _ =>
            if byte_eqb e dquote || one_of "\/'" e
            then Some (String e EmptyString, 2)
            else if byte_eqb e "b" then Some (String "008" EmptyString, 2)
            else if byte_eqb e "f" then Some (String "012" EmptyString, 2)
            else if byte_eqb e "n" then Some (String "010" EmptyString, 2)
            else if byte_eqb e "r" then Some (String "013" EmptyString, 2)
            else if byte_eqb e "t" then Some (String "009" EmptyString, 2)
            else if byte_eqb e "u" then
              match getu4 s with
              | None => None
              | Some rr =>
                  if utf16.IsSurrogate rr then
                    let dec :=
                      match getu4 (strings.drop 6 s) with
                      | Some rr1 => utf16.DecodeRune rr rr1
                      | None => utf8.RuneError
                      end in
                    if negb (N.eqb dec utf8.RuneError)
                    then Some (utf8.EncodeRune dec, 12)
                    else Some (utf8.EncodeRune utf8.RuneError, 6)
                  else Some (utf8.EncodeRune rr, 6)
              end
            else None
        end
      else if byte_eqb c dquote || (byte_val c <? 32)%nat then None
      else if (byte_val c <? 128)%nat then Some (String c EmptyString, 1)
      else
        let '(rr, size) := utf8.DecodeRune s in
        Some (utf8.EncodeRune rr, size)
  end.

(** The loop itself; [skip] counts the bytes that the last turn has
    already read. *)
Fixpoint unquote_loop (skip : nat) (s : string) : option string :=
  match s with
  | EmptyString => Some EmptyString
  | String _ rest =>
      match skip with
      | S k => unquote_loop k rest
      | O =>
          '(out, n) ← unquote_step s;
          tl ← unquote_loop (n - 1) rest;
          Some (out ++ tl)
      end
  end.

(** [unquoteBytes(s)]: the text of a quoted string literal. *)
Definition unquoteBytes (s : string) : option string :=
  match s with
  | String q inner =>
      if (2 <=? strings.len s)%nat && byte_eqb q dquote
         && strings.HasSuffix s (String dquote EmptyString)
      then unquote_loop 0 (strings.take (strings.len inner - 1) inner)
      else None
  | EmptyString => None
  end.

(** What [literalStore] makes of a literal, by its first byte. *)
Definition literal (item : string) : option value :=
  match item with
  | EmptyString => None
  | String c _ =>
      if byte_eqb c "n" then Some Null
      else if byte_eqb c "t" then Some (Bool true)
      else if byte_eqb c "f" then Some (Bool false)
      else if byte_eqb c dquote then Str <$> unquoteBytes item
      else if byte_eqb c "-" || isDigit c then Some (Number item)
      else None
  end.

(** A container being read: the elements or members so far, and for an
    object the key whose value is awaited. *)
Inductive frame :=
| ArrayFrame (elems : list value)
| ObjectFrame (members : list (string * value)) (key : option string).

Record reader := {
  lit : option string;      (* the bytes of the literal being read *)
  frames : list frame;      (* the open containers, innermost first *)
  top : option value        (* the top-level value, once read *)
}.

Definition reader0 : reader := {| lit := None; frames := []; top := None |}.

(** A value has been read: it is the top-level value, an element, a key
    or the value of the awaited key. *)
Definition deliver (v : value) (frames : list frame) : option reader :=
  match frames with
  | [] => Some {| lit := None; frames := []; top := Some v |}
  | ArrayFrame elems :: below =>
      Some {| lit := None; frames := ArrayFrame (elems ++ [v]) :: below;
              top := None |}
  | ObjectFrame members None :: below =>
      match v with
      | Str k => Some {| lit := None;
                         frames := ObjectFrame members (Some k) :: below;
                         top := None |}
      | _ => None
      end
  | ObjectFrame members (Some k) :: below =>
      Some {| lit := None;
              frames := ObjectFrame (members ++ [(k, v)]) None :: below;
              top := None |}
  end.

(** A byte that is not part of a literal, by the opcode of its step. *)
Definition structural (rd : reader) (c : ascii) (op : opcode) : option reader :=
  match op with
  | scanBeginLiteral =>
      Some {| lit := Some (String c EmptyString); frames := frames rd;
              top := top rd |}
  | scanBeginObject =>
      Some {| lit := None; frames := ObjectFrame [] None :: frames rd;
              top := top rd |}
  | scanBeginArray =>
      Some {| lit := None; frames := ArrayFrame [] :: frames rd;
              top := top rd |}
  | scanEndObject =>
      match frames rd with
      | ObjectFrame members None :: below => deliver (Object members) below
      | _ => None
      end
  | scanEndArray =>
      match frames rd with
      | ArrayFrame elems :: below => deliver (Array elems) below
      | _ => None
      end
  | scanContinue | scanError => None
  | scanObjectKey | scanObjectValue | scanArrayValue | scanSkipSpace
  | scanEnd => Some rd
  end.

(** The literal being read, if any, has ended. *)
Definition end_literal (rd : reader) : option reader :=
  match lit rd with
  | Some item => v ← literal item; deliver v (frames rd)
  | None => Some rd
  end.

(** One byte and the opcode of its step: [scanContinue] extends the
    literal being read, any other opcode ends it. *)
Definition feed (rd : reader) (c : ascii) (op : opcode) : option reader :=
  match lit rd, op with
  | Some item, scanContinue =>
      Some {| lit := Some (item ++ String c EmptyString); frames := frames rd;
              top := top rd |}
  | _, _ => rd ← end_literal rd; structural rd c op
  end.

Fixpoint read_from (s : scanner) (rd : reader) (data : string) : option value :=
  match data with
  | EmptyString => rd ← end_literal rd; top rd
  | String c data' =>
      let '(s', op) := stepfn (count s) c in
      rd ← feed rd c op;
      read_from s' rd data'
  end.

(** The value that the decoder reads in [data]. *)
Definition read (data : string) : option value := read_from reset reader0 data.

(** [foldName(in)] for the comparison with a field name in ASCII: ASCII
    letters go to upper case; of the other runes only the Kelvin sign
    U+212A and the long s U+017F fold to an ASCII letter. *)
Definition foldRune (r : utf8.rune) : utf8.rune :=
  if N.eqb r 8490 then 75%N else if N.eqb r 383 then 83%N else r.

Fixpoint foldName_loop (skip : nat) (s : string) : string :=
  match s with
  | EmptyString => EmptyString
  | String c rest =>
      match skip with
      | S k => foldName_loop k rest
      | O =>
          if (byte_val c <? 128)%nat
          then String (strings.upper c) (foldName_loop 0 rest)
          else
            let '(r, n) := utf8.DecodeRune s in
            utf8.EncodeRune (foldRune r) ++ foldName_loop (n - 1) rest
      end
  end.

Definition foldName (s : string) : string := foldName_loop 0 s.

Section Struct.

(** What reflection finds in a struct type [T] whose fields are strings:
    for each field its JSON name (the [json:] tag) and how to set it. *)
Context {T : Type}.
Variable fields : list (string * (string -> T -> T)).

(** The field for a key: the exact name first, then the folded name. *)
Definition find_field (key : string) : option (string * (string -> T -> T)) :=
  match find (fun f => String.eqb f.1 key) fields with
  | Some f => Some f
  | None =>
      find (fun f => String.eqb (foldName f.1) (foldName key)) fields
  end.

(** The name Go gives a value in an [UnmarshalTypeError]; [null] raises
    none. *)
Definition kind_name (v : value) : string :=
  match v with
  | Null => "null"
  | Bool _ => "bool"
  | Number _ => "number"
  | Str _ => "string"
  | Array _ => "array"
  | Object _ => "object"
  end.

(** [d.saveError(err)]: the first error is kept. *)
Definition saveError (saved : option error) (e : error) : option error :=
  match saved with
  | Some _ => saved
  | None => Some e
  end.

(** One member of the object, in [d.object]: a key without a field is
    skipped; a string is stored; [null] leaves the field as it is; any
    other value is a type error and the field is left as it is. *)
Definition store_member (st : T * option error) (m : string * value)
  : T * option error :=
  let '(dst, saved) := st in
  match find_field m.1 with
  | None => st
  | Some (name, set) =>
      match m.2 with
      | Str s => (set s dst, saved)
      | Null => st
      | v => (dst, saveError saved (UnmarshalTypeError (kind_name v) name))
      end
  end.

(** [d.value(rv)] for a pointer to the struct. *)
Definition store (v : value) (dst : T) : T * option error :=
  match v with
  | Object members => fold_left store_member members (dst, None)
  | Null => (dst, None)
  | v => (dst, Some (UnmarshalTypeError (kind_name v) EmptyString))
  end.

(** [json.Unmarshal(data, &dst)]: a syntax error is returned before
    anything is stored; [None] is a panic of the decoder. *)
Definition Unmarshal (data : string) (dst : T) : option (T * option error) :=
  match checkValid data with
  | Some e => Some (dst, Some e)
  | None => v ← read data; Some (store v dst)
  end.

End Struct.

End json.

(** ** Package [io/ioutil] and request bodies *)

Module ioutil.

(** An [io.ReadCloser] as its consumer sees it: the bytes it still
    delivers, and what follows them, end of input ([None]) or the error of
    a failing [Read]. *)
Record ReadCloser := {
  unread : string;
  failure : option error
}.

(** [ioutil.ReadAll(r)]: [(data, err)] and the reader afterwards, read to
    its end. *)
Definition ReadAll (r : ReadCloser) : string * option error * ReadCloser :=
  (unread r, failure r, {| unread := EmptyString; failure := failure r |}).

(** [ioutil.NopCloser(bytes.NewBuffer(body))]: a fresh reader over [body]. *)
Definition NopCloser_NewBuffer (body : string) : ReadCloser :=
  {| unread := body; failure := None |}.

End ioutil.

(** ** Package [net/http] *)

Module http.

(** [http.Header], a [map[string][]string]. *)
Abbreviation Header := (gmap string (list string)).

(** [h.Get(key)]: the first value of the canonical key, or the empty
    string. *)
Definition Get (h : Header) (key : string) : string :=
  match h !! textproto.CanonicalMIMEHeaderKey key with
  | Some (v :: _) => v
  | _ => EmptyString
  end.

(** [h.Set(key, value)] *)
Definition Set_ (h : Header) (key value : string) : Header :=
  <[textproto.CanonicalMIMEHeaderKey key := [value]]> h.

(** The fields of [http.Request] that the package reads or writes. *)
Record Request := {
  URL : url.URL;
  Header_ : Header;
  Host : string;
  Body : ioutil.ReadCloser
}.

End http.

(** ** Package [okproxy] ([main.go]) *)

Module okproxy.

Import http.

(** [OKProxy] holds a [ProxyReverser]; [T] is the type behind the
    interface value. *)
Record OKProxy (T : Type) := {
  proxy : T
}.
Arguments proxy {T} _.

(** [reverseProxy] stores the proxy URL; [json:"proxyURL"] names its
    field in a JSON body. *)
Record reverseProxy := {
  URL : string
}.

(** A call that leaves the package.  The error handler and the reverse
    proxy of [net/http/httputil] belong to the caller and to the standard
    library: a call is recorded with the request as it is handed over, and
    what the callee then does with the request is not part of the package.
    [Forward] marks the entry of [serveReverseProxy] of a [*reverseProxy],
    as the mock of the tests marks the entry of its own. *)
Inductive call :=
| ServerErrorHandler (r : Request) (err : error)
    (* errorHandler.ServerErrorHandler(w, r, err) *)
| Forward (r : Request)
    (* rp.serveReverseProxy(w, r, errorHandler) is entered *)
| ServeHTTP (target : url.URL) (r : Request).
    (* httputil.NewSingleHostReverseProxy(target).ServeHTTP(w, r) *)

(** What a handler works on: the proxy it was made from, the request it
    is given, and the calls made so far, oldest first. *)
Record world (T : Type) := {
  p : OKProxy T;
  r : Request;
  calls : list call
}.
Arguments p {T} _.
Arguments r {T} _.
Arguments calls {T} _.

(** A computation on the world; [None] is a panic. *)
Definition M (T A : Type) : Type := world T -> option (A * world T).

#[global] Instance M_ret {T} : MRet (M T) := fun _ a w => Some (a, w).
#[global] Instance M_bind {T} : MBind (M T) := fun _ _ f m w =>
  match m w with
  | Some (a, w') => f a w'
  | None => None
  end.

Definition get_request {T} : M T Request := fun w => Some (r w, w).

Definition set_request {T} (r' : Request) : M T unit := fun w =>
  Some (tt, {| p := p w; r := r'; calls := calls w |}).

Definition get_proxy {T} : M T T := fun w => Some (proxy (p w), w).

Definition set_proxy {T} (rp : T) : M T unit := fun w =>
  Some (tt, {| p := {| proxy := rp |}; r := r w; calls := calls w |}).

(** A call is made with the request as it is now. *)
Definition call_with {T} (c : Request -> call) : M T unit := fun w =>
  Some (tt, {| p := p w; r := r w; calls := calls w ++ [c (r w)] |}).

Definition panic {T A} : M T A := fun _ => None.

(** The interface [ProxyReverser]; the response writer and the error
    handler that Go passes along are the calls of the world. *)
Class ProxyReverser (T : Type) := {
  SetProxyURL : string -> M T unit;
  GetProxyURL : M T string;
  serveReverseProxy : M T unit;
  decodeURLFromBody : M T (option error)
}.

(** [New(URL)] *)
Definition New (URL : string) : OKProxy reverseProxy :=
  {| proxy := {| URL := URL |} |}.

(** [r.URL.Path = ...] *)
Definition set_URL_Path (path : string) (r : Request) : Request :=
  let u := http.URL r in
  {| http.URL :=
       {| url.Scheme := url.Scheme u; url.Opaque := url.Opaque u;
          url.User := url.User u; url.Host := url.Host u;
          url.Path := path; url.OmitHost := url.OmitHost u;
          url.ForceQuery := url.ForceQuery u;
          url.RawQuery := url.RawQuery u;
          url.Fragment := url.Fragment u |};
     Header_ := Header_ r; Host := Host r; Body := Body r |}.

(** The handler that [p.PathRequestProxyHandler(path, errorHandler)]
    returns, serving the request of the world. *)
Definition PathRequestProxyHandler {T} `{!ProxyReverser T} (path : string)
  : M T unit :=
  target ← GetProxyURL;
  if String.eqb target ""
  then call_with (fun r => ServerErrorHandler r
         (errorString "ProxyURL needs to be set for PathRequestProxyHandler"))
  else
    r ← get_request;
    set_request (set_URL_Path (strings.TrimPrefix (url.Path (http.URL r)) path) r);;
    serveReverseProxy.

(** The handler that [p.PayloadRequestProxyHandler(errorHandler)] returns. *)
Definition PayloadRequestProxyHandler {T} `{!ProxyReverser T} : M T unit :=
  err ← decodeURLFromBody;
  match err with
  | Some err => call_with (fun r => ServerErrorHandler r err)
  | None =>
      target ← GetProxyURL;
      if String.eqb target ""
      then call_with (fun r => ServerErrorHandler r
             (errorString "ProxyURL needs to be set in request body at proxyURL field"))
      else serveReverseProxy
  end.

(** The fields of [reverseProxy] as [encoding/json] finds them. *)
Definition reverseProxy_fields : list (string * (string -> reverseProxy -> reverseProxy)) :=
  [("proxyURL", fun s _ => {| URL := s |})].

(** [r.URL.Host = url.Host] *)
Definition set_URL_Host (host : string) (r : Request) : Request :=
  let u := http.URL r in
  {| http.URL :=
       {| url.Scheme := url.Scheme u; url.Opaque := url.Opaque u;
          url.User := url.User u; url.Host := host;
          url.Path := url.Path u; url.OmitHost := url.OmitHost u;
          url.ForceQuery := url.ForceQuery u;
          url.RawQuery := url.RawQuery u;
          url.Fragment := url.Fragment u |};
     Header_ := Header_ r; Host := Host r; Body := Body r |}.

(** [r.URL.Scheme = url.Scheme] *)
Definition set_URL_Scheme (scheme : string) (r : Request) : Request :=
  let u := http.URL r in
  {| http.URL :=
       {| url.Scheme := scheme; url.Opaque := url.Opaque u;
          url.User := url.User u; url.Host := url.Host u;
          url.Path := url.Path u; url.OmitHost := url.OmitHost u;
          url.ForceQuery := url.ForceQuery u;
          url.RawQuery := url.RawQuery u;
          url.Fragment := url.Fragment u |};
     Header_ := Header_ r; Host := Host r; Body := Body r |}.

(** [r.Header.Set(key, value)] *)
Definition set_Header (key value : string) (r : Request) : Request :=
  {| http.URL := http.URL r; Header_ := Set_ (Header_ r) key value;
     Host := Host r; Body := Body r |}.

(** [r.Host = host] *)
Definition set_Host (host : string) (r : Request) : Request :=
  {| http.URL := http.URL r; Header_ := Header_ r; Host := host;
     Body := Body r |}.

(** [r.Body = body] *)
Definition set_Body (body : ioutil.ReadCloser) (r : Request) : Request :=
  {| http.URL := http.URL r; Header_ := Header_ r; Host := Host r;
     Body := body |}.

(** The four assignments of [serveReverseProxy] to the request, in the
    order of the source. *)
Definition rewrite_request (url : url.URL) (r : Request) : Request :=
  let r := set_URL_Host (url.Host url) r in
  let r := set_URL_Scheme (url.Scheme url) r in
  let r := set_Header "X-Forwarded-Host" (Get (Header_ r) "Host") r in
  set_Host (url.Host url) r.

(** The methods of [*reverseProxy]. *)
Module rp.

(** [rp.SetProxyURL(url)] *)
Definition SetProxyURL (url : string) : M reverseProxy unit :=
  set_proxy {| URL := url |}.

(** [rp.GetProxyURL()] *)
Definition GetProxyURL : M reverseProxy string :=
  rp ← get_proxy; mret (URL rp).

(** [rp.serveReverseProxy(w, r, errorHandler)] *)
Definition serveReverseProxy : M reverseProxy unit :=
  call_with Forward;;
  target ← GetProxyURL;
  match url.Parse target with
  | Err err => call_with (fun r => ServerErrorHandler r err)
  | Ok url =>
      r ← get_request;
      set_request (rewrite_request url r);;
      call_with (ServeHTTP url)
  end.

(** [rp.decodeURLFromBody(r, errorHandler)]: the error it returns, [None]
    for [nil]. *)
Definition decodeURLFromBody : M reverseProxy (option error) :=
  r ← get_request;
  let '(body, err, drained) := ioutil.ReadAll (Body r) in
  set_request (set_Body drained r);;
  match err with
  | Some err => mret (Some err)
  | None =>
      set_request (set_Body (ioutil.NopCloser_NewBuffer body) r);;
      rp ← get_proxy;
      match json.Unmarshal reverseProxy_fields body rp with
      | None => panic
      | Some (rp, err) =>
          set_proxy rp;;
          match err with
          | Some err => mret (Some err)
          | None => mret None
          end
      end
  end.

End rp.

#[global] Instance reverseProxy_ProxyReverser : ProxyReverser reverseProxy := {|
  SetProxyURL := rp.SetProxyURL;
  GetProxyURL := rp.GetProxyURL;
  serveReverseProxy := rp.serveReverseProxy;
  decodeURLFromBody := rp.decodeURLFromBody
|}.

(** The mock of [okproxy_test.go]: it stores a URL and the names of the
    methods called, and neither forwards nor decodes anything. *)
Module mrp.

Record mockReverseProxy := {
  URL : string;
  calls : list string
}.

Definition SetProxyURL (url : string) : M mockReverseProxy unit :=
  mrp ← get_proxy; set_proxy {| URL := url; calls := calls mrp |}.

Definition GetProxyURL : M mockReverseProxy string :=
  mrp ← get_proxy; mret (URL mrp).

Definition serveReverseProxy : M mockReverseProxy unit :=
  mrp ← get_proxy;
  set_proxy {| URL := URL mrp; calls := calls mrp ++ ["serveReverseProxy"] |}.

Definition decodeURLFromBody : M mockReverseProxy (option error) :=
  mrp ← get_proxy;
  set_proxy {| URL := URL mrp; calls := calls mrp ++ ["decodeURLFromBody"] |};;
  mret None.

End mrp.

#[global] Instance mockReverseProxy_ProxyReverser
  : ProxyReverser mrp.mockReverseProxy := {|
  SetProxyURL := mrp.SetProxyURL;
  GetProxyURL := mrp.GetProxyURL;
  serveReverseProxy := mrp.serveReverseProxy;
  decodeURLFromBody := mrp.decodeURLFromBody
|}.

(** The world with another request. *)
Definition with_request {T} (r' : Request) (w : world T) : world T :=
  {| p := p w; r := r'; calls := calls w |}.

(** The target that the resolver stores. *)
Definition target (w : world reverseProxy) : string := URL (proxy (p w)).

(** The calls made since a world whose calls were [before]. *)
Definition since {T} (before : list call) (w : world T) : list call :=
  skipn (length before) (calls w).

Definition is_ServerErrorHandler (c : call) : bool :=
  match c with ServerErrorHandler _ _ => true | _ => false end.

Definition is_Forward (c : call) : bool :=
  match c with Forward _ => true | _ => false end.

Definition is_ServeHTTP (c : call) : bool :=
  match c with ServeHTTP _ _ => true | _ => false end.

(** How many of the calls [l] are of the kind [kind]. *)
Definition count (kind : call -> bool) (l : list call) : nat :=
  length (List.filter kind l).

(** What a consumer gets from a body by reading it to its end. *)
Definition read_all (body : ioutil.ReadCloser) : string * option error :=
  (ioutil.ReadAll body).1.

(** The payload handler, run from [w], ends with an empty stored target
    and with one call, to the error handler, for the target that the body
    did not set. *)
Definition reports_unset_target (w : world reverseProxy) : Prop :=
  exists w' r',
    PayloadRequestProxyHandler w = Some (tt, w')
    /\ target w' = EmptyString
    /\ since (calls w) w' =
         [ServerErrorHandler r'
            (errorString "ProxyURL needs to be set in request body at proxyURL field")].

End okproxy.

(** ** Sample requests

    The requests of [okproxy_test.go], which [httptest.NewRequest] builds:
    the path of the target, the host [example.com], no header, and the body
    given. *)

Module sample.

(** A JSON string literal. *)
Definition quoted (s : string) : string :=
  String dquote (s ++ String dquote EmptyString).

(** [{"proxyURL":"http://h:1"}] *)
Definition body_h1 : string :=
  "{" ++ quoted "proxyURL" ++ ":" ++ quoted "http://h:1" ++ "}".

(** [{"proxyURL":"http://h:1"], the closing brace missing. *)
Definition body_truncated : string :=
  "{" ++ quoted "proxyURL" ++ ":" ++ quoted "http://h:1".

(** The unparsable target of [TestServeReverseProxy]. *)
Definition bad_target : string :=
  "http" ++ String newline "s://6876826^@30".

Definition NewRequest (path body : string) : http.Request :=
  {| http.URL :=
       {| url.Scheme := ""; url.Opaque := ""; url.User := None;
          url.Host := ""; url.Path := path; url.OmitHost := false;
          url.ForceQuery := false; url.RawQuery := ""; url.Fragment := "" |};
     http.Header_ := ∅;
     http.Host := "example.com";
     http.Body := ioutil.NopCloser_NewBuffer body |}.

(** [createRequest(true)] of [TestServeReverseProxy]. *)
Definition with_Host_header (r : http.Request) (host : string) : http.Request :=
  {| http.URL := http.URL r;
     http.Header_ := http.Set_ (http.Header_ r) "Host" host;
     http.Host := http.Host r;
     http.Body := http.Body r |}.

(** A proxy made by [New(URL)] about to serve [r], no call made yet. *)
Definition serving (URL : string) (r : http.Request) : okproxy.world okproxy.reverseProxy :=
  {| okproxy.p := okproxy.New URL; okproxy.r := r; okproxy.calls := [] |}.

(** The same with the mock [&mockReverseProxy{URL, []string{}}]. *)
Definition mocking (URL : string) (r : http.Request)
  : okproxy.world okproxy.mrp.mockReverseProxy :=
  {| okproxy.p :=
       {| okproxy.proxy :=
            {| okproxy.mrp.URL := URL; okproxy.mrp.calls := [] |} |};
     okproxy.r := r; okproxy.calls := [] |}.

(** [mockErrorHandler.called]: the error handler has been called. *)
Definition called {T} (w : okproxy.world T) : bool :=
  existsb okproxy.is_ServerErrorHandler (okproxy.calls w).

(** [stringInSlice(s, sl)] *)
Definition stringInSlice (s : string) (sl : list string) : bool :=
  existsb (String.eqb s) sl.

(** What the tests of the handlers check after a run with the mock: the
    path of the request, whether the error handler was called, and whether
    the mock recorded [serveReverseProxy]. *)
Definition observed (run : option (unit * okproxy.world okproxy.mrp.mockReverseProxy))
  : option (string * bool * bool) :=
  '(_, w) ← run;
  Some (url.Path (http.URL (okproxy.r w)), called w,
        stringInSlice "serveReverseProxy"
          (okproxy.mrp.calls (okproxy.proxy (okproxy.p w)))).

(** [{"proxyURL":"127.0.0.1:8080"}] *)
Definition body_test : string :=
  "{" ++ quoted "proxyURL" ++ ":" ++ quoted "127.0.0.1:8080" ++ "}".

(** [{"proxyURL":"127.0.0.1:8080"], the closing brace missing. *)
Definition body_test_no_brace : string :=
  "{" ++ quoted "proxyURL" ++ ":" ++ quoted "127.0.0.1:8080".

(** The same with the closing brace, but without the quote that closes
    the value. *)
Definition body_test_no_quote : string :=
  "{" ++ quoted "proxyURL" ++ ":" ++ String dquote "127.0.0.1:8080}".

End sample.

(** ** What a JSON object stores in a [reverseProxy]

    [encoding/json] visits the members of an object in the order of the
    text.  The two functions below read off a list of members what that
    visit leaves behind. *)

Module members.

(** The key names the field tagged [json:"proxyURL"]: it is the name up to
    the case of its letters. *)
Definition names_proxyURL (key : string) : bool :=
  String.eqb (json.foldName key) "PROXYURL".

(** The value of the last member that names the field with a string. *)
Fixpoint last_string (ms : list (string * json.value)) : option string :=
  match ms with
  | [] => None
  | (key, v) :: ms' =>
      match last_string ms' with
      | Some s => Some s
      | None =>
          match v with
          | json.Str s => if names_proxyURL key then Some s else None
          | _ => None
          end
      end
  end.

(** The kind of the first member that names the field with a value that is
    neither a string nor [null]. *)
Fixpoint first_mismatch (ms : list (string * json.value)) : option string :=
  match ms with
  | [] => None
  | (key, v) :: ms' =>
      if names_proxyURL key then
        match v with
        | json.Str _ | json.Null => first_mismatch ms'
        | v => Some (json.kind_name v)
        end
      else first_mismatch ms'
  end.

(** The error that such a member makes the decoder return. *)
Definition mismatch_error (ms : list (string * json.value)) : option error :=
  (fun kind => UnmarshalTypeError kind "proxyURL") <$> first_mismatch ms.

End members.

(** ** The earlier [main.go] ([src/unnamed/part_000])

    The earlier source differs from [main.go] in three places: [New] takes no
    URL, [decodeURLFromBody] is a method of [*OKProxy] and unmarshals the
    body into the [OKProxy] itself, and the payload handler forwards without
    a look at the stored URL.  The other functions have the text of
    [main.go]. *)

Module earlier.

Import http okproxy.

(** [New()] *)
Definition New : OKProxy reverseProxy := {| proxy := {| URL := EmptyString |} |}.

(** The fields of [OKProxy] as [encoding/json] finds them: its only field,
    [proxy], is not exported, so there is none. *)
Definition OKProxy_fields
  : list (string * (string -> OKProxy reverseProxy -> OKProxy reverseProxy)) :=
  [].

(** [json.Unmarshal(body, p)], with [p] the [*OKProxy] of the world. *)
Definition Unmarshal_into_OKProxy (body : string) : M reverseProxy (option error) :=
  fun w =>
    match json.Unmarshal OKProxy_fields body (okproxy.p w) with
    | None => None
    | Some (p', err) =>
        Some (err, {| okproxy.p := p'; okproxy.r := okproxy.r w;
                      calls := calls w |})
    end.

(** [p.decodeURLFromBody(r, errorHandler)] *)
Definition decodeURLFromBody : M reverseProxy (option error) :=
  r ← get_request;
  let '(body, err, drained) := ioutil.ReadAll (Body r) in
  set_request (set_Body drained r);;
  match err with
  | Some err => mret (Some err)
  | None =>
      set_request (set_Body (ioutil.NopCloser_NewBuffer body) r);;
      err ← Unmarshal_into_OKProxy body;
      match err with
      | Some err => mret (Some err)
      | None => mret None
      end
  end.

(** The handler that [p.PayloadRequestProxyHandler(errorHandler)] returns. *)
Definition PayloadRequestProxyHandler : M reverseProxy unit :=
  err ← decodeURLFromBody;
  match err with
  | Some err => call_with (fun r => ServerErrorHandler r err)
  | None => rp.serveReverseProxy
  end.

End earlier.

(** ** More sample requests *)

Module sample2.

Import sample.

(** A body whose [Read] fails with [e] after the bytes [data]. *)
Definition failing (data : string) (e : error) : ioutil.ReadCloser :=
  {| ioutil.unread := data; ioutil.failure := Some e |}.

Definition with_Body (r : http.Request) (body : ioutil.ReadCloser) : http.Request :=
  okproxy.set_Body body r.

(** [{"proxyURL":"a","PROXYURL":"http://h:2","proxyURL":7}] *)
Definition body_three : string :=
  "{" ++ quoted "proxyURL" ++ ":" ++ quoted "a" ++ ","
      ++ quoted "PROXYURL" ++ ":" ++ quoted "http://h:2" ++ ","
      ++ quoted "proxyURL" ++ ":7}".

(** [{"proxyURL":null,"other":[1]}] *)
Definition body_null : string :=
  "{" ++ quoted "proxyURL" ++ ":null," ++ quoted "other" ++ ":[1]}".

(** A proxy made by the earlier [New()] about to serve [r]. *)
Definition serving_earlier (r : http.Request) : okproxy.world okproxy.reverseProxy :=
  {| okproxy.p := earlier.New; okproxy.r := r; okproxy.calls := [] |}.

End sample2.

(** ** The scanner and the decoder in step

    The decoder of [encoding/json] panics when it meets what the scanner
    has not announced.  The predicates below say what the reader of the
    decoder holds in each state of the scanner; they are kept by every step
    on a text that [checkValid] accepts. *)

Module sync.

Import json.

(** A byte that stands for itself in a string literal. *)
Definition plain (c : ascii) : bool :=
  negb (byte_eqb c dquote) && negb (byte_eqb c "\")
  && negb (byte_val c <? 32)%nat.

(** A byte that may follow a backslash, [u] apart. *)
Definition escape (e : ascii) : bool :=
  one_of "bfnrt\/" e || byte_eqb e dquote.

(** The text between the quotes of a string literal: plain bytes, escapes
    of two bytes, and [\u] escapes with four hexadecimal digits. *)
Inductive body : string -> Prop :=
| body_nil : body EmptyString
| body_plain c b : plain c = true -> body b -> body (String c b)
| body_escape e b :
    escape e = true -> body b -> body (String "\" (String e b))
| body_u h1 h2 h3 h4 b :
    isHex h1 = true -> isHex h2 = true -> isHex h3 = true -> isHex h4 = true ->
    body b ->
    body (String "\" (String "u" (String h1 (String h2 (String h3 (String h4 b)))))).

(** The first [k] bytes of [s] are not ASCII, as the bytes after the first
    byte of an encoding are. *)
Fixpoint all_high (k : nat) (s : string) : Prop :=
  match k, s with
  | O, _ => True
  | S k', String c s' => (128 <=? byte_val c)%nat = true /\ all_high k' s'
  | S _, EmptyString => False
  end.

(** The part of an escape read so far, by the state of the scanner. *)
Definition unfinished (st : state) (tail : string) : Prop :=
  match st with
  | stateInString => tail = EmptyString
  | stateInStringEsc => tail = "\"
  | stateInStringEscU => tail = "\u"
  | stateInStringEscU1 =>
      exists h1, tail = String "\" (String "u" (String h1 EmptyString))
                 /\ isHex h1 = true
  | stateInStringEscU12 =>
      exists h1 h2,
        tail = String "\" (String "u" (String h1 (String h2 EmptyString)))
        /\ isHex h1 = true /\ isHex h2 = true
  | stateInStringEscU123 =>
      exists h1 h2 h3,
        tail = String "\" (String "u" (String h1 (String h2 (String h3 EmptyString))))
        /\ isHex h1 = true /\ isHex h2 = true /\ isHex h3 = true
  | _ => False
  end.

(** A string literal being read in state [st]. *)
Definition open_string (st : state) (item : string) : Prop :=
  exists b tail, item = String dquote (b ++ tail) /\ body b /\ unfinished st tail.

(** A string literal with its closing quote. *)
Definition closed_string (item : string) : Prop :=
  exists b, item = String dquote (b ++ String dquote EmptyString) /\ body b.

(** A literal that is no string: a number, [true], [false] or [null]. *)
Definition plain_literal (item : string) : Prop :=
  exists c rest, item = String c rest /\ (one_of "ntf-" c || isDigit c) = true.

(** A container that waits for a value. *)
Definition value_ctx (ps : parseState) (f : frame) : Prop :=
  match ps, f with
  | parseObjectValue, ObjectFrame _ (Some _) => True
  | parseArrayValue, ArrayFrame _ => True
  | _, _ => False
  end.

(** The containers around a value that is awaited or being read. *)
Definition nested (stack : list parseState) (fs : list frame) : Prop :=
  Forall2 value_ctx stack fs.

(** The innermost container is an object that waits for a key. *)
Definition in_key (stack : list parseState) (fs : list frame) : Prop :=
  match stack, fs with
  | parseObjectKey :: stack', ObjectFrame _ None :: fs' => nested stack' fs'
  | _, _ => False
  end.

(** The innermost container has just got a key. *)
Definition key_done (stack : list parseState) (fs : list frame) : Prop :=
  match stack, fs with
  | parseObjectKey :: stack', ObjectFrame _ (Some _) :: fs' => nested stack' fs'
  | _, _ => False
  end.

(** The innermost container has just got a value. *)
Definition value_done (stack : list parseState) (fs : list frame) : Prop :=
  match stack, fs with
  | parseObjectValue :: stack', ObjectFrame _ None :: fs' => nested stack' fs'
  | parseArrayValue :: stack', ArrayFrame _ :: fs' => nested stack' fs'
  | _, _ => False
  end.

(** A literal waiting to be delivered, and where it goes. *)
Definition pending (item : string) (stack : list parseState) (fs : list frame)
  : Prop :=
  (plain_literal item /\ nested stack fs)
  \/ (closed_string item /\ (nested stack fs \/ in_key stack fs)).

(** A reader to which a value or a key has just been delivered. *)
Definition delivered (stack : list parseState) (rd : reader) : Prop :=
  lit rd = None
  /\ ((stack = [] /\ frames rd = [] /\ is_Some (top rd))
      \/ value_done stack (frames rd) \/ key_done stack (frames rd)).

Definition is_string_state (st : state) : bool :=
  match st with
  | stateInString | stateInStringEsc | stateInStringEscU | stateInStringEscU1
  | stateInStringEscU12 | stateInStringEscU123 => true
  | _ => false
  end.

(** What the reader holds, by the state of the scanner. *)
Definition holds (st : state) (stack : list parseState) (rd : reader) : Prop :=
  match st with
  | stateBeginValue => lit rd = None /\ nested stack (frames rd)
  | stateBeginValueOrEmpty =>
      lit rd = None /\ nested stack (frames rd)
      /\ head stack = Some parseArrayValue
  | stateBeginStringOrEmpty | stateBeginString =>
      lit rd = None /\ in_key stack (frames rd)
  | stateInString | stateInStringEsc | stateInStringEscU | stateInStringEscU1
  | stateInStringEscU12 | stateInStringEscU123 =>
      exists item, lit rd = Some item /\ open_string st item
                   /\ (nested stack (frames rd) \/ in_key stack (frames rd))
  | stateEndValue =>
      (exists item, lit rd = Some item /\ pending item stack (frames rd))
      \/ (delivered stack rd /\ stack <> [])
  | stateEndTop =>
      lit rd = None /\ frames rd = [] /\ is_Some (top rd)
  | stateError => False
  | _ =>
      exists item, lit rd = Some item /\ plain_literal item
                   /\ nested stack (frames rd)
  end.

(** The scanner has met no error, and the reader is in step with it. *)
Definition in_step (s : scanner) (rd : reader) : Prop :=
  err s = None
  /\ (endTop s = true <-> step s = stateEndTop)
  /\ holds (step s) (parseStack s) rd.

(** The scanner has recorded an error: nothing is accepted any more. *)
Definition dead (s : scanner) : Prop :=
  step s = stateError /\ err s <> None.

(** The outcome of a step that is in step: the scanner refuses the byte,
    or the reader takes it and both are in step again, or the scanner is
    dead. *)
Definition kept (rd : reader) (c : ascii)
    (next : scanner * opcode) (result : option reader) : Prop :=
  (next.2 = scanError /\ err next.1 <> None)
  \/ (exists rd', result = Some rd' /\ (in_step next.1 rd' \/ dead next.1)).

End sync.

(** ** Targets written without a scheme

    What [url.Parse] makes of a target such as [localhost:3000] or
    [127.0.0.1:8080] is decided by the bytes before the first colon. *)

Module rawurl.

Definition letter (c : ascii) : bool := between "a" "z" c || between "A" "Z" c.

(** The bytes that [getScheme] lets pass after the first one. *)
Definition scheme_byte (c : ascii) : bool :=
  letter c || between "0" "9" c || one_of "+-." c.

(** No byte of [s] is one of [set]. *)
Definition free_of (set s : string) : bool :=
  textproto.all_bytes (fun c => negb (one_of set c)) s.

(** The bytes of a host name or an IP address, and of a port after it. *)
Definition host_byte (c : ascii) : bool :=
  letter c || between "0" "9" c || one_of "-." c.

Definition authority_byte (c : ascii) : bool := host_byte c || byte_eqb c ":".

(** The URL of a text [scheme://host]. *)
Definition host_URL (scheme host : string) : url.URL :=
  {| url.Scheme := scheme; url.Opaque := ""; url.User := None;
     url.Host := host; url.Path := ""; url.OmitHost := false;
     url.ForceQuery := false; url.RawQuery := ""; url.Fragment := "" |}.

(** The URL of a text [scheme:opaque]. *)
Definition opaque_URL (scheme opaque : string) : url.URL :=
  {| url.Scheme := scheme; url.Opaque := opaque; url.User := None;
     url.Host := ""; url.Path := ""; url.OmitHost := false;
     url.ForceQuery := false; url.RawQuery := ""; url.Fragment := "" |}.

End rawurl.

(** ** Bodies that name a target *)

Module target_body.





End target_body.

(** * Properties *)

Import okproxy.

(** ** [strings] *)

Lemma byte_eqb_eq (a b : ascii) : byte_eqb a b = true <-> a = b.
Proof. apply Ascii.eqb_eq. Qed.


Lemma drop_app (prefix rest : string) :
  strings.drop (strings.len prefix) (prefix ++ rest) = rest.
Proof. induction prefix as [|c prefix IH]; simpl; [reflexivity | exact IH]. Qed.



(** ** [http.Header] *)

Lemma Get_Set_same (h : http.Header) (key value : string) :
  http.Get (http.Set_ h key value) key = value.
Proof. unfold http.Get, http.Set_. now rewrite lookup_insert_eq. Qed.

Lemma Get_absent (h : http.Header) (key : string) :
  h !! textproto.CanonicalMIMEHeaderKey key = None -> http.Get h key = EmptyString.
Proof. unfold http.Get. now intros ->. Qed.

(** ** The forwarder *)

(** Runs the plumbing of the monad [M]; the calls into the standard library
    stay folded. *)
Ltac run :=
  cbv [mbind M_bind mret M_ret call_with get_request set_request get_proxy
       set_proxy panic
       SetProxyURL GetProxyURL serveReverseProxy decodeURLFromBody
       reverseProxy_ProxyReverser rp.GetProxyURL rp.SetProxyURL];
  cbn [p r calls proxy URL fst snd].

(** The methods that the interface value of a [New] proxy dispatches to. *)
Ltac dispatch :=
  change (@SetProxyURL reverseProxy reverseProxy_ProxyReverser)
    with rp.SetProxyURL;
  change (@GetProxyURL reverseProxy reverseProxy_ProxyReverser)
    with rp.GetProxyURL;
  change (@serveReverseProxy reverseProxy reverseProxy_ProxyReverser)
    with rp.serveReverseProxy;
  change (@decodeURLFromBody reverseProxy reverseProxy_ProxyReverser)
    with rp.decodeURLFromBody.



(** After a successful parse the forwarder rewrites the request and hands
    it to the reverse proxy. *)
Lemma serveReverseProxy_parsed (w : world reverseProxy) (u : url.URL) :
  url.Parse (target w) = Ok u ->
  rp.serveReverseProxy w =
    Some (tt, {| p := p w; r := rewrite_request u (r w);
                 calls := (calls w ++ [Forward (r w)])
                            ++ [ServeHTTP u (rewrite_request u (r w))] |}).
Proof.
  intros H. unfold rp.serveReverseProxy, target in *. run.
  rewrite H. reflexivity.
Qed.

(** After a failed parse it reports the error and returns. *)
Lemma serveReverseProxy_unparsed (w : world reverseProxy) (e : error) :
  url.Parse (target w) = Err e ->
  rp.serveReverseProxy w =
    Some (tt, {| p := p w; r := r w;
                 calls := (calls w ++ [Forward (r w)])
                            ++ [ServerErrorHandler (r w) e] |}).
Proof.
  intros H. unfold rp.serveReverseProxy, target in *. run.
  rewrite H. reflexivity.
Qed.


Lemma since_app (before new : list call) (w : world reverseProxy) :
  calls w = (before ++ new)%list -> since before w = new.
Proof.
  intros H. unfold since. rewrite H. clear H.
  induction before as [|c before IH]; simpl; [reflexivity | exact IH].
Qed.

(** Rewrites [since before w'] to the calls that [w'] adds to [before]. *)
Ltac new_calls :=
  erewrite since_app by (cbn [calls]; rewrite <- ?app_assoc; reflexivity).

(** ** The path handler *)

Lemma PathRequestProxyHandler_unset (path : string) (w : world reverseProxy) :
  target w = EmptyString ->
  PathRequestProxyHandler path w =
    Some (tt, {| p := p w; r := r w;
                 calls := calls w ++ [ServerErrorHandler (r w)
                   (errorString "ProxyURL needs to be set for PathRequestProxyHandler")] |}).
Proof.
  intros H. unfold PathRequestProxyHandler, target in *. run.
  rewrite H. reflexivity.
Qed.

Lemma PathRequestProxyHandler_set (path : string) (w : world reverseProxy) :
  target w <> EmptyString ->
  PathRequestProxyHandler path w =
    rp.serveReverseProxy
      (with_request
         (set_URL_Path (strings.TrimPrefix (url.Path (http.URL (r w))) path) (r w)) w).
Proof.
  intros H. unfold PathRequestProxyHandler, target in *. run.
  apply String.eqb_neq in H. rewrite H. reflexivity.
Qed.

(** ** The claims on the resolver, the path handler and the forwarder *)

(** C8.  [rp.SetProxyURL(v)] followed by [rp.GetProxyURL()] returns [v], for
    every [v], the empty string included: neither call fails, and the world
    after them differs from the one before in the stored URL only (the
    request and the calls made are the same).  [rp.GetProxyURL()] on the
    proxy that [New(t)] makes returns [t] and changes nothing. *)
Theorem SetProxyURL_GetProxyURL (v : string) (w : world reverseProxy) :
  (rp.SetProxyURL v;; rp.GetProxyURL) w
    = Some (v, {| p := {| proxy := {| URL := v |} |}; r := r w; calls := calls w |})
  /\ (forall (t : string) (r0 : http.Request) (made : list call),
        rp.GetProxyURL {| p := New t; r := r0; calls := made |}
          = Some (t, {| p := New t; r := r0; calls := made |})).
Proof. split; reflexivity. Qed.

(** C5.  While the stored target is empty, the path handler calls the error
    handler once, with the error "ProxyURL needs to be set for
    PathRequestProxyHandler", never enters the forwarder, and leaves the
    stored target as it was. *)
Theorem path_handler_reports_unset_target (path : string) (w : world reverseProxy) :
  target w = EmptyString ->
  exists w',
    PathRequestProxyHandler path w = Some (tt, w')
    /\ since (calls w) w' =
         [ServerErrorHandler (r w)
            (errorString "ProxyURL needs to be set for PathRequestProxyHandler")]
    /\ count is_ServerErrorHandler (since (calls w) w') = 1
    /\ count is_Forward (since (calls w) w') = 0
    /\ count is_ServeHTTP (since (calls w) w') = 0
    /\ p w' = p w.
Proof.
  intros H. eexists. split; [apply PathRequestProxyHandler_unset, H|].
  new_calls. repeat split.
Qed.

Lemma path_handler_reports_unset_target_witness :
  let w := sample.serving "" (sample.NewRequest "/forward/api" "") in
  target w = EmptyString
  /\ exists w',
      PathRequestProxyHandler "" w = Some (tt, w')
      /\ since (calls w) w' =
           [ServerErrorHandler (r w)
              (errorString "ProxyURL needs to be set for PathRequestProxyHandler")]
      /\ count is_ServerErrorHandler (since (calls w) w') = 1
      /\ count is_Forward (since (calls w) w') = 0
      /\ count is_ServeHTTP (since (calls w) w') = 0
      /\ p w' = p w.
Proof.
  split; [reflexivity|].
  apply (path_handler_reports_unset_target ""
           (sample.serving "" (sample.NewRequest "/forward/api" ""))).
  reflexivity.
Defined.

(** C9.  While the stored target is empty, the path handler leaves the
    request as it was, its URL path included: the prefix is not cut, also
    when the path starts with it, and the error handler is given the request
    with the path it came with. *)
Theorem path_handler_unset_target_keeps_path (path : string) (w : world reverseProxy) :
  target w = EmptyString ->
  exists w' err,
    PathRequestProxyHandler path w = Some (tt, w')
    /\ url.Path (http.URL (r w')) = url.Path (http.URL (r w))
    /\ r w' = r w
    /\ since (calls w) w' = [ServerErrorHandler (r w) err].
Proof.
  intros H. eexists _, _. split; [apply PathRequestProxyHandler_unset, H|].
  new_calls. repeat split.
Qed.

Lemma path_handler_unset_target_keeps_path_witness :
  let w := sample.serving "" (sample.NewRequest "/forward/api" "") in
  exists w' err,
    PathRequestProxyHandler "/forward" w = Some (tt, w')
    /\ url.Path (http.URL (r w')) = "/forward/api"
    /\ r w' = r w
    /\ since (calls w) w' = [ServerErrorHandler (r w) err].
Proof.
  apply (path_handler_unset_target_keeps_path "/forward"
           (sample.serving "" (sample.NewRequest "/forward/api" ""))).
  reflexivity.
Defined.



(** C7.  With a stored target that fails [url.Parse], the forwarder calls
    the error handler once, with the error of the parse, does not call the
    reverse proxy, and leaves the request (URL host and scheme, headers,
    host field, body) and the stored target as they were. *)
Theorem forwarder_reports_unparsable_target (w : world reverseProxy) (e : error) :
  url.Parse (target w) = Err e ->
  exists w',
    rp.serveReverseProxy w = Some (tt, w')
    /\ since (calls w) w' = [Forward (r w); ServerErrorHandler (r w) e]
    /\ count is_ServerErrorHandler (since (calls w) w') = 1
    /\ count is_ServeHTTP (since (calls w) w') = 0
    /\ r w' = r w
    /\ p w' = p w.
Proof.
  intros H. eexists. split; [apply serveReverseProxy_unparsed, H|].
  new_calls. repeat split.
Qed.

Lemma forwarder_reports_unparsable_target_witness :
  let w := sample.serving sample.bad_target (sample.NewRequest "/" "") in
  exists w',
    rp.serveReverseProxy w = Some (tt, w')
    /\ since (calls w) w' =
         [Forward (r w);
          ServerErrorHandler (r w)
            (url_Error "parse" sample.bad_target
               (errorString "net/url: invalid control character in URL"))]
    /\ count is_ServerErrorHandler (since (calls w) w') = 1
    /\ count is_ServeHTTP (since (calls w) w') = 0
    /\ r w' = r w
    /\ p w' = p w.
Proof.
  apply (forwarder_reports_unparsable_target
           (sample.serving sample.bad_target (sample.NewRequest "/" ""))).
  reflexivity.
Defined.

(** C2.  With a stored target that [url.Parse] accepts as [u], the forwarder
    leaves the request with the URL host and scheme of [u], with the header
    [X-Forwarded-Host] equal to what the header [Host] held on entry (the
    empty string when there was none), and with the host field equal to the
    host of [u]; it then calls the reverse proxy for [u] with that request.
    For the target [https://127.0.0.1:8080] and an inbound [Host] header
    [127.0.0.1:8080] these are the host [127.0.0.1:8080], the scheme
    [https], the forwarded host [127.0.0.1:8080] and the host field
    [127.0.0.1:8080]. *)
Theorem forwarder_rewrites_request (w : world reverseProxy) (u : url.URL) :
  url.Parse (target w) = Ok u ->
  exists w',
    rp.serveReverseProxy w = Some (tt, w')
    /\ url.Host (http.URL (r w')) = url.Host u
    /\ url.Scheme (http.URL (r w')) = url.Scheme u
    /\ http.Get (http.Header_ (r w')) "X-Forwarded-Host"
         = http.Get (http.Header_ (r w)) "Host"
    /\ (http.Header_ (r w) !! "Host" = None ->
        http.Get (http.Header_ (r w')) "X-Forwarded-Host" = EmptyString)
    /\ http.Host (r w') = url.Host u
    /\ since (calls w) w' = [Forward (r w); ServeHTTP u (r w')]
    /\ (target w = "https://127.0.0.1:8080" ->
        http.Get (http.Header_ (r w)) "Host" = "127.0.0.1:8080" ->
        url.Host (http.URL (r w')) = "127.0.0.1:8080"
        /\ url.Scheme (http.URL (r w')) = "https"
        /\ http.Get (http.Header_ (r w')) "X-Forwarded-Host" = "127.0.0.1:8080"
        /\ http.Host (r w') = "127.0.0.1:8080").
Proof.
  intros Hparse. eexists. split; [apply serveReverseProxy_parsed, Hparse|].
  cbn [r rewrite_request set_URL_Host set_URL_Scheme set_Header set_Host
       http.URL http.Header_ http.Host url.Host url.Scheme].
  rewrite Get_Set_same. new_calls.
  do 3 (split; [reflexivity|]).
  split; [intros Habsent; now apply Get_absent|].
  do 2 (split; [reflexivity|]).
  intros Htarget Hhost. rewrite Htarget in Hparse. vm_compute in Hparse.
  injection Hparse as <-. repeat split. exact Hhost.
Qed.

Lemma forwarder_rewrites_request_witness :
  let w := sample.serving "https://127.0.0.1:8080"
             (sample.with_Host_header (sample.NewRequest "/" "") "127.0.0.1:8080") in
  exists w',
    rp.serveReverseProxy w = Some (tt, w')
    /\ url.Host (http.URL (r w')) = "127.0.0.1:8080"
    /\ url.Scheme (http.URL (r w')) = "https"
    /\ http.Get (http.Header_ (r w')) "X-Forwarded-Host" = "127.0.0.1:8080"
    /\ http.Host (r w') = "127.0.0.1:8080".
Proof.
  intros w.
  destruct (forwarder_rewrites_request w
              {| url.Scheme := "https"; url.Opaque := ""; url.User := None;
                 url.Host := "127.0.0.1:8080"; url.Path := "";
                 url.OmitHost := false; url.ForceQuery := false;
                 url.RawQuery := ""; url.Fragment := "" |} eq_refl)
    as (w' & Hrun & _ & _ & _ & _ & _ & _ & Hin).
  exists w'. split; [exact Hrun|]. now apply Hin.
Defined.

(** ** [encoding/json] on a [reverseProxy] *)

Lemma Unmarshal_invalid {T} (fields : list (string * (string -> T -> T)))
    (data : string) (dst : T) (e : error) :
  json.checkValid data = Some e ->
  json.Unmarshal fields data dst = Some (dst, Some e).
Proof. intros H. unfold json.Unmarshal. now rewrite H. Qed.

Lemma find_field_other (key : string) :
  json.foldName key <> "PROXYURL" ->
  json.find_field reverseProxy_fields key = None.
Proof.
  intros H. unfold json.find_field, reverseProxy_fields. cbn [find fst].
  destruct (String.eqb "proxyURL" key) eqn:E.
  - apply String.eqb_eq in E. subst key. now destruct H.
  - change (json.foldName "proxyURL") with "PROXYURL".
    destruct (String.eqb "PROXYURL" (json.foldName key)) eqn:E'; [|reflexivity].
    apply String.eqb_eq in E'. now destruct H.
Qed.

Lemma store_members_other (members : list (string * json.value))
    (st : reverseProxy * option error) :
  Forall (fun m => json.foldName m.1 <> "PROXYURL") members ->
  fold_left (json.store_member reverseProxy_fields) members st = st.
Proof.
  intros H. revert st. induction H as [|m members Hm _ IH]; intros st.
  - reflexivity.
  - cbn [fold_left]. rewrite <- (IH st) at 2. f_equal.
    unfold json.store_member. destruct st as [dst saved].
    now rewrite (find_field_other _ Hm).
Qed.

(** An object in which no key names the field leaves the struct as it is,
    and is no error. *)
Lemma Unmarshal_without_field (data : string)
    (members : list (string * json.value)) (rp : reverseProxy) :
  json.checkValid data = None ->
  json.read data = Some (json.Object members) ->
  Forall (fun m => json.foldName m.1 <> "PROXYURL") members ->
  json.Unmarshal reverseProxy_fields data rp = Some (rp, None).
Proof.
  intros Hvalid Hread Hmembers. unfold json.Unmarshal.
  rewrite Hvalid, Hread. cbn [mbind option_bind json.store].
  now rewrite (store_members_other members (rp, None) Hmembers).
Qed.


(** ** The payload handler *)

Lemma read_all_inv (b : ioutil.ReadCloser) (body : string) :
  read_all b = (body, None) -> b = ioutil.NopCloser_NewBuffer body.
Proof. destruct b as [data fail]. cbv. now intros [= -> ->]. Qed.

Section Readable.

(** A world whose request has a body that reads to its end as [body]. *)
Variable w : world reverseProxy.
Variable body : string.
Hypothesis Hbody : read_all (http.Body (r w)) = (body, None).

(** The request once [rp.decodeURLFromBody] has put a fresh reader over the
    bytes read in it. *)
Let restored : http.Request :=
  set_Body (ioutil.NopCloser_NewBuffer body) (r w).

(** [rp.decodeURLFromBody] restores the body whatever [json.Unmarshal] then
    says, stores what the decoder leaves in the struct, and returns the
    error of the decoder. *)
Lemma decodeURLFromBody_readable :
  rp.decodeURLFromBody w =
    match json.Unmarshal reverseProxy_fields body (proxy (p w)) with
    | Some (rp, err) =>
        Some (err, {| p := {| proxy := rp |}; r := restored; calls := calls w |})
    | None => None
    end.
Proof.
  pose proof (read_all_inv _ _ Hbody) as H.
  unfold rp.decodeURLFromBody. run. rewrite H.
  cbn [ioutil.ReadAll ioutil.NopCloser_NewBuffer ioutil.unread ioutil.failure].
  run.
  destruct (json.Unmarshal reverseProxy_fields body (proxy (p w)))
    as [[rp [e|]]|]; reflexivity.
Qed.

(** The three ways of the payload handler, by what the decoder returns. *)
Lemma PayloadRequestProxyHandler_readable :
  PayloadRequestProxyHandler w =
    match json.Unmarshal reverseProxy_fields body (proxy (p w)) with
    | Some (rp, Some err) =>
        Some (tt, {| p := {| proxy := rp |}; r := restored;
                     calls := calls w ++ [ServerErrorHandler restored err] |})
    | Some (rp, None) =>
        if String.eqb (URL rp) EmptyString
        then Some (tt, {| p := {| proxy := rp |}; r := restored;
                          calls := calls w ++ [ServerErrorHandler restored
                            (errorString "ProxyURL needs to be set in request body at proxyURL field")] |})
        else rp.serveReverseProxy
               {| p := {| proxy := rp |}; r := restored; calls := calls w |}
    | None => None
    end.
Proof.
  unfold PayloadRequestProxyHandler. dispatch.
  unfold mbind at 1. unfold M_bind. rewrite decodeURLFromBody_readable.
  destruct (json.Unmarshal reverseProxy_fields body (proxy (p w)))
    as [[rp [e|]]|]; [reflexivity| |reflexivity].
  run. now destruct (String.eqb (URL rp) EmptyString).
Qed.

Lemma PayloadRequestProxyHandler_invalid (e : error) :
  json.checkValid body = Some e ->
  PayloadRequestProxyHandler w =
    Some (tt, {| p := p w; r := restored;
                 calls := calls w ++ [ServerErrorHandler restored e] |}).
Proof.
  intros Hinvalid.
  rewrite PayloadRequestProxyHandler_readable, (Unmarshal_invalid _ _ _ e Hinvalid).
  now destruct w as [[rp] r0 made].
Qed.

Lemma PayloadRequestProxyHandler_without_field
    (members : list (string * json.value)) :
  target w = EmptyString ->
  json.checkValid body = None ->
  json.read body = Some (json.Object members) ->
  Forall (fun m => json.foldName m.1 <> "PROXYURL") members ->
  PayloadRequestProxyHandler w =
    Some (tt, {| p := p w; r := restored;
                 calls := calls w ++ [ServerErrorHandler restored
                   (errorString "ProxyURL needs to be set in request body at proxyURL field")] |}).
Proof.
  intros Hunset Hvalid Hread Hmembers.
  rewrite PayloadRequestProxyHandler_readable,
    (Unmarshal_without_field body members _ Hvalid Hread Hmembers).
  unfold target in Hunset. rewrite Hunset.
  now destruct w as [[rp] r0 made].
Qed.

End Readable.



(** C6.  For a request whose body reads in full as bytes that
    [encoding/json] refuses with the syntax error [e], the payload handler
    calls the error handler once, with [e], and neither enters the
    forwarder nor calls the reverse proxy. *)
Theorem payload_handler_reports_invalid_json (w : world reverseProxy) (body : string) (e : error) :
  read_all (http.Body (r w)) = (body, None) ->
  json.checkValid body = Some e ->
  exists w' r',
    PayloadRequestProxyHandler w = Some (tt, w')
    /\ since (calls w) w' = [ServerErrorHandler r' e]
    /\ count is_ServerErrorHandler (since (calls w) w') = 1
    /\ count is_Forward (since (calls w) w') = 0
    /\ count is_ServeHTTP (since (calls w) w') = 0.
Proof.
  intros Hbody Hinvalid. eexists _, _.
  split; [apply (PayloadRequestProxyHandler_invalid w body Hbody e Hinvalid)|].
  new_calls. repeat split.
Qed.

Lemma payload_handler_reports_invalid_json_witness :
  let w := sample.serving ""
             (sample.NewRequest "/forward/api" sample.body_truncated) in
  exists w' r',
    PayloadRequestProxyHandler w = Some (tt, w')
    /\ since (calls w) w' = [ServerErrorHandler r' (SyntaxError UnexpectedEnd 24)]
    /\ count is_ServerErrorHandler (since (calls w) w') = 1
    /\ count is_Forward (since (calls w) w') = 0
    /\ count is_ServeHTTP (since (calls w) w') = 0.
Proof.
  apply (payload_handler_reports_invalid_json
           (sample.serving ""
              (sample.NewRequest "/forward/api" sample.body_truncated))
           sample.body_truncated (SyntaxError UnexpectedEnd 24));
    reflexivity.
Defined.

(** C10.  For a request whose body reads in full as bytes that
    [encoding/json] refuses, the payload handler leaves the stored target as
    it was before the request, and the body of the request reads in full as
    the same bytes, both when the error handler is called and when the
    handler returns. *)
Theorem payload_handler_invalid_json_keeps_state (w : world reverseProxy) (body : string)
    (e : error) :
  read_all (http.Body (r w)) = (body, None) ->
  json.checkValid body = Some e ->
  exists w',
    PayloadRequestProxyHandler w = Some (tt, w')
    /\ target w' = target w
    /\ p w' = p w
    /\ read_all (http.Body (r w')) = (body, None)
    /\ since (calls w) w' = [ServerErrorHandler (r w') e].
Proof.
  intros Hbody Hinvalid. eexists.
  split; [apply (PayloadRequestProxyHandler_invalid w body Hbody e Hinvalid)|].
  new_calls. repeat split.
Qed.

Lemma payload_handler_invalid_json_keeps_state_witness :
  let w := sample.serving "http://h:1"
             (sample.NewRequest "/forward/api" sample.body_truncated) in
  exists w',
    PayloadRequestProxyHandler w = Some (tt, w')
    /\ target w' = "http://h:1"
    /\ p w' = p w
    /\ read_all (http.Body (r w')) = (sample.body_truncated, None)
    /\ since (calls w) w' = [ServerErrorHandler (r w') (SyntaxError UnexpectedEnd 24)].
Proof.
  apply (payload_handler_invalid_json_keeps_state
           (sample.serving "http://h:1"
              (sample.NewRequest "/forward/api" sample.body_truncated))
           sample.body_truncated (SyntaxError UnexpectedEnd 24));
    reflexivity.
Defined.

(** C4, as the code has it.  For a request served while the stored target
    is empty, whose body reads in full as a JSON object in which no key
    names the field [proxyURL] (keys are compared without regard to letter
    case, as [encoding/json] does), the decoder leaves the target empty and
    the payload handler calls the error handler once, with the error
    "ProxyURL needs to be set in request body at proxyURL field", which is
    not an error of the decoder; the forwarder is not entered. *)
Theorem payload_handler_reports_absent_field (w : world reverseProxy) (body : string)
    (members : list (string * json.value)) :
  target w = EmptyString ->
  read_all (http.Body (r w)) = (body, None) ->
  json.checkValid body = None ->
  json.read body = Some (json.Object members) ->
  Forall (fun m => json.foldName m.1 <> "PROXYURL") members ->
  reports_unset_target w
  /\ exists w',
      PayloadRequestProxyHandler w = Some (tt, w')
      /\ count is_ServerErrorHandler (since (calls w) w') = 1
      /\ count is_Forward (since (calls w) w') = 0
      /\ count is_ServeHTTP (since (calls w) w') = 0.
Proof.
  intros Hunset Hbody Hvalid Hread Hmembers.
  pose proof (PayloadRequestProxyHandler_without_field w body Hbody members
                Hunset Hvalid Hread Hmembers) as Hrun.
  split.
  - eexists _, _. split; [exact Hrun|]. split; [exact Hunset|].
    new_calls. reflexivity.
  - eexists. split; [exact Hrun|]. new_calls. repeat split.
Qed.

Lemma payload_handler_reports_absent_field_witness :
  let w := sample.serving "" (sample.NewRequest "/forward/api" "{}") in
  reports_unset_target w.
Proof.
  apply (payload_handler_reports_absent_field
           (sample.serving "" (sample.NewRequest "/forward/api" "{}")) "{}" []);
    try reflexivity.
  constructor.
Defined.

(** C4, as stated, fails: with the stored target [http://h:1] and the body
    [{}], a JSON object without the field, the decoder leaves the target as
    it is, the error handler is not called, and the request is forwarded. *)
Lemma payload_handler_absent_field_keeps_old_target :
  let w := sample.serving "http://h:1" (sample.NewRequest "/forward/api" "{}") in
  (json.checkValid "{}" = None /\ json.read "{}" = Some (json.Object []))
  /\ ~ reports_unset_target w
  /\ exists w',
      PayloadRequestProxyHandler w = Some (tt, w')
      /\ target w' = "http://h:1"
      /\ count is_ServerErrorHandler (calls w') = 0
      /\ count is_Forward (calls w') = 1.
Proof.
  intros w. split; [split; reflexivity|].
  assert (exists w', PayloadRequestProxyHandler w = Some (tt, w')
                     /\ target w' = "http://h:1"
                     /\ count is_ServerErrorHandler (calls w') = 0
                     /\ count is_Forward (calls w') = 1) as Hrun.
  { eexists. split; [vm_compute; reflexivity|]. repeat split. }
  split; [|exact Hrun].
  intros (w1 & r1 & Hrun1 & Htarget & _).
  destruct Hrun as (w2 & Hrun2 & Htarget2 & _).
  rewrite Hrun1 in Hrun2. injection Hrun2 as ->.
  rewrite Htarget in Htarget2. discriminate.
Qed.

(** ** The tests of [okproxy_test.go]

    Each case of the four tests, run on the model, gives what the test
    expects. *)

Example TestPathRequestProxyHandler_trims_path_and_forwards :
  sample.observed
    (PathRequestProxyHandler "/forward"
       (sample.mocking "127.0.0.1:8080" (sample.NewRequest "/forward/api" "")))
  = Some ("/api", false, true).
Proof. vm_compute. reflexivity. Qed.

Example TestPathRequestProxyHandler_errors_on_empty_proxy_URL :
  sample.observed
    (PathRequestProxyHandler ""
       (sample.mocking "" (sample.NewRequest "/forward/api" "")))
  = Some ("/forward/api", true, false).
Proof. vm_compute. reflexivity. Qed.

Example TestPayloadRequestProxyHandler_sets_proxy_url_and_forwards :
  sample.observed
    (PayloadRequestProxyHandler
       (sample.mocking "127.0.0.1:8080"
          (sample.NewRequest "/forward/api" sample.body_test)))
  = Some ("/forward/api", false, true).
Proof. vm_compute. reflexivity. Qed.

Example TestPayloadRequestProxyHandler_errors_on_decoding :
  sample.observed
    (PayloadRequestProxyHandler
       (sample.mocking ""
          (sample.NewRequest "/forward/api" sample.body_test_no_brace)))
  = Some ("/forward/api", true, false).
Proof. vm_compute. reflexivity. Qed.

Example TestPayloadRequestProxyHandler_errors_on_empty_proxy :
  sample.observed
    (PayloadRequestProxyHandler
       (sample.mocking "" (sample.NewRequest "/forward/api" sample.body_test)))
  = Some ("/forward/api", true, false).
Proof. vm_compute. reflexivity. Qed.

Example TestServeReverseProxy_updates_URL_and_request_data :
  exists w',
    rp.serveReverseProxy
      (sample.serving "https://127.0.0.1:8080"
         (sample.with_Host_header (sample.NewRequest "/" "") "127.0.0.1:8080"))
      = Some (tt, w')
    /\ (url.Host (http.URL (r w')), url.Scheme (http.URL (r w')))
         = ("127.0.0.1:8080", "https")
    /\ (http.Get (http.Header_ (r w')) "X-Forwarded-Host", http.Host (r w'))
         = ("127.0.0.1:8080", "127.0.0.1:8080")
    /\ sample.called w' = false.
Proof. eexists. split; [vm_compute; reflexivity|]. repeat split. Qed.

Example TestServeReverseProxy_errors_on_url_parse :
  exists w',
    rp.serveReverseProxy
      (sample.serving sample.bad_target (sample.NewRequest "/" ""))
      = Some (tt, w')
    /\ (url.Host (http.URL (r w')), url.Scheme (http.URL (r w')))
         = (EmptyString, EmptyString)
    /\ (http.Get (http.Header_ (r w')) "X-Forwarded-Host", http.Host (r w'))
         = (EmptyString, "example.com")
    /\ sample.called w' = true.
Proof. eexists. split; [vm_compute; reflexivity|]. repeat split. Qed.

Example TestDecodeURLFromBody_unmarshals_body :
  exists w',
    rp.decodeURLFromBody
      (sample.serving "127.0.0.1:8080" (sample.NewRequest "/" sample.body_test))
      = Some (None, w')
    /\ target w' = "127.0.0.1:8080"
    /\ read_all (http.Body (r w')) = (sample.body_test, None).
Proof. eexists. split; [vm_compute; reflexivity|]. repeat split. Qed.

Example TestDecodeURLFromBody_errors_on_json_unmarshal :
  exists w' offset,
    rp.decodeURLFromBody
      (sample.serving "127.0.0.1:8080"
         (sample.NewRequest "/" sample.body_test_no_quote))
      = Some (Some (SyntaxError UnexpectedEnd offset), w')
    /\ target w' = "127.0.0.1:8080"
    /\ read_all (http.Body (r w')) = (sample.body_test_no_quote, None).
Proof. eexists _, _. split; [vm_compute; reflexivity|]. repeat split. Qed.

(** * More on the code *)

(** ** String literals that the scanner accepts can be unquoted *)

Import sync.

Ltac bytes c := destruct c as [[] [] [] [] [] [] [] []].

Lemma plain_high (c : ascii) : (128 <=? byte_val c)%nat = true -> plain c = true.
Proof. bytes c; vm_compute; congruence. Qed.

Lemma plain_not_backslash (c : ascii) : plain c = true -> byte_eqb c "\" = false.
Proof. bytes c; vm_compute; congruence. Qed.

Lemma plain_not_special (c : ascii) :
  plain c = true -> (byte_eqb c dquote || (byte_val c <? 32)%nat) = false.
Proof. bytes c; vm_compute; congruence. Qed.

Lemma body_tail (c : ascii) (b : string) :
  body (String c b) -> plain c = true -> body b.
Proof.
  intros H Hc. inversion H; subst; try assumption;
    apply plain_not_backslash in Hc; discriminate.
Qed.

Lemma body_after_u (rest : string) :
  body (String "\" (String "u" rest)) ->
  exists h1 h2 h3 h4 b,
    rest = String h1 (String h2 (String h3 (String h4 b)))
    /\ json.isHex h1 = true /\ json.isHex h2 = true
    /\ json.isHex h3 = true /\ json.isHex h4 = true /\ body b.
Proof.
  intros H. inversion H as [|c b Hc Hb|e b He Hb|h1 h2 h3 h4 b H1 H2 H3 H4 Hb];
    subst.
  - vm_compute in Hc. discriminate.
  - vm_compute in He. discriminate.
  - exists h1, h2, h3, h4, b. repeat split; assumption.
Qed.

Lemma body_app (a b : string) : body a -> body b -> body (a ++ b).
Proof.
  intros Ha Hb. induction Ha; cbn [String.append]; try assumption;
    constructor; assumption.
Qed.

Lemma in_range_high (lo hi : N) (c : ascii) :
  (128 <=? lo)%N = true -> utf8.in_range lo hi c = true ->
  (128 <=? byte_val c)%nat = true.
Proof.
  unfold utf8.in_range, utf8.code, byte_val. intros Hlo H.
  apply andb_true_iff in H as [H _].
  apply N.leb_le in Hlo, H. apply Nat.leb_le.
  rewrite <- (Nnat.N2Nat.id (N_of_ascii c)) in H.
  unfold nat_of_ascii. lia.
Qed.

Lemma DecodeRune_width (c : ascii) (rest : string) :
  exists r n, utf8.DecodeRune (String c rest) = (r, S n) /\ all_high n rest.
Proof.
  unfold utf8.DecodeRune.
  destruct (utf8.code c <? 128)%N; [eexists _, 0; now split|].
  destruct (utf8.in_range 194 223 c).
  { destruct rest as [|b1 rest]; [eexists _, 0; now split|].
    destruct (utf8.in_range 128 191 b1) eqn:H1; [|eexists _, 0; now split].
    eexists _, 1. split; [reflexivity|]. split; [|exact I].
    now apply (in_range_high 128 191). }
  destruct (utf8.in_range 224 239 c).
  { destruct rest as [|b1 [|b2 rest]]; try (eexists _, 0; now split).
    match goal with |- context [utf8.in_range ?lo ?hi b1] =>
      destruct (utf8.in_range lo hi b1) eqn:H1;
      [assert ((128 <=? byte_val b1)%nat = true) as G1
         by (apply (in_range_high lo hi); [|exact H1];
             destruct (utf8.code c =? 224)%N; reflexivity)|]
    end; cbn [andb]; [|eexists _, 0; now split].
    destruct (utf8.in_range 128 191 b2) eqn:H2; [|eexists _, 0; now split].
    eexists _, 2. split; [reflexivity|]. repeat split; try assumption.
    now apply (in_range_high 128 191). }
  destruct (utf8.in_range 240 244 c).
  { destruct rest as [|b1 [|b2 [|b3 rest]]]; try (eexists _, 0; now split).
    match goal with |- context [utf8.in_range ?lo ?hi b1] =>
      destruct (utf8.in_range lo hi b1) eqn:H1;
      [assert ((128 <=? byte_val b1)%nat = true) as G1
         by (apply (in_range_high lo hi); [|exact H1];
             destruct (utf8.code c =? 240)%N; reflexivity)|]
    end; cbn [andb]; [|eexists _, 0; now split].
    destruct (utf8.in_range 128 191 b2) eqn:H2; cbn [andb];
      [|eexists _, 0; now split].
    destruct (utf8.in_range 128 191 b3) eqn:H3; [|eexists _, 0; now split].
    eexists _, 3. split; [reflexivity|]. repeat split; try assumption.
    - now apply (in_range_high 128 191).
    - now apply (in_range_high 128 191). }
  eexists _, 0. now split.
Qed.

Lemma body_drop_high (k : nat) (b : string) :
  body b -> all_high k b -> body (strings.drop k b).
Proof.
  revert b. induction k as [|k IH]; intros b Hb Hk; [exact Hb|].
  destruct b as [|c b]; [destruct Hk|]. destruct Hk as [Hc Hk].
  cbn [strings.drop]. apply IH; [|exact Hk].
  apply (body_tail c); [exact Hb|]. now apply plain_high.
Qed.

Lemma escape_unquoted (e : ascii) (b : string) :
  escape e = true ->
  exists out, json.unquote_step (String "\" (String e b)) = Some (out, 2).
Proof.
  intros H. bytes e; vm_compute in H; try discriminate; eexists; reflexivity.
Qed.

Lemma getu4_hex (h1 h2 h3 h4 : ascii) (b : string) :
  json.isHex h1 = true -> json.isHex h2 = true ->
  json.isHex h3 = true -> json.isHex h4 = true ->
  json.getu4 (String "\" (String "u" (String h1 (String h2 (String h3 (String h4 b))))))
    = Some (json.hex4 h1 h2 h3 h4).
Proof. intros H1 H2 H3 H4. cbn [json.getu4]. now rewrite H1, H2, H3, H4. Qed.

Lemma getu4_inv (s : string) (r : utf8.rune) :
  json.getu4 s = Some r ->
  exists h1 h2 h3 h4 b,
    s = String "\" (String "u" (String h1 (String h2 (String h3 (String h4 b))))).
Proof.
  destruct s as [|c0 [|c1 [|h1 [|h2 [|h3 [|h4 b]]]]]]; try discriminate.
  cbn [json.getu4].
  destruct (byte_eqb c0 "\") eqn:E0; [|discriminate].
  destruct (byte_eqb c1 "u") eqn:E1; [|discriminate].
  apply byte_eqb_eq in E0, E1. subst. intros _. eauto 10.
Qed.

(** One turn of the loop of [unquoteBytes] on the body of a literal reads
    whole escapes and whole encodings: what is left is a body again. *)
Lemma unquote_step_body (c : ascii) (rest : string) :
  body (String c rest) ->
  exists out n,
    json.unquote_step (String c rest) = Some (out, S n)
    /\ body (strings.drop n rest).
Proof.
  intros H. inversion H as [|c' b Hc Hb|e b He Hb|h1 h2 h3 h4 b H1 H2 H3 H4 Hb];
    subst.
  - cbn [json.unquote_step].
    rewrite (plain_not_backslash _ Hc), (plain_not_special _ Hc).
    destruct (byte_val c <? 128)%nat eqn:Hlow.
    + eexists _, 0. split; [reflexivity|exact Hb].
    + destruct (DecodeRune_width c rest) as (rr & n & Hd & Hhigh).
      rewrite Hd. eexists _, n. split; [reflexivity|].
      now apply body_drop_high.
  - destruct (escape_unquoted e b He) as [out Hout].
    exists out, 1. split; [exact Hout|exact Hb].
  - set (s := String "\" (String "u" (String h1 (String h2 (String h3 (String h4 b)))))).
    assert (json.unquote_step s =
              match json.getu4 s with
              | None => None
              | Some rr =>
                  if utf16.IsSurrogate rr then
                    let dec :=
                      match json.getu4 (strings.drop 6 s) with
                      | Some rr1 => utf16.DecodeRune rr rr1
                      | None => utf8.RuneError
                      end in
                    if negb (N.eqb dec utf8.RuneError)
                    then Some (utf8.EncodeRune dec, 12)
                    else Some (utf8.EncodeRune utf8.RuneError, 6)
                  else Some (utf8.EncodeRune rr, 6)
              end) as Hstep by reflexivity.
    rewrite Hstep. unfold s at 1. rewrite (getu4_hex h1 h2 h3 h4 b H1 H2 H3 H4).
    destruct (utf16.IsSurrogate (json.hex4 h1 h2 h3 h4));
      [|eexists _, 5; split; [reflexivity|exact Hb]].
    change (strings.drop 6 s) with b. cbv zeta.
    destruct (json.getu4 b) as [rr1|] eqn:Hnext;
      [|eexists _, 5; split; [reflexivity|exact Hb]].
    destruct (negb _); [|eexists _, 5; split; [reflexivity|exact Hb]].
    destruct (getu4_inv b rr1 Hnext) as (g1 & g2 & g3 & g4 & b' & ->).
    destruct (body_after_u _ Hb) as (k1 & k2 & k3 & k4 & b'' & Heq & _ & _ & _ & _ & Hb'').
    injection Heq as -> -> -> -> ->.
    eexists _, 11. split; [reflexivity|exact Hb''].
Qed.

Lemma unquote_loop_body (b : string) (k : nat) :
  body (strings.drop k b) -> is_Some (json.unquote_loop k b).
Proof.
  revert k. induction b as [|c b IH]; intros k Hk; [now destruct k|].
  destruct k as [|k]; cbn [json.unquote_loop].
  - cbn [strings.drop] in Hk.
    destruct (unquote_step_body c b Hk) as (out & n & Hstep & Hrest).
    rewrite Hstep. cbn [mbind option_bind].
    replace (S n - 1) with n by lia.
    destruct (IH n Hrest) as [tl ->]. now eexists.
  - apply IH. exact Hk.
Qed.

Lemma len_app (a b : string) : strings.len (a ++ b) = strings.len a + strings.len b.
Proof.
  unfold strings.len. induction a as [|c a IH]; simpl; [reflexivity | now rewrite IH].
Qed.

Lemma take_app (a b : string) : strings.take (strings.len a) (a ++ b) = a.
Proof.
  unfold strings.len. induction a as [|c a IH]; simpl; [now destruct b | now rewrite IH].
Qed.

Lemma byte_eqb_refl_dquote : byte_eqb dquote dquote = true.
Proof. reflexivity. Qed.

Lemma unquoteBytes_closed (b : string) :
  json.unquoteBytes (String dquote (b ++ String dquote EmptyString))
    = json.unquote_loop 0 b.
Proof.
  unfold json.unquoteBytes.
  assert (strings.HasSuffix (String dquote (b ++ String dquote EmptyString))
            (String dquote EmptyString) = true) as ->.
  { unfold strings.HasSuffix. change (strings.len (String dquote EmptyString)) with 1.
    change (strings.len (String dquote (b ++ String dquote EmptyString)))
      with (S (strings.len (b ++ String dquote EmptyString))).
    rewrite len_app. change (strings.len (String dquote EmptyString)) with 1.
    replace (S (strings.len b + 1) - 1) with (S (strings.len b)) by lia.
    cbn [strings.drop Nat.leb]. rewrite drop_app. reflexivity. }
  change (strings.len (String dquote (b ++ String dquote EmptyString)))
    with (S (strings.len (b ++ String dquote EmptyString))).
  rewrite len_app. change (strings.len (String dquote EmptyString)) with 1.
  replace (strings.len b + 1 - 1) with (strings.len b) by lia.
  rewrite take_app, byte_eqb_refl_dquote.
  destruct (strings.len b + 1) eqn:E; [lia|]. reflexivity.
Qed.

(** ** The reader keeps in step with the scanner *)

Lemma literal_plain (item : string) :
  plain_literal item -> is_Some (json.literal item).
Proof.
  intros (c & rest & -> & H).
  bytes c; vm_compute in H; try discriminate; eexists; reflexivity.
Qed.

Lemma literal_closed (item : string) :
  closed_string item -> exists k, json.literal item = Some (json.Str k).
Proof.
  intros (b & -> & Hb).
  destruct (unquote_loop_body b 0 Hb) as [k Hk]. exists k.
  unfold json.literal. cbn [byte_eqb Ascii.eqb dquote Bool.eqb].
  rewrite unquoteBytes_closed, Hk. reflexivity.
Qed.

Lemma deliver_nested (v : json.value) (stack : list json.parseState)
    (fs : list json.frame) :
  nested stack fs ->
  exists rd, json.deliver v fs = Some rd /\ delivered stack rd.
Proof.
  intros H. destruct H as [|ps f stack fs Hctx Hrest].
  - eexists. split; [reflexivity|]. split; [reflexivity|]. left. now repeat split.
  - destruct ps, f as [elems|members [key|]]; cbn in Hctx; try contradiction.
    + eexists. split; [reflexivity|]. split; [reflexivity|].
      right. left. exact Hrest.
    + eexists. split; [reflexivity|]. split; [reflexivity|].
      right. left. exact Hrest.
Qed.

Lemma deliver_key (k : string) (stack : list json.parseState)
    (fs : list json.frame) :
  in_key stack fs ->
  exists rd, json.deliver (json.Str k) fs = Some rd /\ delivered stack rd.
Proof.
  intros H. destruct stack as [|[] stack], fs as [|[elems|members [key|]] fs];
    cbn in H; try contradiction.
  eexists. split; [reflexivity|]. split; [reflexivity|]. right. right. exact H.
Qed.

Lemma end_literal_pending (rd : json.reader) (item : string)
    (stack : list json.parseState) :
  json.lit rd = Some item -> pending item stack (json.frames rd) ->
  exists rd', json.end_literal rd = Some rd' /\ delivered stack rd'.
Proof.
  intros Hlit [[Hitem Hctx]|[Hitem Hctx]]; unfold json.end_literal; rewrite Hlit.
  - destruct (literal_plain item Hitem) as [v ->]. now apply deliver_nested.
  - destruct (literal_closed item Hitem) as [k ->]. cbn [mbind option_bind].
    destruct Hctx as [Hctx|Hctx]; [now apply deliver_nested|now apply deliver_key].
Qed.

Lemma feed_continue (rd : json.reader) (item : string) (c : ascii) :
  json.lit rd = Some item ->
  json.feed rd c json.scanContinue =
    Some {| json.lit := Some (item ++ String c EmptyString);
            json.frames := json.frames rd; json.top := json.top rd |}.
Proof. intros H. unfold json.feed. now rewrite H. Qed.

Lemma feed_end (rd : json.reader) (c : ascii) (op : json.opcode) :
  op <> json.scanContinue ->
  json.feed rd c op = (rd' ← json.end_literal rd; json.structural rd' c op).
Proof. intros H. unfold json.feed. destruct (json.lit rd), op; congruence. Qed.

Lemma feed_idle (rd : json.reader) (c : ascii) (op : json.opcode) :
  json.lit rd = None -> json.feed rd c op = json.structural rd c op.
Proof. intros H. unfold json.feed, json.end_literal. now rewrite H. Qed.

Lemma in_step_intro (s : json.scanner) (rd : json.reader) :
  json.err s = None -> json.endTop s = false -> json.step s <> json.stateEndTop ->
  holds (json.step s) (json.parseStack s) rd -> in_step s rd.
Proof.
  intros He Ht Hs Hh. split; [exact He|]. split; [|exact Hh].
  rewrite Ht. split; [discriminate|]. intros H. now destruct Hs.
Qed.

Lemma error_at_kept (rd : json.reader) (c : ascii) (s : json.scanner)
    (context : string) (result : option json.reader) :
  kept rd c (json.error_at s c context) result.
Proof. left. split; [reflexivity|discriminate]. Qed.

(** [stateEndValue] after a value or a key has been delivered. *)
Lemma endvalue_kept (s : json.scanner) (c : ascii) (rd : json.reader) :
  json.err s = None -> json.endTop s = false ->
  delivered (json.parseStack s) rd ->
  (json.do_stateEndValue s c).2 <> json.scanContinue
  /\ kept rd c (json.do_stateEndValue s c)
       (json.structural rd c (json.do_stateEndValue s c).2).
Proof.
  intros He Ht [Hlit Hd]. destruct s as [st et stack er n].
  cbn [json.err json.endTop json.parseStack] in *. subst et er.
  unfold json.do_stateEndValue. cbn [json.parseStack].
  destruct stack as [|ps below].
  - destruct Hd as [(_ & Hfs & Htop)|[Hd|Hd]];
      [|cbn in Hd; contradiction|cbn in Hd; contradiction].
    unfold json.do_stateEndTop. destruct (json.isSpace c); cbn [negb fst snd].
    + split; [discriminate|]. right. exists rd. split; [reflexivity|]. left.
      repeat split; cbn; auto.
    + split; [discriminate|]. right. exists rd. split; [reflexivity|]. right.
      split; [reflexivity|discriminate].
  - destruct Hd as [(Hnil & _)|Hd]; [discriminate|].
    destruct (json.isSpace c).
    { split; [discriminate|]. right. exists rd. split; [reflexivity|]. left.
      apply in_step_intro; cbn; try congruence. right. split; [|discriminate].
      split; [exact Hlit|]. right. exact Hd. }
    destruct rd as [l fs tp]. cbn [json.lit json.frames] in *. subst l.
    destruct ps.
    + (* parseObjectKey *)
      destruct Hd as [Hd|Hd]; [destruct fs as [|[] ?]; cbn in Hd; contradiction|].
      destruct (byte_eqb c ":").
      * split; [discriminate|]. right. eexists. split; [reflexivity|]. left.
        apply in_step_intro; cbn; try congruence. split; [reflexivity|].
        destruct fs as [|[elems|members [key|]] fs]; cbn in Hd; try contradiction.
        constructor; [exact I|exact Hd].
      * split; [discriminate|]. apply error_at_kept.
    + (* parseObjectValue *)
      destruct Hd as [Hd|Hd]; [|destruct fs as [|[] ?]; cbn in Hd; contradiction].
      destruct fs as [|[elems|members [key|]] fs]; cbn in Hd; try contradiction.
      destruct (byte_eqb c ",").
      * split; [discriminate|]. right. eexists. split; [reflexivity|]. left.
        apply in_step_intro; cbn; try congruence. split; [reflexivity|exact Hd].
      * destruct (byte_eqb c "}"); [|split; [discriminate|apply error_at_kept]].
        split; [discriminate|]. right. cbn [json.structural json.frames snd].
        destruct (deliver_nested (json.Object members) below fs Hd)
          as (rd' & -> & Hlit' & Hd').
        exists rd'. split; [reflexivity|]. left.
        unfold json.popParseState. cbn [json.parseStack tail fst].
        destruct below as [|ps' below].
        -- destruct Hd' as [(_ & Hfs & Htop)|[Hd'|Hd']];
             [|cbn in Hd'; contradiction|cbn in Hd'; contradiction].
           repeat split; cbn; auto.
        -- apply in_step_intro; cbn; try congruence. right.
           split; [|discriminate]. split; [exact Hlit'|].
           destruct Hd' as [(Hnil & _)|Hd']; [discriminate|right; exact Hd'].
    + (* parseArrayValue *)
      destruct Hd as [Hd|Hd]; [|destruct fs as [|[] ?]; cbn in Hd; contradiction].
      destruct fs as [|[elems|members [key|]] fs]; cbn in Hd; try contradiction.
      destruct (byte_eqb c ",").
      * split; [discriminate|]. right. eexists. split; [reflexivity|]. left.
        apply in_step_intro; cbn; try congruence. split; [reflexivity|].
        constructor; [exact I|exact Hd].
      * destruct (byte_eqb c "]"); [|split; [discriminate|apply error_at_kept]].
        split; [discriminate|]. right. cbn [json.structural json.frames snd].
        destruct (deliver_nested (json.Array elems) below fs Hd)
          as (rd' & -> & Hlit' & Hd').
        exists rd'. split; [reflexivity|]. left.
        unfold json.popParseState. cbn [json.parseStack tail fst].
        destruct below as [|ps' below].
        -- destruct Hd' as [(_ & Hfs & Htop)|[Hd'|Hd']];
             [|cbn in Hd'; contradiction|cbn in Hd'; contradiction].
           repeat split; cbn; auto.
        -- apply in_step_intro; cbn; try congruence. right.
           split; [|discriminate]. split; [exact Hlit'|].
           destruct Hd' as [(Hnil & _)|Hd']; [discriminate|right; exact Hd'].
Qed.

#[local] Arguments String.append !_ _ / : simpl nomatch.

Lemma append_nil (a : string) : a ++ EmptyString = a.
Proof.
  induction a as [|c a IH]; [reflexivity|]. cbn [String.append]. now rewrite IH.
Qed.

Lemma append_append (a b c : string) : (a ++ b) ++ c = a ++ (b ++ c).
Proof.
  induction a as [|d a IH]; [reflexivity|]. cbn [String.append]. now rewrite IH.
Qed.

Lemma plain_literal_app (item tail : string) :
  plain_literal item -> plain_literal (item ++ tail).
Proof. intros (c & rest & -> & H). exists c, (rest ++ tail). now split. Qed.

(** A string literal takes one more byte. *)
Lemma open_string_byte (st : json.state) (item : string) (c : ascii) :
  open_string st item ->
  match st with
  | json.stateInString =>
      (byte_eqb c dquote = true -> closed_string (item ++ String c EmptyString))
      /\ (byte_eqb c "\" = true ->
          open_string json.stateInStringEsc (item ++ String c EmptyString))
      /\ (plain c = true ->
          open_string json.stateInString (item ++ String c EmptyString))
  | json.stateInStringEsc =>
      (escape c = true ->
       open_string json.stateInString (item ++ String c EmptyString))
      /\ (byte_eqb c "u" = true ->
          open_string json.stateInStringEscU (item ++ String c EmptyString))
  | json.stateInStringEscU =>
      json.isHex c = true ->
      open_string json.stateInStringEscU1 (item ++ String c EmptyString)
  | json.stateInStringEscU1 =>
      json.isHex c = true ->
      open_string json.stateInStringEscU12 (item ++ String c EmptyString)
  | json.stateInStringEscU12 =>
      json.isHex c = true ->
      open_string json.stateInStringEscU123 (item ++ String c EmptyString)
  | json.stateInStringEscU123 =>
      json.isHex c = true ->
      open_string json.stateInString (item ++ String c EmptyString)
  | _ => True
  end.
Proof.
  intros (b & tail & -> & Hb & Htail).
  destruct st; try exact I; cbn [unfinished] in Htail.
  - subst tail. rewrite append_nil. repeat split.
    + intros Hc. apply byte_eqb_eq in Hc. subst c. now exists b.
    + intros Hc. apply byte_eqb_eq in Hc. subst c.
      exists b, "\". cbn [String.append]. now repeat split.
    + intros Hc. exists (b ++ String c EmptyString), EmptyString.
      cbn [String.append]. rewrite append_nil. repeat split.
      apply body_app; [exact Hb|]. constructor; [exact Hc|constructor].
  - subst tail. split.
    + intros Hc. exists (b ++ String "\" (String c EmptyString)), EmptyString.
      cbn [String.append]. rewrite append_nil, append_append. repeat split.
      apply body_app; [exact Hb|]. constructor; [exact Hc|constructor].
    + intros Hc. apply byte_eqb_eq in Hc. subst c.
      exists b, "\u". cbn [String.append]. rewrite append_append.
      now repeat split.
  - subst tail. intros Hc. exists b. eexists. cbn [String.append].
    rewrite append_append. split; [reflexivity|]. split; [exact Hb|].
    exists c. now split.
  - destruct Htail as (h1 & -> & H1). intros Hc. exists b. eexists.
    cbn [String.append]. rewrite append_append. split; [reflexivity|].
    split; [exact Hb|]. exists h1, c. now repeat split.
  - destruct Htail as (h1 & h2 & -> & H1 & H2). intros Hc. exists b. eexists.
    cbn [String.append]. rewrite append_append. split; [reflexivity|].
    split; [exact Hb|]. exists h1, h2, c. now repeat split.
  - destruct Htail as (h1 & h2 & h3 & -> & H1 & H2 & H3). intros Hc.
    exists (b ++ String "\" (String "u" (String h1 (String h2 (String h3 (String c EmptyString)))))).
    exists EmptyString. cbn [String.append]. rewrite append_nil, append_append.
    repeat split. apply body_app; [exact Hb|]. now repeat constructor.
Qed.

Lemma in_step_count (s : json.scanner) (rd : json.reader) :
  in_step s rd -> in_step (json.count s) rd.
Proof. now destruct s. Qed.

Lemma in_step_not_top (s : json.scanner) (rd : json.reader) :
  in_step s rd -> json.step s <> json.stateEndTop -> json.endTop s = false.
Proof.
  intros (_ & Htop & _) Hs. destruct (json.endTop s); [|reflexivity].
  destruct Hs. now apply Htop.
Qed.

(** A literal starts where a value or a key is awaited. *)
Lemma start_literal (s : json.scanner) (rd : json.reader) (c : ascii)
    (st : json.state) :
  json.err s = None -> json.endTop s = false -> json.lit rd = None ->
  st <> json.stateEndTop ->
  holds st (json.parseStack s)
    {| json.lit := Some (String c EmptyString); json.frames := json.frames rd;
       json.top := json.top rd |} ->
  kept rd c (json.set_step s st, json.scanBeginLiteral)
    (json.structural rd c json.scanBeginLiteral).
Proof.
  intros He Ht Hlit Hst Hh. right. eexists. split; [reflexivity|]. left.
  apply in_step_intro; assumption.
Qed.

Lemma open_string_start : open_string json.stateInString (String dquote EmptyString).
Proof. exists EmptyString, EmptyString. repeat split. constructor. Qed.

Lemma beginvalue_kept (s : json.scanner) (c : ascii) (rd : json.reader) :
  in_step s rd -> json.step s <> json.stateEndTop ->
  json.lit rd = None -> nested (json.parseStack s) (json.frames rd) ->
  kept rd c (json.do_stateBeginValue s c)
    (json.structural rd c (json.do_stateBeginValue s c).2).
Proof.
  intros Hin Hst Hlit Hctx.
  pose proof (in_step_not_top s rd Hin Hst) as Ht.
  pose proof Hin as (He & _ & _).
  assert (forall st, st <> json.stateEndTop ->
            (forall stack rd', json.lit rd' = Some (String c EmptyString) ->
               json.frames rd' = json.frames rd -> stack = json.parseStack s ->
               holds st stack rd') ->
            kept rd c (json.set_step s st, json.scanBeginLiteral)
              (json.structural rd c json.scanBeginLiteral)) as Hstart.
  { intros st Hne Hh. apply start_literal; try assumption. now apply Hh. }
  unfold json.do_stateBeginValue.
  destruct (json.isSpace c).
  { right. exists rd. split; [reflexivity|]. now left. }
  destruct (byte_eqb c "{").
  { unfold json.pushParseState. cbn [json.set_stack json.set_step json.parseStack].
    destruct (_ <=? _)%N; [|apply error_at_kept].
    right. eexists. split; [reflexivity|]. left.
    apply in_step_intro; cbn; try congruence. split; [reflexivity|exact Hctx]. }
  destruct (byte_eqb c "[").
  { unfold json.pushParseState. cbn [json.set_stack json.set_step json.parseStack].
    destruct (_ <=? _)%N; [|apply error_at_kept].
    right. eexists. split; [reflexivity|]. left.
    apply in_step_intro; cbn; try congruence. split; [reflexivity|].
    split; [|reflexivity]. constructor; [exact I|exact Hctx]. }
  destruct (byte_eqb c dquote) eqn:Eq.
  { apply byte_eqb_eq in Eq. subst c. apply Hstart; [discriminate|].
    intros stack rd' Hl Hf ->. exists (String dquote EmptyString).
    split; [exact Hl|]. split; [exact open_string_start|]. left. now rewrite Hf. }
  assert (forall st,
            (one_of "ntf-" c || json.isDigit c) = true ->
            match st with
            | json.stateNeg | json.state0 | json.state1 | json.stateT
            | json.stateF | json.stateN => True
            | _ => False
            end ->
            kept rd c (json.set_step s st, json.scanBeginLiteral)
              (json.structural rd c json.scanBeginLiteral)) as Hplain.
  { intros st Hc Hs. apply (Hstart st); [now destruct st|].
    intros stack rd' Hl Hf ->.
    assert (exists item, json.lit rd' = Some item /\ plain_literal item
                         /\ nested (json.parseStack s) (json.frames rd')) as G.
    { exists (String c EmptyString). split; [exact Hl|].
      split; [now exists c, EmptyString|]. now rewrite Hf. }
    destruct st; try destruct Hs; exact G. }
  destruct (byte_eqb c "-") eqn:E1;
    [apply Hplain; [|exact I]; apply byte_eqb_eq in E1; now subst c|].
  destruct (byte_eqb c "0") eqn:E2;
    [apply Hplain; [|exact I]; apply byte_eqb_eq in E2; now subst c|].
  destruct (byte_eqb c "t") eqn:E3;
    [apply Hplain; [|exact I]; apply byte_eqb_eq in E3; now subst c|].
  destruct (byte_eqb c "f") eqn:E4;
    [apply Hplain; [|exact I]; apply byte_eqb_eq in E4; now subst c|].
  destruct (byte_eqb c "n") eqn:E5;
    [apply Hplain; [|exact I]; apply byte_eqb_eq in E5; now subst c|].
  destruct (between "1" "9" c) eqn:E6; [|apply error_at_kept].
  apply Hplain; [|exact I]. clear -E6. bytes c; vm_compute in E6; try discriminate; reflexivity.
Qed.

Lemma beginstring_kept (s : json.scanner) (c : ascii) (rd : json.reader) :
  in_step s rd -> json.step s <> json.stateEndTop ->
  json.lit rd = None -> in_key (json.parseStack s) (json.frames rd) ->
  kept rd c (json.do_stateBeginString s c)
    (json.structural rd c (json.do_stateBeginString s c).2).
Proof.
  intros Hin Hst Hlit Hctx.
  pose proof (in_step_not_top s rd Hin Hst) as Ht.
  pose proof Hin as (He & _ & _).
  unfold json.do_stateBeginString.
  destruct (json.isSpace c).
  { right. exists rd. split; [reflexivity|]. now left. }
  destruct (byte_eqb c dquote) eqn:Eq; [|apply error_at_kept].
  apply byte_eqb_eq in Eq. subst c. apply start_literal; try assumption;
    [discriminate|].
  exists (String dquote EmptyString). split; [reflexivity|].
  split; [exact open_string_start|]. now right.
Qed.

(** A literal that waits to be delivered, and a byte that ends it. *)
Lemma pending_kept (s : json.scanner) (c : ascii) (rd : json.reader)
    (item : string) :
  json.err s = None -> json.endTop s = false ->
  json.lit rd = Some item -> pending item (json.parseStack s) (json.frames rd) ->
  kept rd c (json.do_stateEndValue s c)
    (json.feed rd c (json.do_stateEndValue s c).2).
Proof.
  intros He Ht Hlit Hp.
  destruct (end_literal_pending rd item _ Hlit Hp) as (rd1 & Hend & Hd).
  destruct (endvalue_kept s c rd1 He Ht Hd) as [Hop Hk].
  rewrite (feed_end rd c _ Hop), Hend. exact Hk.
Qed.

(** A literal that goes on with the byte [c]. *)
Lemma continue_kept (s : json.scanner) (c : ascii) (rd : json.reader)
    (item : string) (st : json.state) :
  json.err s = None -> json.endTop s = false -> json.lit rd = Some item ->
  st <> json.stateEndTop ->
  holds st (json.parseStack s)
    {| json.lit := Some (item ++ String c EmptyString);
       json.frames := json.frames rd; json.top := json.top rd |} ->
  kept rd c (json.set_step s st, json.scanContinue)
    (json.feed rd c json.scanContinue).
Proof.
  intros He Ht Hlit Hst Hh. right. rewrite (feed_continue rd item c Hlit).
  eexists. split; [reflexivity|]. left. apply in_step_intro; assumption.
Qed.

Lemma continue_kept' (s' : json.scanner) (c : ascii) (rd : json.reader)
    (item : string) :
  json.lit rd = Some item ->
  json.err s' = None -> json.endTop s' = false ->
  json.step s' <> json.stateEndTop ->
  holds (json.step s') (json.parseStack s')
    {| json.lit := Some (item ++ String c EmptyString);
       json.frames := json.frames rd; json.top := json.top rd |} ->
  kept rd c (s', json.scanContinue) (json.feed rd c json.scanContinue).
Proof.
  intros Hlit He Ht Hst Hh. right. rewrite (feed_continue rd item c Hlit).
  eexists. split; [reflexivity|]. left. apply in_step_intro; assumption.
Qed.

(** A literal that is no string takes one more byte. *)
Ltac plain_goes_on item :=
  apply (continue_kept' _ _ _ item); cbn; try congruence; try discriminate;
  eexists; split; [reflexivity|];
  split; [now apply plain_literal_app | assumption].

(** Every step of the scanner on a reader in step with it keeps them in
    step, unless the scanner refuses the byte. *)
Lemma step_kept (s : json.scanner) (rd : json.reader) (c : ascii) :
  in_step s rd ->
  kept rd c (json.stepfn s c) (json.feed rd c (json.stepfn s c).2).
Proof.
  intros Hin. destruct s as [st et stack er n].
  pose proof Hin as (He & Htop & Hh).
  cbn [json.err json.endTop json.step json.parseStack] in He, Htop, Hh.
  subst er. destruct st.
  all: try (assert (et = false) as ->
              by (destruct et; [|reflexivity];
                  destruct Htop as [Htop _]; discriminate (Htop eq_refl))).
  all: unfold json.stepfn; cbn [json.step holds] in *.
  - (* stateBeginValueOrEmpty *)
    destruct Hh as (Hlit & Hctx & Hhead).
    destruct (json.isSpace c).
    { right. exists rd. rewrite (feed_idle _ _ _ Hlit). split; [reflexivity|]. now left. }
    destruct (byte_eqb c "]").
    + rewrite (feed_idle _ _ _ Hlit). apply endvalue_kept; try assumption; try reflexivity.
      split; [exact Hlit|]. right. left.
      destruct Hctx as [|ps f stack fs Hf Hrest]; [discriminate|].
      injection Hhead as ->. destruct f as [elems|members [key|]]; cbn in Hf;
        try contradiction. exact Hrest.
    + rewrite (feed_idle _ _ _ Hlit). apply beginvalue_kept; try assumption. discriminate.
  - (* stateBeginValue *)
    destruct Hh as (Hlit & Hctx). rewrite (feed_idle _ _ _ Hlit).
    apply beginvalue_kept; try assumption. discriminate.
  - (* stateBeginStringOrEmpty *)
    destruct Hh as (Hlit & Hctx).
    destruct (json.isSpace c).
    { right. exists rd. rewrite (feed_idle _ _ _ Hlit). split; [reflexivity|]. now left. }
    destruct (byte_eqb c "}").
    + rewrite (feed_idle _ _ _ Hlit).
      apply endvalue_kept; try reflexivity.
      split; [exact Hlit|]. right. left. cbn [json.parseStack json.set_stack] in *.
      destruct stack as [|[] stack]; cbn in Hctx; try contradiction.
      destruct (json.frames rd) as [|[elems|members [key|]] fs]; cbn in Hctx;
        try contradiction. exact Hctx.
    + rewrite (feed_idle _ _ _ Hlit). apply beginstring_kept; try assumption. discriminate.
  - (* stateBeginString *)
    destruct Hh as (Hlit & Hctx). rewrite (feed_idle _ _ _ Hlit).
    apply beginstring_kept; try assumption. discriminate.
  - (* stateEndValue *)
    destruct Hh as [(item & Hlit & Hp)|[[Hlit Hd] Hne]].
    + now apply (pending_kept _ c rd item).
    + rewrite (feed_idle _ _ _ Hlit). apply endvalue_kept; try assumption; try reflexivity.
      now split.
  - (* stateEndTop *)
    destruct Hh as (Hlit & Hfs & Htp). rewrite (feed_idle _ _ _ Hlit).
    unfold json.do_stateEndTop. destruct (json.isSpace c); cbn [negb fst snd].
    + right. exists rd. split; [reflexivity|]. now left.
    + right. exists rd. split; [reflexivity|]. right.
      split; [reflexivity|discriminate].
  - (* stateInString *)
    destruct Hh as (item & Hlit & Hopen & Hctx).
    pose proof (open_string_byte _ item c Hopen) as (Hq & Hb & Hp).
    destruct (byte_eqb c dquote) eqn:Eq.
    { apply (continue_kept' _ _ _ item); cbn; try congruence.
      left. eexists. split; [reflexivity|]. right. split; [now apply Hq|exact Hctx]. }
    destruct (byte_eqb c "\") eqn:Eb.
    { apply (continue_kept' _ _ _ item); cbn; try congruence.
      eexists. split; [reflexivity|]. split; [now apply Hb|exact Hctx]. }
    destruct (byte_val c <? 32)%nat eqn:El; [apply error_at_kept|].
    apply (continue_kept' _ _ _ item); cbn; try congruence.
    eexists. split; [reflexivity|]. split; [|exact Hctx].
    apply Hp. unfold plain. now rewrite Eq, Eb, El.
  - (* stateInStringEsc *)
    destruct Hh as (item & Hlit & Hopen & Hctx).
    pose proof (open_string_byte _ item c Hopen) as (Hesc & Hu).
    fold (escape c). destruct (escape c) eqn:Ee.
    { apply (continue_kept' _ _ _ item); cbn; try congruence.
      eexists. split; [reflexivity|]. split; [now apply Hesc|exact Hctx]. }
    destruct (byte_eqb c "u") eqn:Eu; [|apply error_at_kept].
    apply (continue_kept' _ _ _ item); cbn; try congruence.
    eexists. split; [reflexivity|]. split; [now apply Hu|exact Hctx].
  - (* stateInStringEscU *)
    destruct Hh as (item & Hlit & Hopen & Hctx).
    pose proof (open_string_byte _ item c Hopen) as Hhex.
    unfold json.expect_hex. destruct (json.isHex c); [|apply error_at_kept].
    apply (continue_kept' _ _ _ item); cbn; try congruence.
    eexists. split; [reflexivity|]. split; [now apply Hhex|exact Hctx].
  - (* stateInStringEscU1 *)
    destruct Hh as (item & Hlit & Hopen & Hctx).
    pose proof (open_string_byte _ item c Hopen) as Hhex.
    unfold json.expect_hex. destruct (json.isHex c); [|apply error_at_kept].
    apply (continue_kept' _ _ _ item); cbn; try congruence.
    eexists. split; [reflexivity|]. split; [now apply Hhex|exact Hctx].
  - (* stateInStringEscU12 *)
    destruct Hh as (item & Hlit & Hopen & Hctx).
    pose proof (open_string_byte _ item c Hopen) as Hhex.
    unfold json.expect_hex. destruct (json.isHex c); [|apply error_at_kept].
    apply (continue_kept' _ _ _ item); cbn; try congruence.
    eexists. split; [reflexivity|]. split; [now apply Hhex|exact Hctx].
  - (* stateInStringEscU123 *)
    destruct Hh as (item & Hlit & Hopen & Hctx).
    pose proof (open_string_byte _ item c Hopen) as Hhex.
    unfold json.expect_hex. destruct (json.isHex c); [|apply error_at_kept].
    apply (continue_kept' _ _ _ item); cbn; try congruence.
    eexists. split; [reflexivity|]. split; [now apply Hhex|exact Hctx].
  - (* stateNeg *)
    destruct Hh as (item & Hlit & Hitem & Hctx). destruct (byte_eqb c "0"); [plain_goes_on item|].
    destruct (between "1" "9" c); [plain_goes_on item|apply error_at_kept].
  - (* state1 *)
    destruct Hh as (item & Hlit & Hitem & Hctx).
    destruct (json.isDigit c);
      [plain_goes_on item|].
    unfold json.do_state0.
    destruct (byte_eqb c ".");
      [plain_goes_on item|].
    destruct (one_of "eE" c);
      [plain_goes_on item|].
    apply (pending_kept _ c rd item); try assumption; try reflexivity. left. now split.
  - (* state0 *)
    destruct Hh as (item & Hlit & Hitem & Hctx).
    unfold json.do_state0.
    destruct (byte_eqb c ".");
      [plain_goes_on item|].
    destruct (one_of "eE" c);
      [plain_goes_on item|].
    apply (pending_kept _ c rd item); try assumption; try reflexivity. left. now split.
  - (* stateDot *)
    destruct Hh as (item & Hlit & Hitem & Hctx). destruct (json.isDigit c); [plain_goes_on item|apply error_at_kept].
  - (* stateDot0 *)
    destruct Hh as (item & Hlit & Hitem & Hctx).
    destruct (json.isDigit c);
      [plain_goes_on item|].
    destruct (one_of "eE" c);
      [plain_goes_on item|].
    apply (pending_kept _ c rd item); try assumption; try reflexivity. left. now split.
  - (* stateE *)
    destruct Hh as (item & Hlit & Hitem & Hctx). destruct (one_of "+-" c); [plain_goes_on item|].
    unfold json.do_stateESign.
    destruct (json.isDigit c); [plain_goes_on item|apply error_at_kept].
  - (* stateESign *)
    destruct Hh as (item & Hlit & Hitem & Hctx). unfold json.do_stateESign.
    destruct (json.isDigit c); [plain_goes_on item|apply error_at_kept].
  - (* stateE0 *)
    destruct Hh as (item & Hlit & Hitem & Hctx).
    destruct (json.isDigit c);
      [plain_goes_on item|].
    apply (pending_kept _ c rd item); try assumption; try reflexivity. left. now split.
  - (* stateT *)
    destruct Hh as (item & Hlit & Hitem & Hctx). unfold json.expect.
    destruct (byte_eqb c _); [plain_goes_on item|apply error_at_kept].
  - destruct Hh as (item & Hlit & Hitem & Hctx). unfold json.expect.
    destruct (byte_eqb c _); [plain_goes_on item|apply error_at_kept].
  - (* stateTru *)
    destruct Hh as (item & Hlit & Hitem & Hctx). unfold json.expect.
    destruct (byte_eqb c _); [|apply error_at_kept].
    apply (continue_kept' _ _ _ item); cbn; try congruence.
    left. eexists. split; [reflexivity|]. left.
    split; [now apply plain_literal_app|assumption].
  - destruct Hh as (item & Hlit & Hitem & Hctx). unfold json.expect.
    destruct (byte_eqb c _); [plain_goes_on item|apply error_at_kept].
  - destruct Hh as (item & Hlit & Hitem & Hctx). unfold json.expect.
    destruct (byte_eqb c _); [plain_goes_on item|apply error_at_kept].
  - destruct Hh as (item & Hlit & Hitem & Hctx). unfold json.expect.
    destruct (byte_eqb c _); [plain_goes_on item|apply error_at_kept].
  - (* stateFals *)
    destruct Hh as (item & Hlit & Hitem & Hctx). unfold json.expect.
    destruct (byte_eqb c _); [|apply error_at_kept].
    apply (continue_kept' _ _ _ item); cbn; try congruence.
    left. eexists. split; [reflexivity|]. left.
    split; [now apply plain_literal_app|assumption].
  - destruct Hh as (item & Hlit & Hitem & Hctx). unfold json.expect.
    destruct (byte_eqb c _); [plain_goes_on item|apply error_at_kept].
  - destruct Hh as (item & Hlit & Hitem & Hctx). unfold json.expect.
    destruct (byte_eqb c _); [plain_goes_on item|apply error_at_kept].
  - (* stateNul *)
    destruct Hh as (item & Hlit & Hitem & Hctx). unfold json.expect.
    destruct (byte_eqb c _); [|apply error_at_kept].
    apply (continue_kept' _ _ _ item); cbn; try congruence.
    left. eexists. split; [reflexivity|]. left.
    split; [now apply plain_literal_app|assumption].
  - (* stateError *)
    destruct Hh.
Qed.

Lemma feed_error (rd : json.reader) (c : ascii) :
  json.feed rd c json.scanError = None.
Proof.
  unfold json.feed, json.end_literal.
  destruct (json.lit rd) as [item|]; [|reflexivity].
  destruct (json.literal item) as [v|]; [|reflexivity]. cbn [mbind option_bind].
  now destruct (json.deliver v (json.frames rd)).
Qed.

Lemma dead_refuses (s : json.scanner) (data : string) :
  dead s -> json.checkValid_from s data <> None.
Proof.
  intros [Hst He]. destruct s as [st et stack er n]. cbn in Hst, He. subst st.
  destruct data as [|c data]; cbn.
  - unfold json.eof. cbn. now destruct er.
  - exact He.
Qed.

(** At the end of a text that the scanner accepts the reader holds the
    value read. *)
Lemma eof_in_step (s : json.scanner) (rd : json.reader) :
  in_step s rd -> json.eof s = None ->
  exists rd', json.end_literal rd = Some rd' /\ is_Some (json.top rd').
Proof.
  intros Hin. destruct s as [st et stack er n].
  pose proof Hin as (He & Htop & Hh).
  cbn [json.err json.endTop json.step json.parseStack] in He, Htop, Hh.
  subst er. unfold json.eof. cbn [json.err json.endTop].
  assert (forall item,
            json.lit rd = Some item -> pending item [] (json.frames rd) ->
            exists rd', json.end_literal rd = Some rd' /\ is_Some (json.top rd'))
    as Htopmost.
  { intros item Hlit Hp.
    destruct (end_literal_pending rd item [] Hlit Hp) as (rd' & Hend & _ & Hd).
    exists rd'. split; [exact Hend|].
    destruct Hd as [(_ & _ & Hv)|[Hd|Hd]]; [exact Hv|destruct Hd|destruct Hd]. }
  destruct st.
  all: try (assert (et = false) as ->
              by (destruct et; [|reflexivity];
                  destruct Htop as [Htop _]; discriminate (Htop eq_refl))).
  all: try (assert (et = true) as -> by (now apply Htop)).
  all: cbn [holds] in Hh.
  all: destruct stack as [|ps stack].
  all: intros Heof; vm_compute in Heof; try discriminate.
  all: try (destruct Hh as (Hlit & _ & Hv); exists rd;
            unfold json.end_literal; now rewrite Hlit).
  all: try (destruct Hh as (item & Hlit & Hitem & Hctx);
            apply (Htopmost item Hlit); left; now split).
  destruct Hh as [(item & Hlit & Hp)|[_ Hne]];
    [now apply (Htopmost item)|now destruct Hne].
Qed.

Lemma read_in_step (data : string) (s : json.scanner) (rd : json.reader) :
  in_step s rd -> json.checkValid_from s data = None ->
  is_Some (json.read_from s rd data).
Proof.
  revert s rd. induction data as [|c data IH]; intros s rd Hin Hvalid.
  - cbn [json.checkValid_from json.read_from] in *.
    destruct (eof_in_step s rd Hin Hvalid) as (rd' & -> & Hv). exact Hv.
  - cbn [json.checkValid_from json.read_from] in *.
    pose proof (step_kept (json.count s) rd c (in_step_count s rd Hin)) as Hk.
    destruct (json.stepfn (json.count s) c) as [s' op].
    destruct Hk as [[Hop He]|(rd' & Hfeed & Hnext)]; cbn [fst snd] in *.
    + subst op. now destruct He.
    + rewrite Hfeed. cbn [mbind option_bind].
      assert (op <> json.scanError) as Hop
        by (intros ->; now rewrite feed_error in Hfeed).
      assert (json.checkValid_from s' data = None) as Hrest
        by (destruct op; congruence).
      destruct Hnext as [Hnext|Hdead]; [now apply IH|].
      now destruct (dead_refuses s' data Hdead).
Qed.

(** The decoder reads a value in every text that [checkValid] accepts: its
    panics are out of reach. *)
Lemma read_valid (data : string) :
  json.checkValid data = None -> is_Some (json.read data).
Proof.
  apply read_in_step. split; [reflexivity|]. split.
  - split; discriminate.
  - split; [reflexivity|constructor].
Qed.

Lemma Unmarshal_returns {T} (fields : list (string * (string -> T -> T)))
    (data : string) (dst : T) :
  is_Some (json.Unmarshal fields data dst).
Proof.
  unfold json.Unmarshal. destruct (json.checkValid data) as [e|] eqn:Hvalid;
    [now eexists|].
  destruct (read_valid data Hvalid) as [v ->]. now eexists.
Qed.

(** ** What the decoder stores in a [reverseProxy] *)

Lemma find_field_names (key : string) :
  json.find_field reverseProxy_fields key =
    if members.names_proxyURL key
    then Some ("proxyURL", fun s (_ : reverseProxy) => {| URL := s |})
    else None.
Proof.
  unfold json.find_field, reverseProxy_fields, members.names_proxyURL.
  cbn [find fst]. destruct (String.eqb "proxyURL" key) eqn:E.
  - apply String.eqb_eq in E. subst key. reflexivity.
  - change (json.foldName "proxyURL") with "PROXYURL".
    rewrite (String.eqb_sym (json.foldName key)).
    now destruct (String.eqb "PROXYURL" (json.foldName key)).
Qed.

(** The members of an object are stored in order: the last string given to
    the field stays, and the first value of a wrong kind is the error. *)
Lemma store_members (ms : list (string * json.value)) (dst : reverseProxy)
    (saved : option error) :
  fold_left (json.store_member reverseProxy_fields) ms (dst, saved) =
    ({| URL := default (URL dst) (members.last_string ms) |},
     match saved with
     | Some e => Some e
     | None => members.mismatch_error ms
     end).
Proof.
  revert dst saved. induction ms as [|[key v] ms IH]; intros [old] saved.
  - cbn. now destruct saved.
  - cbn [fold_left]. unfold json.store_member at 2. cbn [fst snd].
    rewrite find_field_names. unfold members.mismatch_error.
    cbn [members.last_string members.first_mismatch].
    destruct (members.names_proxyURL key).
    + destruct v; rewrite IH; cbn [URL];
        destruct (members.last_string ms), saved; reflexivity.
    + rewrite IH. cbn [URL].
      destruct v, (members.last_string ms), saved; reflexivity.
Qed.

Lemma Unmarshal_object (data : string) (ms : list (string * json.value))
    (rp : reverseProxy) :
  json.checkValid data = None ->
  json.read data = Some (json.Object ms) ->
  json.Unmarshal reverseProxy_fields data rp =
    Some ({| URL := default (URL rp) (members.last_string ms) |},
          members.mismatch_error ms).
Proof.
  intros Hvalid Hread. unfold json.Unmarshal. rewrite Hvalid, Hread.
  cbn [mbind option_bind json.store]. now rewrite store_members.
Qed.

(** Unmarshalling the same text again changes nothing more and returns the
    same error. *)
Lemma Unmarshal_again (data : string) (rp rp' : reverseProxy)
    (e : option error) :
  json.Unmarshal reverseProxy_fields data rp = Some (rp', e) ->
  json.Unmarshal reverseProxy_fields data rp' = Some (rp', e).
Proof.
  unfold json.Unmarshal. destruct (json.checkValid data) as [e0|].
  - now intros [= <- <-].
  - destruct (json.read data) as [v|]; [|discriminate].
    cbn [mbind option_bind]. destruct v as [|b|item|s|elems|ms]; cbn [json.store];
      try (now intros [= <- <-]).
    rewrite !store_members. intros [= <- <-]. cbn [URL]. f_equal. f_equal.
    now destruct (members.last_string ms).
Qed.

(** ** The forwarder and the path handler, whatever the request *)

(** The forwarder returns after one call past its entry: to the error
    handler or to the reverse proxy. *)
Lemma serveReverseProxy_outcome (w : world reverseProxy) :
  exists w' last,
    rp.serveReverseProxy w = Some (tt, w')
    /\ p w' = p w
    /\ calls w' = (calls w ++ [Forward (r w); last])%list
    /\ is_Forward last = false
    /\ xorb (is_ServerErrorHandler last) (is_ServeHTTP last) = true.
Proof.
  destruct (url.Parse (target w)) as [u|e] eqn:H.
  - eexists _, _. rewrite (serveReverseProxy_parsed w u H).
    split; [reflexivity|]. cbn [p calls]. rewrite <- app_assoc. now repeat split.
  - eexists _, _. rewrite (serveReverseProxy_unparsed w e H).
    split; [reflexivity|]. cbn [p calls]. rewrite <- app_assoc. now repeat split.
Qed.

Lemma one_outcome (r0 : http.Request) (last : call) :
  is_Forward last = false ->
  xorb (is_ServerErrorHandler last) (is_ServeHTTP last) = true ->
  count is_ServerErrorHandler [Forward r0; last]
    + count is_ServeHTTP [Forward r0; last] = 1
  /\ count is_Forward [Forward r0; last] = 1.
Proof. now destruct last. Qed.


(** X2.  Whatever the prefix, the request and the stored target, the path
    handler returns after exactly one call to the error handler or to the
    reverse proxy, never both and never twice, and it leaves the stored
    target as it was. *)
Theorem path_handler_one_outcome (path : string) (w : world reverseProxy) :
  exists w',
    PathRequestProxyHandler path w = Some (tt, w')
    /\ count is_ServerErrorHandler (since (calls w) w')
         + count is_ServeHTTP (since (calls w) w') = 1
    /\ count is_Forward (since (calls w) w') <= 1
    /\ p w' = p w.
Proof.
  destruct (String.eqb (target w) EmptyString) eqn:E.
  - apply String.eqb_eq in E. eexists.
    split; [apply PathRequestProxyHandler_unset, E|]. new_calls.
    repeat split. cbn. lia.
  - apply String.eqb_neq in E. rewrite (PathRequestProxyHandler_set path w E).
    destruct (serveReverseProxy_outcome
                (with_request
                   (set_URL_Path
                      (strings.TrimPrefix (url.Path (http.URL (r w))) path) (r w)) w))
      as (w' & last & Hrun & Hp & Hcalls & Hf & Hx).
    cbn [with_request calls p] in Hcalls, Hp.
    exists w'. split; [exact Hrun|]. rewrite (since_app _ _ _ Hcalls).
    match goal with |- context [[Forward ?r0; last]] =>
      destruct (one_outcome r0 last Hf Hx) as [H1 H2] end. rewrite H1, H2.
    repeat split; [lia|exact Hp].
Qed.

(** ** The payload handler, whatever the body *)

Lemma decodeURLFromBody_failing (w : world reverseProxy) (e : error) :
  ioutil.failure (http.Body (r w)) = Some e ->
  rp.decodeURLFromBody w =
    Some (Some e,
          with_request
            (set_Body {| ioutil.unread := EmptyString; ioutil.failure := Some e |}
               (r w)) w).
Proof.
  intros H. unfold rp.decodeURLFromBody. run.
  unfold ioutil.ReadAll. rewrite H. reflexivity.
Qed.

Lemma read_all_body (b : ioutil.ReadCloser) :
  ioutil.failure b = None -> read_all b = (ioutil.unread b, None).
Proof. intros H. unfold read_all, ioutil.ReadAll. cbn. now rewrite H. Qed.

Lemma PayloadRequestProxyHandler_failing (w : world reverseProxy) (e : error) :
  ioutil.failure (http.Body (r w)) = Some e ->
  PayloadRequestProxyHandler w =
    let r' := set_Body {| ioutil.unread := EmptyString; ioutil.failure := Some e |}
                (r w) in
    Some (tt, {| p := p w; r := r';
                 calls := (calls w ++ [ServerErrorHandler r' e])%list |}).
Proof.
  intros H. unfold PayloadRequestProxyHandler. dispatch.
  unfold mbind at 1. unfold M_bind. rewrite (decodeURLFromBody_failing w e H).
  reflexivity.
Qed.

(** X3.  When reading the body fails with the error [e], the payload
    handler calls the error handler once, with [e], and does not forward;
    the stored target is as before, and the bytes read before the failure
    are not put back: the request that the error handler gets, and that the
    handler leaves, has nothing left to read. *)
Theorem payload_handler_reports_read_failure (w : world reverseProxy) (e : error) :
  ioutil.failure (http.Body (r w)) = Some e ->
  exists w',
    PayloadRequestProxyHandler w = Some (tt, w')
    /\ since (calls w) w' = [ServerErrorHandler (r w') e]
    /\ p w' = p w
    /\ read_all (http.Body (r w')) = (EmptyString, Some e).
Proof.
  intros H. rewrite (PayloadRequestProxyHandler_failing w e H).
  eexists. split; [reflexivity|]. new_calls. repeat split.
Qed.

Lemma payload_handler_reports_read_failure_witness :
  let e := errorString "unexpected EOF" in
  let w := sample.serving "http://h:1"
             (sample2.with_Body (sample.NewRequest "/forward/api" "")
                (sample2.failing sample.body_truncated e)) in
  exists w',
    PayloadRequestProxyHandler w = Some (tt, w')
    /\ since (calls w) w' = [ServerErrorHandler (r w') e]
    /\ p w' = p w
    /\ read_all (http.Body (r w')) = (EmptyString, Some e).
Proof.
  intros e w. apply (payload_handler_reports_read_failure w e). reflexivity.
Defined.

(** X4.  Whatever the request, its body and the stored target, the payload
    handler returns (the decoder does not panic) after exactly one call to
    the error handler or to the reverse proxy, never both and never twice. *)
Theorem payload_handler_one_outcome (w : world reverseProxy) :
  exists w',
    PayloadRequestProxyHandler w = Some (tt, w')
    /\ count is_ServerErrorHandler (since (calls w) w')
         + count is_ServeHTTP (since (calls w) w') = 1
    /\ count is_Forward (since (calls w) w') <= 1.
Proof.
  destruct (ioutil.failure (http.Body (r w))) as [e|] eqn:Hfail.
  - rewrite (PayloadRequestProxyHandler_failing w e Hfail).
    eexists. split; [reflexivity|]. new_calls. cbn. lia.
  - pose proof (read_all_body _ Hfail) as Hbody.
    rewrite (PayloadRequestProxyHandler_readable w _ Hbody).
    destruct (Unmarshal_returns reverseProxy_fields
                (ioutil.unread (http.Body (r w))) (proxy (p w)))
      as [[rp' [e|]] ->].
    + eexists. split; [reflexivity|]. new_calls. cbn. lia.
    + destruct (String.eqb (URL rp') EmptyString).
      * eexists. split; [reflexivity|]. new_calls. cbn. lia.
      * match goal with |- context [rp.serveReverseProxy ?w0] =>
          destruct (serveReverseProxy_outcome w0)
            as (w' & last & Hrun & _ & Hcalls & Hf & Hx)
        end.
        cbn [calls r] in Hcalls.
        exists w'. split; [exact Hrun|]. rewrite (since_app _ _ _ Hcalls).
        match goal with |- context [[Forward ?r0; last]] =>
          destruct (one_outcome r0 last Hf Hx) as [H1 H2] end.
        rewrite H1, H2. split; lia.
Qed.

(** X5.  For a body that reads in full as a JSON object,
    [decodeURLFromBody] leaves as stored target the last string that a
    member gives to the field [proxyURL] (the name in any letter case), or
    the target as it was when no member does; it returns the type error of
    the first member that gives the field a value that is neither a string
    nor [null], or no error when there is none; and it puts the body back.
    Members with other names are ignored. *)
Theorem decodeURLFromBody_object (w : world reverseProxy) (body : string)
    (ms : list (string * json.value)) :
  read_all (http.Body (r w)) = (body, None) ->
  json.checkValid body = None ->
  json.read body = Some (json.Object ms) ->
  exists w',
    rp.decodeURLFromBody w = Some (members.mismatch_error ms, w')
    /\ target w' = default (target w) (members.last_string ms)
    /\ read_all (http.Body (r w')) = (body, None)
    /\ r w' = set_Body (ioutil.NopCloser_NewBuffer body) (r w)
    /\ calls w' = calls w.
Proof.
  intros Hbody Hvalid Hread.
  rewrite (decodeURLFromBody_readable w body Hbody),
    (Unmarshal_object body ms _ Hvalid Hread).
  eexists. split; [reflexivity|]. repeat split.
Qed.

Lemma decodeURLFromBody_object_witness :
  let w := sample.serving "http://old:1"
             (sample.NewRequest "/forward/api" sample2.body_three) in
  exists w',
    rp.decodeURLFromBody w
      = Some (Some (UnmarshalTypeError "number" "proxyURL"), w')
    /\ target w' = "http://h:2"
    /\ read_all (http.Body (r w')) = (sample2.body_three, None)
    /\ r w' = set_Body (ioutil.NopCloser_NewBuffer sample2.body_three) (r w)
    /\ calls w' = calls w.
Proof.
  intros w.
  apply (decodeURLFromBody_object w sample2.body_three
           [("proxyURL", json.Str "a"); ("PROXYURL", json.Str "http://h:2");
            ("proxyURL", json.Number "7")]);
    vm_compute; reflexivity.
Defined.

(** X6.  When a member of the object gives the field [proxyURL] a value
    that is neither a string nor [null], the payload handler reports the
    type error of the first such member, once, and does not forward; but a
    string that another member of the same body gives to the field has been
    stored all the same: the last such string is the stored target after
    the request. *)
Theorem payload_handler_type_error_keeps_string (w : world reverseProxy)
    (body : string) (ms : list (string * json.value)) (kind : string) :
  read_all (http.Body (r w)) = (body, None) ->
  json.checkValid body = None ->
  json.read body = Some (json.Object ms) ->
  members.first_mismatch ms = Some kind ->
  exists w',
    PayloadRequestProxyHandler w = Some (tt, w')
    /\ since (calls w) w'
         = [ServerErrorHandler (r w') (UnmarshalTypeError kind "proxyURL")]
    /\ count is_Forward (since (calls w) w') = 0
    /\ target w' = default (target w) (members.last_string ms).
Proof.
  intros Hbody Hvalid Hread Hkind.
  rewrite (PayloadRequestProxyHandler_readable w body Hbody),
    (Unmarshal_object body ms _ Hvalid Hread).
  unfold members.mismatch_error. rewrite Hkind. cbn [fmap option_fmap option_map].
  eexists. split; [reflexivity|]. new_calls. repeat split.
Qed.

Lemma payload_handler_type_error_keeps_string_witness :
  let w := sample.serving ""
             (sample.NewRequest "/forward/api" sample2.body_three) in
  exists w',
    PayloadRequestProxyHandler w = Some (tt, w')
    /\ since (calls w) w'
         = [ServerErrorHandler (r w') (UnmarshalTypeError "number" "proxyURL")]
    /\ count is_Forward (since (calls w) w') = 0
    /\ target w' = "http://h:2".
Proof.
  intros w.
  apply (payload_handler_type_error_keeps_string w sample2.body_three
           [("proxyURL", json.Str "a"); ("PROXYURL", json.Str "http://h:2");
            ("proxyURL", json.Number "7")] "number");
    vm_compute; reflexivity.
Defined.

(** X7.  When no member of the object gives the field [proxyURL] a string
    and none gives it a value of a wrong kind (the field is absent or
    [null]), and a target is stored already, the payload handler does not
    report anything about the body: it forwards the request to the target
    stored before, which stays as it was. *)
Theorem payload_handler_forwards_to_stored_target (w : world reverseProxy)
    (body : string) (ms : list (string * json.value)) :
  target w <> EmptyString ->
  read_all (http.Body (r w)) = (body, None) ->
  json.checkValid body = None ->
  json.read body = Some (json.Object ms) ->
  members.last_string ms = None ->
  members.first_mismatch ms = None ->
  PayloadRequestProxyHandler w
    = rp.serveReverseProxy
        (with_request (set_Body (ioutil.NopCloser_NewBuffer body) (r w)) w)
  /\ exists w',
      PayloadRequestProxyHandler w = Some (tt, w')
      /\ target w' = target w
      /\ count is_Forward (since (calls w) w') = 1.
Proof.
  intros Hset Hbody Hvalid Hread Hlast Hkind.
  assert (PayloadRequestProxyHandler w
          = rp.serveReverseProxy
              (with_request (set_Body (ioutil.NopCloser_NewBuffer body) (r w)) w))
    as Hrun.
  { rewrite (PayloadRequestProxyHandler_readable w body Hbody),
      (Unmarshal_object body ms _ Hvalid Hread).
    unfold members.mismatch_error. rewrite Hkind, Hlast.
    cbn [fmap option_fmap option_map default URL].
    apply String.eqb_neq in Hset. unfold target in Hset. rewrite Hset.
    now destruct w as [[[old]] r0 made]. }
  split; [exact Hrun|]. rewrite Hrun.
  match goal with |- context [rp.serveReverseProxy ?w0] =>
    destruct (serveReverseProxy_outcome w0)
      as (w' & last & Hrun' & Hp & Hcalls & Hf & Hx)
  end.
  cbn [with_request calls r p] in Hcalls, Hp.
  exists w'. split; [exact Hrun'|]. split; [unfold target; now rewrite Hp|].
  rewrite (since_app _ _ _ Hcalls).
  match goal with |- context [[Forward ?r0; last]] =>
    now destruct (one_outcome r0 last Hf Hx) end.
Qed.

Lemma payload_handler_forwards_to_stored_target_witness :
  let w := sample.serving "http://h:1"
             (sample.NewRequest "/forward/api" sample2.body_null) in
  exists w',
    PayloadRequestProxyHandler w = Some (tt, w')
    /\ target w' = "http://h:1"
    /\ count is_Forward (since (calls w) w') = 1.
Proof.
  intros w.
  apply (payload_handler_forwards_to_stored_target w sample2.body_null
           [("proxyURL", json.Null);
            ("other", json.Array [json.Number "1"])]);
    try discriminate; vm_compute; reflexivity.
Defined.

(** ** Requests one after the other *)

(** The kinds of the calls, without the requests and errors they carry. *)
Lemma payload_outcome_by_decoder (w : world reverseProxy) (body : string)
    (rp' : reverseProxy) (e : option error) :
  read_all (http.Body (r w)) = (body, None) ->
  json.Unmarshal reverseProxy_fields body (proxy (p w)) = Some (rp', e) ->
  exists w',
    PayloadRequestProxyHandler w = Some (tt, w')
    /\ proxy (p w') = rp'
    /\ count is_ServeHTTP (since (calls w) w')
       = match e, url.Parse (URL rp') with
         | None, Ok _ => if String.eqb (URL rp') EmptyString then 0 else 1
         | _, _ => 0
         end.
Proof.
  intros Hbody Hdec.
  rewrite (PayloadRequestProxyHandler_readable w body Hbody), Hdec.
  destruct e as [e|].
  { eexists. split; [reflexivity|]. new_calls. now repeat split. }
  destruct (String.eqb (URL rp') EmptyString) eqn:E.
  { eexists. split; [reflexivity|]. new_calls. repeat split.
    now destruct (url.Parse (URL rp')). }
  destruct (url.Parse (URL rp')) as [u|e] eqn:Hparse.
  - erewrite serveReverseProxy_parsed by exact Hparse.
    eexists. split; [reflexivity|]. new_calls. now repeat split.
  - erewrite serveReverseProxy_unparsed by exact Hparse.
    eexists. split; [reflexivity|]. new_calls. now repeat split.
Qed.

(** X8.  Two requests with the same body, one after the other on the same
    proxy: the stored target after the second is the stored target after
    the first, and the second is forwarded exactly when the first was. *)
Theorem payload_handler_twice (w : world reverseProxy) (body : string)
    (r2 : http.Request) :
  read_all (http.Body (r w)) = (body, None) ->
  read_all (http.Body r2) = (body, None) ->
  exists w1 w2,
    PayloadRequestProxyHandler w = Some (tt, w1)
    /\ PayloadRequestProxyHandler (with_request r2 w1) = Some (tt, w2)
    /\ target w2 = target w1
    /\ count is_ServeHTTP (since (calls w1) w2)
       = count is_ServeHTTP (since (calls w) w1).
Proof.
  intros Hbody Hbody2.
  destruct (Unmarshal_returns reverseProxy_fields body (proxy (p w)))
    as [[rp' e] Hdec].
  destruct (payload_outcome_by_decoder w body rp' e Hbody Hdec)
    as (w1 & Hrun1 & Hp1 & Hcount1).
  assert (json.Unmarshal reverseProxy_fields body
            (proxy (p (with_request r2 w1))) = Some (rp', e)) as Hdec2
    by (cbn [with_request p]; rewrite Hp1; exact (Unmarshal_again _ _ _ _ Hdec)).
  destruct (payload_outcome_by_decoder (with_request r2 w1) body rp' e
              Hbody2 Hdec2) as (w2 & Hrun2 & Hp2 & Hcount2).
  exists w1, w2. split; [exact Hrun1|]. split; [exact Hrun2|].
  split; [unfold target; now rewrite Hp1, Hp2|].
  cbn [with_request calls] in Hcount2. now rewrite Hcount1, Hcount2.
Qed.

Lemma payload_handler_twice_witness :
  let w := sample.serving "" (sample.NewRequest "/forward/api" sample.body_h1) in
  let r2 := sample.NewRequest "/forward/other" sample.body_h1 in
  exists w1 w2,
    PayloadRequestProxyHandler w = Some (tt, w1)
    /\ PayloadRequestProxyHandler (with_request r2 w1) = Some (tt, w2)
    /\ target w2 = target w1
    /\ count is_ServeHTTP (since (calls w1) w2)
       = count is_ServeHTTP (since (calls w) w1).
Proof.
  intros w r2. apply (payload_handler_twice w sample.body_h1 r2); reflexivity.
Defined.

(** X9.  The two handlers of one proxy share the stored target: after a
    payload request whose body gives the field [proxyURL] the string [t],
    not empty, and no value of a wrong kind, a path request on the same
    proxy does not report an unset target: it cuts its prefix and enters
    the forwarder, with [t] as the target. *)
Theorem payload_then_path (w : world reverseProxy) (body : string)
    (ms : list (string * json.value)) (t : string) (r2 : http.Request)
    (prefix : string) :
  read_all (http.Body (r w)) = (body, None) ->
  json.checkValid body = None ->
  json.read body = Some (json.Object ms) ->
  members.last_string ms = Some t ->
  members.first_mismatch ms = None ->
  t <> EmptyString ->
  exists w1 w2,
    PayloadRequestProxyHandler w = Some (tt, w1)
    /\ target w1 = t
    /\ PathRequestProxyHandler prefix (with_request r2 w1) = Some (tt, w2)
    /\ target w2 = t
    /\ exists last,
        since (calls w1) w2
          = [Forward (set_URL_Path
                        (strings.TrimPrefix (url.Path (http.URL r2)) prefix) r2);
             last].
Proof.
  intros Hbody Hvalid Hread Hlast Hkind Ht.
  assert (exists w1, PayloadRequestProxyHandler w = Some (tt, w1) /\ target w1 = t)
    as (w1 & Hrun1 & Ht1).
  { rewrite (PayloadRequestProxyHandler_readable w body Hbody),
      (Unmarshal_object body ms _ Hvalid Hread).
    unfold members.mismatch_error. rewrite Hkind, Hlast.
    cbn [fmap option_fmap option_map default URL id].
    apply String.eqb_neq in Ht. rewrite Ht.
    match goal with |- context [rp.serveReverseProxy ?w0] =>
      destruct (serveReverseProxy_outcome w0) as (w1 & last & Hrun & Hp & _)
    end.
    exists w1. split; [exact Hrun|]. unfold target. now rewrite Hp. }
  assert (target (with_request r2 w1) <> EmptyString) as Hset
    by (unfold target in *; cbn [with_request p]; congruence).
  pose proof (PathRequestProxyHandler_set prefix _ Hset) as Hpath.
  match type of Hpath with context [rp.serveReverseProxy ?w0] =>
    destruct (serveReverseProxy_outcome w0)
      as (w2 & last & Hrun2 & Hp2 & Hcalls2 & _)
  end.
  rewrite Hrun2 in Hpath. cbn [with_request calls r p] in Hcalls2, Hp2.
  exists w1, w2. split; [exact Hrun1|]. split; [exact Ht1|].
  split; [exact Hpath|]. split; [unfold target in *; now rewrite Hp2|].
  exists last. now apply since_app.
Qed.

Lemma payload_then_path_witness :
  let w := sample.serving "" (sample.NewRequest "/set" sample.body_h1) in
  let r2 := sample.NewRequest "/forward/api" "" in
  exists w1 w2,
    PayloadRequestProxyHandler w = Some (tt, w1)
    /\ target w1 = "http://h:1"
    /\ PathRequestProxyHandler "/forward" (with_request r2 w1) = Some (tt, w2)
    /\ target w2 = "http://h:1"
    /\ exists last,
        since (calls w1) w2
          = [Forward (set_URL_Path
                        (strings.TrimPrefix (url.Path (http.URL r2)) "/forward") r2);
             last].
Proof.
  intros w r2.
  apply (payload_then_path w sample.body_h1
           [("proxyURL", json.Str "http://h:1")] "http://h:1" r2 "/forward");
    try discriminate; vm_compute; reflexivity.
Defined.

(** ** The earlier [main.go] *)

Lemma store_no_field {T} (v : json.value) (dst : T) :
  (json.store [] v dst).1 = dst.
Proof.
  destruct v as [|b|item|s|elems|ms]; try reflexivity. cbn [json.store].
  assert (forall st : T * option error,
            fold_left (json.store_member []) ms st = st) as ->; [|reflexivity].
  induction ms as [|m ms IH]; intros st; [reflexivity|].
  cbn [fold_left]. rewrite <- (IH st) at 2. f_equal. now destruct st.
Qed.

(** With no field to store in, [json.Unmarshal] returns and leaves the
    destination as it is. *)
Lemma Unmarshal_no_field {T} (data : string) (dst : T) :
  exists e, json.Unmarshal [] data dst = Some (dst, e).
Proof.
  pose proof (Unmarshal_returns [] data dst) as [[dst' e] H]. exists e.
  rewrite H. unfold json.Unmarshal in H.
  destruct (json.checkValid data); [now injection H as <- <-|].
  destruct (json.read data) as [v|]; [|discriminate]. cbn [mbind option_bind] in H.
  injection H as H. pose proof (store_no_field v dst) as Hs.
  rewrite H in Hs. cbn in Hs. now subst.
Qed.

(** X10.  The earlier payload handler never stores anything: the body is
    unmarshalled into the [OKProxy], in which [encoding/json] finds no
    field, so whatever the request and its body, the handler returns with
    the proxy and its stored URL as they were. *)
Theorem earlier_payload_handler_stores_nothing (w : world reverseProxy) :
  exists w',
    earlier.PayloadRequestProxyHandler w = Some (tt, w')
    /\ p w' = p w.
Proof.
  unfold earlier.PayloadRequestProxyHandler, earlier.decodeURLFromBody,
    earlier.Unmarshal_into_OKProxy. run.
  destruct (ioutil.ReadAll (http.Body (r w))) as [[body [e|]] drained].
  - run. eexists. now split.
  - run. destruct (Unmarshal_no_field (T := OKProxy reverseProxy) body (p w))
      as [e He].
    unfold earlier.OKProxy_fields. rewrite He. destruct e as [e|]; run.
    + eexists. now split.
    + match goal with |- context [rp.serveReverseProxy ?w0] =>
        destruct (serveReverseProxy_outcome w0) as (w' & last & Hrun & Hp & _)
      end.
      exists w'. now split.
Qed.

(** X11.  On a proxy made by the earlier [New()], whose stored URL is
    empty, a payload request with a JSON object as its body is handed to the
    reverse proxy for the empty URL, whatever [proxyURL] the body names: the
    error handler is not called, and the request leaves with an empty URL
    host, an empty scheme and an empty host field. *)
Theorem earlier_payload_handler_forwards_to_empty_URL (w : world reverseProxy)
    (body : string) (ms : list (string * json.value)) :
  p w = earlier.New ->
  read_all (http.Body (r w)) = (body, None) ->
  json.checkValid body = None ->
  json.read body = Some (json.Object ms) ->
  exists w' r1,
    earlier.PayloadRequestProxyHandler w = Some (tt, w')
    /\ since (calls w) w' = [Forward r1; ServeHTTP url.zero (r w')]
    /\ url.Host (http.URL (r w')) = EmptyString
    /\ url.Scheme (http.URL (r w')) = EmptyString
    /\ http.Host (r w') = EmptyString
    /\ p w' = earlier.New.
Proof.
  intros Hp Hbody Hvalid Hread. apply read_all_inv in Hbody.
  unfold earlier.PayloadRequestProxyHandler, earlier.decodeURLFromBody,
    earlier.Unmarshal_into_OKProxy. run. rewrite Hbody.
  cbn [ioutil.ReadAll ioutil.NopCloser_NewBuffer ioutil.unread ioutil.failure].
  run. destruct (Unmarshal_no_field (T := OKProxy reverseProxy) body (p w))
    as [e He].
  pose proof He as He'. unfold json.Unmarshal in He'.
  rewrite Hvalid, Hread in He'. cbn [mbind option_bind json.store] in He'.
  assert (e = None) as ->.
  { assert (forall st : OKProxy reverseProxy * option error,
              fold_left (json.store_member []) ms st = st) as Hfold.
    { clear. induction ms as [|m ms IH]; intros st; [reflexivity|].
      cbn [fold_left]. rewrite <- (IH st) at 2. f_equal. now destruct st. }
    rewrite Hfold in He'. now injection He'. }
  unfold earlier.OKProxy_fields. rewrite He. run.
  erewrite serveReverseProxy_parsed
    by (unfold target; cbn [p]; rewrite Hp; reflexivity).
  eexists _, _. split; [reflexivity|]. new_calls. cbn [p r]. now repeat split.
Qed.

Lemma earlier_payload_handler_forwards_to_empty_URL_witness :
  let w := sample2.serving_earlier
             (sample.NewRequest "/forward/api" sample.body_h1) in
  exists w' r1,
    earlier.PayloadRequestProxyHandler w = Some (tt, w')
    /\ since (calls w) w' = [Forward r1; ServeHTTP url.zero (r w')]
    /\ url.Host (http.URL (r w')) = EmptyString
    /\ url.Scheme (http.URL (r w')) = EmptyString
    /\ http.Host (r w') = EmptyString
    /\ p w' = earlier.New.
Proof.
  intros w.
  apply (earlier_payload_handler_forwards_to_empty_URL w sample.body_h1
           [("proxyURL", json.Str "http://h:1")]);
    vm_compute; reflexivity.
Defined.

(** ** The helper of the tests *)

(** X12.  [stringInSlice(s, sl)] is true exactly when [s] is an element of
    [sl]; in particular it is false for the empty slice. *)
Theorem stringInSlice_In (s : string) (sl : list string) :
  sample.stringInSlice s sl = true <-> In s sl.
Proof.
  unfold sample.stringInSlice. rewrite existsb_exists. split.
  - intros (el & Hin & Heq). apply String.eqb_eq in Heq. now subst.
  - intros Hin. exists s. split; [exact Hin|apply String.eqb_refl].
Qed.

(** ** The handlers over the mock of the tests *)

(** X13.  What [TestPathRequestProxyHandler] observes, for every URL of
    the mock, every request and every prefix: with an empty URL the path is
    as it was, the error handler was called and the mock has recorded no
    [serveReverseProxy]; otherwise the path has lost the prefix, the error
    handler was not called and the mock has recorded the call. *)
Theorem path_handler_over_mock (URL prefix : string) (r0 : http.Request) :
  sample.observed (PathRequestProxyHandler prefix (sample.mocking URL r0))
  = Some (if String.eqb URL EmptyString
          then (url.Path (http.URL r0), true, false)
          else (strings.TrimPrefix (url.Path (http.URL r0)) prefix, false, true)).
Proof.
  unfold PathRequestProxyHandler, sample.mocking.
  cbv [mbind M_bind mret M_ret call_with get_request set_request get_proxy
       set_proxy GetProxyURL serveReverseProxy mockReverseProxy_ProxyReverser
       mrp.GetProxyURL mrp.serveReverseProxy].
  cbn [p r calls proxy mrp.URL mrp.calls].
  now destruct (String.eqb URL EmptyString).
Qed.

(** X14.  What [TestPayloadRequestProxyHandler] observes, for every URL of
    the mock and every request: the mock decodes nothing, so the body plays
    no part; the error handler is called exactly when the URL of the mock
    is empty, the mock records [serveReverseProxy] exactly when it is not,
    and the path is as it was. *)
Theorem payload_handler_over_mock (URL : string) (r0 : http.Request) :
  sample.observed (PayloadRequestProxyHandler (sample.mocking URL r0))
  = Some (url.Path (http.URL r0), String.eqb URL EmptyString,
          negb (String.eqb URL EmptyString)).
Proof.
  unfold PayloadRequestProxyHandler, sample.mocking.
  cbv [mbind M_bind mret M_ret call_with get_request set_request get_proxy
       set_proxy GetProxyURL serveReverseProxy decodeURLFromBody
       mockReverseProxy_ProxyReverser
       mrp.GetProxyURL mrp.serveReverseProxy mrp.decodeURLFromBody].
  cbn [p r calls proxy mrp.URL mrp.calls].
  now destruct (String.eqb URL EmptyString).
Qed.

(** ** Targets without a scheme *)

Lemma free_of_app (set a b : string) :
  rawurl.free_of set (a ++ b) = rawurl.free_of set a && rawurl.free_of set b.
Proof.
  unfold rawurl.free_of. induction a as [|c a IH]; [reflexivity|].
  cbn. now rewrite IH, andb_assoc.
Qed.

Lemma Index_free (set s : string) (x : ascii) :
  rawurl.free_of set s = true -> one_of set x = true ->
  strings.Index s (String x EmptyString) = None.
Proof.
  intros Hfree Hx. induction s as [|c s IH]; [reflexivity|].
  unfold rawurl.free_of in Hfree. cbn in Hfree.
  apply andb_true_iff in Hfree as [Hc Hs]. cbn.
  destruct (byte_eqb c x) eqn:E.
  - apply byte_eqb_eq in E. subst c. now rewrite Hx in Hc.
  - cbn. now rewrite (IH Hs).
Qed.

Lemma Cut_free (set s : string) (x : ascii) :
  rawurl.free_of set s = true -> one_of set x = true ->
  strings.Cut s (String x EmptyString) = (s, EmptyString, false).
Proof. intros Hfree Hx. unfold strings.Cut. now rewrite (Index_free set s x). Qed.

Lemma CountByte_free (set s : string) (x : ascii) :
  rawurl.free_of set s = true -> one_of set x = true ->
  strings.CountByte s x = 0.
Proof.
  intros Hfree Hx. induction s as [|c s IH]; [reflexivity|].
  unfold rawurl.free_of in Hfree. cbn in Hfree.
  apply andb_true_iff in Hfree as [Hc Hs]. cbn.
  destruct (byte_eqb c x) eqn:E.
  - apply byte_eqb_eq in E. subst c. now rewrite Hx in Hc.
  - now rewrite (IH Hs).
Qed.

Lemma CTL_app (a b : string) :
  url.stringContainsCTLByte (a ++ b)
  = url.stringContainsCTLByte a || url.stringContainsCTLByte b.
Proof.
  induction a as [|c a IH]; [reflexivity|]. cbn. now rewrite IH, orb_assoc.
Qed.

Lemma scheme_byte_plain (c : ascii) :
  rawurl.scheme_byte c = true ->
  (byte_val c <? byte_val " ")%nat || byte_eqb c "127" = false
  /\ negb (one_of "#?/:*" c) = true.
Proof. bytes c; vm_compute; intuition congruence. Qed.

Lemma letter_scheme_byte (c : ascii) :
  rawurl.letter c = true -> rawurl.scheme_byte c = true.
Proof. unfold rawurl.scheme_byte. now intros ->. Qed.

Lemma scheme_bytes_plain (s : string) :
  textproto.all_bytes rawurl.scheme_byte s = true ->
  url.stringContainsCTLByte s = false /\ rawurl.free_of "#?/:*" s = true.
Proof.
  unfold rawurl.free_of. induction s as [|c s IH]; [now split|].
  cbn [textproto.all_bytes url.stringContainsCTLByte]. intros H.
  apply andb_true_iff in H as [Hc Hs]. destruct (IH Hs) as [H1 H2].
  destruct (scheme_byte_plain c Hc) as [H3 H4]. now rewrite H1, H2, H3, H4.
Qed.

Lemma free_of_fewer (s : string) :
  rawurl.free_of "#?/:*" s = true -> rawurl.free_of "#?" s = true.
Proof.
  unfold rawurl.free_of. induction s as [|c s IH]; [reflexivity|].
  cbn [textproto.all_bytes]. intros H.
  apply andb_true_iff in H as [Hc Hs]. rewrite (IH Hs), andb_true_r.
  revert Hc. clear. cbn [one_of].
  destruct (byte_eqb c "#"), (byte_eqb c "?"); cbn; congruence.
Qed.

(** The loop of [getScheme], past the first byte, runs over the bytes of a
    scheme up to the colon. *)
Lemma getScheme_from_scheme_bytes (host rest : string) (i : nat) :
  textproto.all_bytes rawurl.scheme_byte host = true ->
  url.getScheme_from (S i) (host ++ String ":" rest)
  = Ok (Some (S i + strings.len host)).
Proof.
  unfold strings.len. revert i. induction host as [|c host IH]; intros i Hl.
  - cbn [String.length]. now rewrite Nat.add_0_r.
  - cbn [textproto.all_bytes] in Hl. apply andb_true_iff in Hl as [Hc Hs].
    cbn [String.length] in *.
    change (String c host ++ String ":" rest)
      with (String c (host ++ String ":" rest)).
    cbn [url.getScheme_from]. rewrite (IH (S i) Hs).
    replace (S (S i) + String.length host) with (S i + S (String.length host))
      by lia.
    unfold rawurl.scheme_byte, rawurl.letter in Hc.
    destruct (between "a" "z" c || between "A" "Z" c); [reflexivity|].
    cbn [orb] in Hc. now rewrite Hc.
Qed.

Lemma drop_after_byte (a b : string) (c : ascii) :
  strings.drop (S (strings.len a)) (a ++ String c b) = b.
Proof. unfold strings.len. induction a as [|d a IH]; [reflexivity|exact IH]. Qed.

Lemma getScheme_scheme_colon (c : ascii) (host rest : string) :
  rawurl.letter c = true ->
  textproto.all_bytes rawurl.scheme_byte host = true ->
  url.getScheme (String c host ++ String ":" rest) = Ok (String c host, rest).
Proof.
  intros Hc Hl. unfold url.getScheme.
  replace (url.getScheme_from 0 (String c host ++ String ":" rest))
    with (Ok (A := option nat) (Some (strings.len (String c host)))).
  - cbv [mbind result_bind rbind]. now rewrite take_app, drop_after_byte.
  - change (String c host ++ String ":" rest)
      with (String c (host ++ String ":" rest)).
    cbn [url.getScheme_from]. unfold rawurl.letter in Hc. rewrite Hc.
    now rewrite (getScheme_from_scheme_bytes host rest 0 Hl).
Qed.

(** [url.Parse] reads [host:rest], with a [host] that starts with a letter
    and goes on with bytes of a scheme, as a URL with the scheme [host] and
    the opaque text [rest]. *)
Lemma Parse_scheme_colon (c : ascii) (host rest : string) :
  rawurl.letter c = true ->
  textproto.all_bytes rawurl.scheme_byte host = true ->
  url.stringContainsCTLByte rest = false ->
  rawurl.free_of "#?" rest = true ->
  strings.HasPrefix rest "/" = false ->
  url.Parse (String c host ++ String ":" rest)
  = Ok (rawurl.opaque_URL (strings.map_bytes strings.lower (String c host)) rest).
Proof.
  intros Hc Hl Hctl Hfree Hslash.
  assert (textproto.all_bytes rawurl.scheme_byte (String c host) = true) as Hl'
    by (cbn [textproto.all_bytes]; now rewrite (letter_scheme_byte c Hc)).
  destruct (scheme_bytes_plain _ Hl') as [Hhctl Hhfree].
  assert (rawurl.free_of "#?" (String c host ++ String ":" rest) = true) as Hall.
  { rewrite free_of_app, (free_of_fewer _ Hhfree).
    change (rawurl.free_of "#?" (String ":" rest))
      with (negb (one_of "#?" ":") && rawurl.free_of "#?" rest).
    now rewrite Hfree. }
  unfold url.Parse. rewrite (Cut_free "#?" _ "#" Hall eq_refl).
  unfold url.parse. rewrite CTL_app, Hhctl.
  cbn [orb url.stringContainsCTLByte]. rewrite Hctl. cbn [orb].
  replace (byte_val ":" <? byte_val " ")%nat with false by reflexivity.
  replace (byte_eqb ":" "127") with false by reflexivity. cbn [orb].
  assert (String.eqb (String c host ++ String ":" rest) "*" = false) as ->.
  { cbn. destruct (Ascii.eqb c "*") eqn:E; [|reflexivity].
    apply Ascii.eqb_eq in E. now subst c. }
  rewrite (getScheme_scheme_colon c host rest Hc Hl).
  cbv [mbind result_bind rbind].
  rewrite (CountByte_free "#?" rest "?" Hfree eq_refl), andb_false_r.
  rewrite (Cut_free "#?" rest "?" Hfree eq_refl).
  rewrite Hslash. reflexivity.
Qed.

(** X15.  A target written [host:rest] without a scheme, [host] starting
    with a letter and going on with letters, digits, [+], [-] and [.], is
    parsed with [host] as the scheme and no host at all: the forwarder
    reports nothing and hands the request to the reverse proxy with an
    empty URL host and an empty host field, and with [host] in lower case
    as the URL scheme. *)
Theorem forwarder_takes_host_for_scheme (w : world reverseProxy) (c : ascii)
    (host rest : string) :
  target w = String c host ++ String ":" rest ->
  rawurl.letter c = true ->
  textproto.all_bytes rawurl.scheme_byte host = true ->
  url.stringContainsCTLByte rest = false ->
  rawurl.free_of "#?" rest = true ->
  strings.HasPrefix rest "/" = false ->
  exists w',
    rp.serveReverseProxy w = Some (tt, w')
    /\ since (calls w) w'
         = [Forward (r w);
            ServeHTTP (rawurl.opaque_URL
                         (strings.map_bytes strings.lower (String c host)) rest)
                      (r w')]
    /\ url.Host (http.URL (r w')) = EmptyString
    /\ http.Host (r w') = EmptyString
    /\ url.Scheme (http.URL (r w'))
         = strings.map_bytes strings.lower (String c host).
Proof.
  intros Ht Hc Hl Hctl Hfree Hslash.
  pose proof (Parse_scheme_colon c host rest Hc Hl Hctl Hfree Hslash) as Hparse.
  rewrite <- Ht in Hparse. rewrite (serveReverseProxy_parsed w _ Hparse).
  eexists. split; [reflexivity|]. new_calls. now repeat split.
Qed.

Lemma forwarder_takes_host_for_scheme_witness :
  let w := sample.serving "localhost:3000" (sample.NewRequest "/api" "") in
  exists w',
    rp.serveReverseProxy w = Some (tt, w')
    /\ since (calls w) w'
         = [Forward (r w);
            ServeHTTP (rawurl.opaque_URL "localhost" "3000") (r w')]
    /\ url.Host (http.URL (r w')) = EmptyString
    /\ http.Host (r w') = EmptyString
    /\ url.Scheme (http.URL (r w')) = "localhost".
Proof.
  intros w.
  apply (forwarder_takes_host_for_scheme w "l" "ocalhost" "3000"); reflexivity.
Defined.

Lemma Index_app_free (set a b : string) (x : ascii) :
  rawurl.free_of set a = true -> one_of set x = true ->
  strings.Index (a ++ b) (String x EmptyString)
  = Nat.add (strings.len a) <$> strings.Index b (String x EmptyString).
Proof.
  intros Hfree Hx. unfold strings.len. induction a as [|c a IH].
  - cbn [String.append String.length]. now destruct (strings.Index b _).
  - unfold rawurl.free_of in Hfree. cbn [textproto.all_bytes] in Hfree.
    apply andb_true_iff in Hfree as [Hc Hs].
    change (String c a ++ b) with (String c (a ++ b)).
    cbn [strings.Index strings.HasPrefix String.length].
    destruct (byte_eqb c x) eqn:E.
    + apply byte_eqb_eq in E. subst c. now rewrite Hx in Hc.
    + cbn [andb]. rewrite (IH Hs).
      now destruct (strings.Index b (String x EmptyString)).
Qed.

Lemma take_more (a b : string) (i : nat) :
  strings.take (strings.len a + i) (a ++ b) = a ++ strings.take i b.
Proof. unfold strings.len. induction a as [|c a IH]; [reflexivity|]. cbn. now rewrite IH. Qed.

(** The text before the first [x] of [a ++ b], when [a] has none. *)
Lemma Cut_app_free (set a b : string) (x : ascii) :
  rawurl.free_of set a = true -> one_of set x = true ->
  (strings.Cut (a ++ b) (String x EmptyString)).1.1
  = a ++ (strings.Cut b (String x EmptyString)).1.1.
Proof.
  intros Hfree Hx. unfold strings.Cut. rewrite (Index_app_free set a b x Hfree Hx).
  destruct (strings.Index b (String x EmptyString)) as [i|]; cbn [fmap option_fmap option_map fst].
  - apply take_more.
  - reflexivity.
Qed.

Lemma Contains_byte (a b : string) (x : ascii) :
  strings.Contains (a ++ String x b) (String x EmptyString) = true.
Proof.
  unfold strings.Contains. induction a as [|c a IH].
  - cbn. now rewrite Ascii.eqb_refl.
  - change (String c a ++ String x b) with (String c (a ++ String x b)).
    cbn [strings.Index].
    destruct (strings.HasPrefix (String c (a ++ String x b)) (String x EmptyString));
      [reflexivity|].
    now destruct (strings.Index (a ++ String x b) (String x EmptyString)).
Qed.

(** [url.Parse] refuses [seg:tail] when [seg] does not start with a letter:
    no scheme is found, and a first path segment must not hold a colon. *)
Lemma Parse_no_scheme_colon (d : ascii) (seg tail : string) :
  rawurl.letter d = false ->
  rawurl.free_of "#?/:" (String d seg) = true ->
  rawurl.free_of "#?" tail = true ->
  url.stringContainsCTLByte (String d seg ++ String ":" tail) = false ->
  url.Parse (String d seg ++ String ":" tail)
  = Err (url_Error "parse" (String d seg ++ String ":" tail)
           (errorString "first path segment in URL cannot contain colon")).
Proof.
  intros Hd Hseg Htail Hctl.
  assert (rawurl.free_of "#?" (String d seg) = true
          /\ rawurl.free_of "/" (String d seg) = true
          /\ byte_eqb d ":" = false /\ byte_eqb d "/" = false)
    as (Hseg1 & Hseg2 & Hcolon & Hslash).
  { revert Hseg. clear. unfold rawurl.free_of.
    cbn [textproto.all_bytes one_of]. intros H.
    apply andb_true_iff in H as [Hc Hs].
    destruct (byte_eqb d "#"), (byte_eqb d "?"), (byte_eqb d "/"),
      (byte_eqb d ":"); try discriminate. cbn [negb orb andb].
    repeat split; revert Hs; clear; induction seg as [|c seg IH];
      cbn [textproto.all_bytes one_of]; try reflexivity;
      intros H; apply andb_true_iff in H as [Hc Hs]; rewrite (IH Hs);
      destruct (byte_eqb c "#"), (byte_eqb c "?"), (byte_eqb c "/"),
        (byte_eqb c ":"); try discriminate; reflexivity. }
  set (t := String d seg ++ String ":" tail) in *.
  assert (rawurl.free_of "#?" t = true) as Hall.
  { unfold t. rewrite free_of_app, Hseg1.
    change (rawurl.free_of "#?" (String ":" tail))
      with (negb (one_of "#?" ":") && rawurl.free_of "#?" tail).
    now rewrite Htail. }
  unfold url.Parse. rewrite (Cut_free "#?" t "#" Hall eq_refl).
  unfold url.parse. rewrite Hctl.
  assert (String.eqb t "*" = false) as ->.
  { unfold t. change (String d seg ++ String ":" tail)
      with (String d (seg ++ String ":" tail)).
    cbn [String.eqb]. destruct (Ascii.eqb d "*"); [|reflexivity].
    now destruct seg. }
  assert (url.getScheme t = Ok (EmptyString, t)) as ->.
  { unfold url.getScheme, t.
    change (String d seg ++ String ":" tail)
      with (String d (seg ++ String ":" tail)).
    cbn [url.getScheme_from]. unfold rawurl.letter in Hd. rewrite Hd, Hcolon.
    now destruct (between "0" "9" d || one_of "+-." d). }
  cbv [mbind result_bind rbind]. cbn [strings.map_bytes].
  rewrite (CountByte_free "#?" t "?" Hall eq_refl), andb_false_r.
  rewrite (Cut_free "#?" t "?" Hall eq_refl).
  change (String.eqb EmptyString EmptyString) with true. cbn [negb].
  rewrite andb_false_r.
  assert (strings.HasPrefix t "/" = false) as ->.
  { unfold t. change (String d seg ++ String ":" tail)
      with (String d (seg ++ String ":" tail)).
    cbn [strings.HasPrefix]. now rewrite Hslash. }
  assert (strings.Contains (strings.Cut t "/").1.1 ":" = true) as ->.
  { unfold t. rewrite (Cut_app_free "/" (String d seg) _ "/" Hseg2 eq_refl).
    unfold strings.Cut.
    destruct (strings.Index (String ":" tail) "/") as [[|i]|] eqn:E;
      cbn [fst]; try apply Contains_byte.
    cbn in E. destruct (strings.Index tail "/"); discriminate. }
  reflexivity.
Qed.

(** X16.  A target written [seg:tail] without a scheme, [seg] starting with
    a byte that is not a letter (a digit, as in an IP address with a port),
    does not parse: the forwarder reports the error of [url.Parse], that the
    first path segment cannot contain a colon, and returns without a call
    to the reverse proxy and without a change to the request. *)
Theorem forwarder_refuses_address_without_scheme (w : world reverseProxy)
    (d : ascii) (seg tail : string) :
  target w = String d seg ++ String ":" tail ->
  rawurl.letter d = false ->
  rawurl.free_of "#?/:" (String d seg) = true ->
  rawurl.free_of "#?" tail = true ->
  url.stringContainsCTLByte (target w) = false ->
  exists w',
    rp.serveReverseProxy w = Some (tt, w')
    /\ since (calls w) w'
         = [Forward (r w);
            ServerErrorHandler (r w)
              (url_Error "parse" (target w)
                 (errorString "first path segment in URL cannot contain colon"))]
    /\ r w' = r w
    /\ p w' = p w.
Proof.
  intros Ht Hd Hseg Htail Hctl. rewrite Ht in Hctl.
  pose proof (Parse_no_scheme_colon d seg tail Hd Hseg Htail Hctl) as Hparse.
  rewrite <- Ht in Hparse. rewrite (serveReverseProxy_unparsed w _ Hparse).
  eexists. split; [reflexivity|]. new_calls. now repeat split.
Qed.

Lemma forwarder_refuses_address_without_scheme_witness :
  let w := sample.serving "127.0.0.1:8080" (sample.NewRequest "/api" "") in
  exists w',
    rp.serveReverseProxy w = Some (tt, w')
    /\ since (calls w) w'
         = [Forward (r w);
            ServerErrorHandler (r w)
              (url_Error "parse" "127.0.0.1:8080"
                 (errorString "first path segment in URL cannot contain colon"))]
    /\ r w' = r w
    /\ p w' = p w.
Proof.
  intros w.
  apply (forwarder_refuses_address_without_scheme w "1" "27.0.0.1" "8080");
    reflexivity.
Defined.

(** ** Targets with a scheme and a host *)

Lemma authority_byte_plain (c : ascii) :
  rawurl.authority_byte c = true ->
  byte_eqb c "%" = false
  /\ (byte_val c <? 128)%nat && url.shouldEscape c url.encodeHost = false
  /\ (byte_val c <? byte_val " ")%nat || byte_eqb c "127" = false
  /\ negb (one_of "#?/@[" c) = true.
Proof. bytes c; vm_compute; intuition congruence. Qed.

Lemma host_byte_authority (c : ascii) :
  rawurl.host_byte c = true ->
  rawurl.authority_byte c = true /\ byte_eqb c ":" = false.
Proof. bytes c; vm_compute; intuition congruence. Qed.

Lemma digit_authority (c : ascii) :
  between "0" "9" c = true ->
  rawurl.authority_byte c = true /\ byte_eqb c ":" = false.
Proof. bytes c; vm_compute; intuition congruence. Qed.

Lemma unescape_check_byte (mode : url.encoding) (c : ascii) (rest : string) :
  byte_eqb c "%" = false ->
  url.unescape_check mode (String c rest)
  = if url.is_host_mode mode && (byte_val c <? 128)%nat
       && url.shouldEscape c url.encodeHost
    then Some (InvalidHostError (String c EmptyString))
    else url.unescape_check mode rest.
Proof. bytes c; intros H; try discriminate H; reflexivity. Qed.

Lemma unescape_bytes_byte (c : ascii) (rest : string) :
  byte_eqb c "%" = false ->
  url.unescape_bytes url.encodeHost (String c rest)
  = String c (url.unescape_bytes url.encodeHost rest).
Proof. bytes c; intros H; try discriminate H; reflexivity. Qed.

(** A host made of such bytes has nothing to unescape. *)
Lemma unescape_authority (s : string) :
  textproto.all_bytes rawurl.authority_byte s = true ->
  url.unescape s url.encodeHost = Ok s.
Proof.
  intros H. unfold url.unescape.
  assert (url.unescape_check url.encodeHost s = None
          /\ url.unescape_bytes url.encodeHost s = s) as [-> ->]; [|reflexivity].
  induction s as [|c s IH]; [now split|].
  cbn [textproto.all_bytes] in H. apply andb_true_iff in H as [Hc Hs].
  destruct (IH Hs) as [IH1 IH2].
  destruct (authority_byte_plain c Hc) as (Hp & Hesc & _).
  rewrite (unescape_check_byte _ c s Hp), (unescape_bytes_byte c s Hp).
  cbn [url.is_host_mode andb]. now rewrite Hesc, IH1, IH2.
Qed.

Lemma authority_bytes_plain (s : string) :
  textproto.all_bytes rawurl.authority_byte s = true ->
  url.stringContainsCTLByte s = false /\ rawurl.free_of "#?/@[" s = true.
Proof.
  unfold rawurl.free_of. induction s as [|c s IH]; [now split|].
  cbn [textproto.all_bytes url.stringContainsCTLByte]. intros H.
  apply andb_true_iff in H as [Hc Hs]. destruct (IH Hs) as [H1 H2].
  destruct (authority_byte_plain c Hc) as (_ & _ & H3 & H4).
  now rewrite H1, H2, H3, H4.
Qed.

Lemma all_bytes_app (f : ascii -> bool) (a b : string) :
  textproto.all_bytes f (a ++ b)
  = textproto.all_bytes f a && textproto.all_bytes f b.
Proof.
  induction a as [|c a IH]; [reflexivity|].
  change (String c a ++ b) with (String c (a ++ b)).
  cbn [textproto.all_bytes]. now rewrite IH, andb_assoc.
Qed.

Lemma all_bytes_impl (f g : ascii -> bool) (s : string) :
  (forall c, f c = true -> g c = true) ->
  textproto.all_bytes f s = true -> textproto.all_bytes g s = true.
Proof.
  intros Hfg. induction s as [|c s IH]; [reflexivity|].
  cbn [textproto.all_bytes]. intros H. apply andb_true_iff in H as [Hc Hs].
  now rewrite (Hfg c Hc), (IH Hs).
Qed.

Lemma free_of_sub (set1 set2 s : string) :
  (forall c, one_of set2 c = true -> one_of set1 c = true) ->
  rawurl.free_of set1 s = true -> rawurl.free_of set2 s = true.
Proof.
  intros Hsub. apply all_bytes_impl. intros c Hc.
  destruct (one_of set2 c) eqn:E; [|reflexivity].
  now rewrite (Hsub c E) in Hc.
Qed.

Lemma LastIndex_absent (s : string) (x : ascii) :
  textproto.all_bytes (fun c => negb (byte_eqb c x)) s = true ->
  strings.LastIndex s (String x EmptyString) = None.
Proof.
  induction s as [|c s IH]; [reflexivity|].
  cbn [textproto.all_bytes]. intros H. apply andb_true_iff in H as [Hc Hs].
  cbn [strings.LastIndex strings.HasPrefix]. rewrite (IH Hs).
  now destruct (byte_eqb c x).
Qed.

Lemma LastIndex_last (a b : string) (x : ascii) :
  textproto.all_bytes (fun c => negb (byte_eqb c x)) b = true ->
  strings.LastIndex (a ++ String x b) (String x EmptyString)
  = Some (strings.len a).
Proof.
  intros Hb. unfold strings.len. induction a as [|c a IH].
  - cbn [String.append strings.LastIndex strings.HasPrefix String.length].
    rewrite (LastIndex_absent b x Hb). unfold byte_eqb.
    now rewrite Ascii.eqb_refl.
  - change (String c a ++ String x b) with (String c (a ++ String x b)).
    cbn [strings.LastIndex String.length]. now rewrite IH.
Qed.

(** [parseHost] returns a host name or an address, with or without a
    port, as it is. *)
Lemma parseHost_plain (host port : string) :
  textproto.all_bytes rawurl.host_byte host = true ->
  url.validOptionalPort port = true ->
  url.parseHost (host ++ port) = Ok (host ++ port)
  /\ textproto.all_bytes rawurl.authority_byte (host ++ port) = true.
Proof.
  intros Hhost Hport.
  assert (textproto.all_bytes rawurl.authority_byte host = true) as Hh1
    by (apply (all_bytes_impl rawurl.host_byte); [apply host_byte_authority|exact Hhost]).
  assert (textproto.all_bytes (fun c => negb (byte_eqb c ":")) host = true) as Hh2.
  { apply (all_bytes_impl rawurl.host_byte); [|exact Hhost].
    intros c Hc. now rewrite (proj2 (host_byte_authority c Hc)). }
  assert (textproto.all_bytes rawurl.authority_byte port = true) as Hp1.
  { destruct port as [|c digits]; [reflexivity|].
    cbn [url.validOptionalPort] in Hport.
    apply andb_true_iff in Hport as [Hc Hd].
    apply byte_eqb_eq in Hc. subst c. cbn [textproto.all_bytes].
    change (rawurl.authority_byte ":") with true. cbn [andb].
    apply (all_bytes_impl (between "0" "9")); [apply digit_authority|exact Hd]. }
  assert (textproto.all_bytes rawurl.authority_byte (host ++ port) = true) as Hall
    by now rewrite all_bytes_app, Hh1, Hp1.
  split; [|exact Hall].
  unfold url.parseHost.
  assert (strings.HasPrefix (host ++ port) "[" = false) as ->.
  { destruct (host ++ port) as [|c s]; [reflexivity|].
    cbn [textproto.all_bytes] in Hall. apply andb_true_iff in Hall as [Hc _].
    cbn [strings.HasPrefix]. revert Hc. clear.
    bytes c; vm_compute; congruence. }
  destruct port as [|c digits].
  - rewrite append_nil in *. rewrite (LastIndex_absent host ":" Hh2).
    exact (unescape_authority host Hall).
  - pose proof Hport as Hport'. cbn [url.validOptionalPort] in Hport'.
    apply andb_true_iff in Hport' as [Hc Hd].
    apply byte_eqb_eq in Hc. subst c.
    rewrite (LastIndex_last host digits ":")
      by (apply (all_bytes_impl (between "0" "9")); [|exact Hd];
          intros c Hc; now rewrite (proj2 (digit_authority c Hc))).
    rewrite drop_app, Hport. cbn [negb].
    exact (unescape_authority _ Hall).
Qed.

(** [url.Parse] on [scheme://host] and [scheme://host:port]. *)
Lemma Parse_scheme_host (c : ascii) (scheme host port : string) :
  rawurl.letter c = true ->
  textproto.all_bytes rawurl.scheme_byte scheme = true ->
  textproto.all_bytes rawurl.host_byte host = true ->
  url.validOptionalPort port = true ->
  url.Parse (String c scheme ++ String ":" ("//" ++ host ++ port))
  = Ok (rawurl.host_URL (strings.map_bytes strings.lower (String c scheme))
          (host ++ port)).
Proof.
  intros Hc Hl Hhost Hport.
  destruct (parseHost_plain host port Hhost Hport) as [HparseHost Hauth].
  set (H := host ++ port) in *.
  destruct (authority_bytes_plain H Hauth) as [Hctl Hfree].
  assert (textproto.all_bytes rawurl.scheme_byte (String c scheme) = true) as Hl'
    by (cbn [textproto.all_bytes]; now rewrite (letter_scheme_byte c Hc)).
  destruct (scheme_bytes_plain _ Hl') as [Hsctl Hsfree].
  assert (rawurl.free_of "#?" H = true) as Hfree2.
  { apply (free_of_sub "#?/@[" "#?" H); [|exact Hfree]. intros d. cbn [one_of].
    destruct (byte_eqb d "#"), (byte_eqb d "?"); cbn; congruence. }
  assert (rawurl.free_of "#?" ("//" ++ H) = true) as Hrest
    by (change ("//" ++ H) with (String "/" (String "/" H));
        unfold rawurl.free_of in *; cbn [textproto.all_bytes];
        now rewrite Hfree2).
  assert (rawurl.free_of "#?" (String c scheme ++ String ":" ("//" ++ H)) = true)
    as Hall.
  { rewrite free_of_app, (free_of_fewer _ Hsfree).
    change (rawurl.free_of "#?" (String ":" ("//" ++ H)))
      with (negb (one_of "#?" ":") && rawurl.free_of "#?" ("//" ++ H)).
    now rewrite Hrest. }
  unfold url.Parse. rewrite (Cut_free "#?" _ "#" Hall eq_refl).
  unfold url.parse. rewrite CTL_app, Hsctl.
  change ("//" ++ H) with (String "/" (String "/" H)) in *.
  cbn [orb url.stringContainsCTLByte]. rewrite Hctl.
  replace (byte_val ":" <? byte_val " ")%nat with false by reflexivity.
  replace (byte_eqb ":" "127") with false by reflexivity.
  replace (byte_val "/" <? byte_val " ")%nat with false by reflexivity.
  replace (byte_eqb "/" "127") with false by reflexivity. cbn [orb].
  assert (String.eqb (String c scheme ++ String ":" (String "/" (String "/" H)))
            "*" = false) as ->.
  { cbn. destruct (Ascii.eqb c "*") eqn:E; [|reflexivity].
    apply Ascii.eqb_eq in E. now subst c. }
  rewrite (getScheme_scheme_colon c scheme _ Hc Hl).
  cbv [mbind result_bind rbind].
  rewrite (CountByte_free "#?" _ "?" Hrest eq_refl), andb_false_r.
  rewrite (Cut_free "#?" _ "?" Hrest eq_refl).
  cbn [strings.HasPrefix strings.map_bytes String.eqb negb andb orb
       strings.drop].
  change (byte_eqb "/" "/") with true. cbn [andb negb orb].
  rewrite (Index_free "#?/@[" H "/" Hfree eq_refl).
  unfold url.parseAuthority.
  rewrite (LastIndex_absent H "@").
  2:{ apply (all_bytes_impl (fun d => negb (one_of "#?/@[" d))); [|exact Hfree].
      intros d. cbn [one_of]. destruct (byte_eqb d "@"); [|reflexivity].
      now rewrite !orb_true_r. }
  rewrite HparseHost. reflexivity.
Qed.

(** X17.  For a target [scheme://host] or [scheme://host:port], the host a
    name or an address made of letters, digits, [-] and [.], the port made
    of digits, the forwarder reports nothing: it calls the reverse proxy
    once, for the URL with that scheme in lower case and that host with its
    port, and the request leaves with them as its URL scheme, URL host and
    host field. *)
Theorem forwarder_forwards_to_plain_target (w : world reverseProxy) (c : ascii)
    (scheme host port : string) :
  target w = String c scheme ++ String ":" ("//" ++ host ++ port) ->
  rawurl.letter c = true ->
  textproto.all_bytes rawurl.scheme_byte scheme = true ->
  textproto.all_bytes rawurl.host_byte host = true ->
  url.validOptionalPort port = true ->
  exists w',
    rp.serveReverseProxy w = Some (tt, w')
    /\ since (calls w) w'
         = [Forward (r w);
            ServeHTTP (rawurl.host_URL
                         (strings.map_bytes strings.lower (String c scheme))
                         (host ++ port))
                      (r w')]
    /\ url.Scheme (http.URL (r w'))
         = strings.map_bytes strings.lower (String c scheme)
    /\ url.Host (http.URL (r w')) = host ++ port
    /\ http.Host (r w') = host ++ port.
Proof.
  intros Ht Hc Hl Hhost Hport.
  pose proof (Parse_scheme_host c scheme host port Hc Hl Hhost Hport) as Hparse.
  rewrite <- Ht in Hparse. rewrite (serveReverseProxy_parsed w _ Hparse).
  eexists. split; [reflexivity|]. new_calls. now repeat split.
Qed.

Lemma forwarder_forwards_to_plain_target_witness :
  let w := sample.serving "HTTPS://127.0.0.1:8080" (sample.NewRequest "/api" "") in
  exists w',
    rp.serveReverseProxy w = Some (tt, w')
    /\ since (calls w) w'
         = [Forward (r w);
            ServeHTTP (rawurl.host_URL "https" "127.0.0.1:8080") (r w')]
    /\ url.Scheme (http.URL (r w')) = "https"
    /\ url.Host (http.URL (r w')) = "127.0.0.1:8080"
    /\ http.Host (r w') = "127.0.0.1:8080".
Proof.
  intros w.
  apply (forwarder_forwards_to_plain_target w "H" "TTPS" "127.0.0.1" ":8080");
    reflexivity.
Defined.

(** ** Bodies that name a target *)

















(** X20.  From the path to the reverse proxy: on a proxy whose target is
    [scheme://host] or [scheme://host:port], a path request is handed to the
    reverse proxy for that scheme and host, its path without the prefix of
    the handler, the host with its port as URL host and host field, and the
    header [X-Forwarded-Host] holding the one value that the header [Host]
    of the request had first (empty when it had none); the error handler is
    not called. *)
Theorem path_handler_forwards_to_plain_target (w : world reverseProxy)
    (prefix : string) (c : ascii) (scheme host port : string) :
  target w = String c scheme ++ String ":" ("//" ++ host ++ port) ->
  rawurl.letter c = true ->
  textproto.all_bytes rawurl.scheme_byte scheme = true ->
  textproto.all_bytes rawurl.host_byte host = true ->
  url.validOptionalPort port = true ->
  exists w' r1,
    PathRequestProxyHandler prefix w = Some (tt, w')
    /\ since (calls w) w'
         = [Forward r1;
            ServeHTTP (rawurl.host_URL
                         (strings.map_bytes strings.lower (String c scheme))
                         (host ++ port))
                      (r w')]
    /\ url.Path (http.URL (r w'))
       = strings.TrimPrefix (url.Path (http.URL (r w))) prefix
    /\ url.Host (http.URL (r w')) = host ++ port
    /\ http.Host (r w') = host ++ port
    /\ http.Header_ (r w') !! "X-Forwarded-Host"
       = Some [http.Get (http.Header_ (r w)) "Host"].
Proof.
  intros Ht Hc Hl Hhost Hport.
  pose proof (Parse_scheme_host c scheme host port Hc Hl Hhost Hport) as Hparse.
  rewrite <- Ht in Hparse.
  assert (target w <> EmptyString) as Hset by (rewrite Ht; discriminate).
  rewrite (PathRequestProxyHandler_set prefix w Hset).
  erewrite serveReverseProxy_parsed by exact Hparse.
  eexists _, _. split; [reflexivity|]. new_calls.
  cbn [r with_request]. do 4 (split; [reflexivity|]).
  unfold rewrite_request, set_Host, set_Header, set_URL_Scheme, set_URL_Host,
    set_URL_Path. cbn [http.Header_ http.URL]. unfold http.Set_.
  apply lookup_insert_eq.
Qed.

Lemma path_handler_forwards_to_plain_target_witness :
  let w := sample.serving "https://127.0.0.1:8080"
             (sample.with_Host_header (sample.NewRequest "/forward/api" "")
                "example.com") in
  exists w' r1,
    PathRequestProxyHandler "/forward" w = Some (tt, w')
    /\ since (calls w) w'
         = [Forward r1;
            ServeHTTP (rawurl.host_URL "https" "127.0.0.1:8080") (r w')]
    /\ url.Path (http.URL (r w')) = "/api"
    /\ url.Host (http.URL (r w')) = "127.0.0.1:8080"
    /\ http.Host (r w') = "127.0.0.1:8080"
    /\ http.Header_ (r w') !! "X-Forwarded-Host" = Some ["example.com"].
Proof.
  intros w.
  apply (path_handler_forwards_to_plain_target w "/forward" "h" "ttps"
           "127.0.0.1" ":8080"); reflexivity.
Defined.
